(** * caiatech-datalab: the export engine (backend/internal/models/export.go)

    A shallow embedding of the JSONL export engine and of the option
    parsing of its HTTP front end, followed by the properties of the
    specification that are stated about them.

    Conventions of the embedding.
    - A Go [string] is a [string] of bytes; [int] and [int64] are [Z]
      (every counter below is bounded by the length of a list, so no
      wrap-around can occur).
    - A slice is a [list]; an index expression [msgs[i]] is [index msgs i],
      which is [None] when Go would panic with an index out of range.  The
      functions that index therefore return an [option], [None] standing for
      the run-time panic.
    - The standard library functions the engine calls ([strings.TrimSpace],
      [strings.EqualFold], [json.Unmarshal]) are modelled after their Go
      documentation, the JSON ones on the syntax tree of the document. *)

From Stdlib Require Import ZArith Ascii.
From stdpp Require Import gmap strings list fin_maps sorting.

Local Open Scope Z_scope.
Set Warnings "-register-all".

(* ===================================================================== *)
(** ** Go strings *)
(* ===================================================================== *)

Module GoStrings.

Definition byte_is (c : ascii) (n : N) : bool := N.eqb (N_of_ascii c) n.

(** [asciiSpace] of package strings: tab, LF, VT, FF, CR and space. *)
Definition asciiSpace (c : ascii) : bool :=
  byte_is c 9 || byte_is c 10 || byte_is c 11 || byte_is c 12
  || byte_is c 13 || byte_is c 32.

(** The two-byte UTF-8 encodings of the runes for which [unicode.IsSpace]
    holds: U+0085 and U+00A0. *)
Definition space2 (c1 c2 : ascii) : bool :=
  byte_is c1 0xC2 && (byte_is c2 0x85 || byte_is c2 0xA0).

(** The three-byte ones: U+1680, U+2000..U+200A, U+2028, U+2029, U+202F,
    U+205F and U+3000. *)
Definition space3 (c1 c2 c3 : ascii) : bool :=
  (byte_is c1 0xE1 && byte_is c2 0x9A && byte_is c3 0x80)
  || (byte_is c1 0xE2 && byte_is c2 0x80
      && (N.leb 0x80 (N_of_ascii c3) && N.leb (N_of_ascii c3) 0x8A
          || byte_is c3 0xA8 || byte_is c3 0xA9 || byte_is c3 0xAF))
  || (byte_is c1 0xE2 && byte_is c2 0x81 && byte_is c3 0x9F)
  || (byte_is c1 0xE3 && byte_is c2 0x80 && byte_is c3 0x80).

(** [strings.TrimLeftFunc(s, unicode.IsSpace)]: drop white-space runes
    from the front.  A byte that does not start one of the encodings above
    decodes to a rune that is not white space (possibly [RuneError]) and
    stops the scan. *)
Fixpoint trimLeft (s : string) : string :=
  match s with
  | EmptyString => s
  | String c1 t1 =>
      if asciiSpace c1 then trimLeft t1
      else match t1 with
           | EmptyString => s
           | String c2 t2 =>
               if space2 c1 c2 then trimLeft t2
               else match t2 with
                    | EmptyString => s
                    | String c3 t3 =>
                        if space3 c1 c2 c3 then trimLeft t3 else s
                    end
           end
  end.

(** The same scan on the reversed string, for the right end: the last rune
    is white space exactly when the string ends with one of the encodings. *)
Fixpoint trimLeftRev (s : string) : string :=
  match s with
  | EmptyString => s
  | String c1 t1 =>
      if asciiSpace c1 then trimLeftRev t1
      else match t1 with
           | EmptyString => s
           | String c2 t2 =>
               if space2 c2 c1 then trimLeftRev t2
               else match t2 with
                    | EmptyString => s
                    | String c3 t3 =>
                        if space3 c3 c2 c1 then trimLeftRev t3 else s
                    end
           end
  end.

Definition trimRight (s : string) : string :=
  String.rev (trimLeftRev (String.rev s)).

(** [strings.TrimSpace]. *)
Definition TrimSpace (s : string) : string := trimRight (trimLeft s).

(** [len(s)]. *)
Definition len (s : string) : Z := Z.of_nat (String.length s).

(** [strings.Join(elems, sep)]. *)
Fixpoint Join (elems : list string) (sep : string) : string :=
  match elems with
  | [] => ""
  | [x] => x
  | x :: rest => x +:+ sep +:+ Join rest sep
  end.

Definition newline : string := String (ascii_of_N 10) EmptyString.

(** Lower-casing of the ASCII letters, the only folding that matters for
    the names compared below. *)
Definition lowerByte (c : ascii) : ascii :=
  let n := N_of_ascii c in
  if N.leb 65 n && N.leb n 90 then ascii_of_N (n + 32) else c.

Fixpoint lowerASCII (s : string) : string :=
  match s with
  | EmptyString => EmptyString
  | String c t => String (lowerByte c) (lowerASCII t)
  end.

(** [strings.EqualFold(s, "items")].  Under simple case folding the letters
    i, t, e and m are only equivalent to their capitals; s is also
    equivalent to U+017F (bytes C5 BF). *)
Definition foldsTo (letter : ascii) (c : ascii) : bool :=
  bool_decide (lowerByte c = letter).

Definition EqualFold_items (s : string) : bool :=
  match s with
  | String i (String t (String e (String m rest))) =>
      foldsTo "i" i && foldsTo "t" t && foldsTo "e" e && foldsTo "m" m
      && match rest with
         | String c EmptyString => foldsTo "s" c
         | String c1 (String c2 EmptyString) =>
             byte_is c1 0xC5 && byte_is c2 0xBF
         | _ => false
         end
  | _ => false
  end.

End GoStrings.

Export GoStrings.


(* ===================================================================== *)
(** ** Data model (models.go) *)
(* ===================================================================== *)

(** A JSON document, as [encoding/json] sees it once it has been scanned.
    Object members are kept in document order, duplicates included; strings
    and member names are held decoded. *)
Inductive json : Type :=
  | JNull
  | JBool (b : bool)
  | JNumber (literal : string)
  | JString (s : string)
  | JArray (elems : list json)
  | JObject (members : list (string * json)).

(** [json.RawMessage]: the bytes of a value.  [RawInvalid] stands for bytes
    that are not a JSON document, [RawValue v] for the text of [v]. *)
Inductive RawMessage : Type :=
  | RawInvalid
  | RawValue (v : json).

Definition Role := string.
Definition RoleSystem : Role := "system".
Definition RoleUser : Role := "user".
Definition RoleAssistant : Role := "assistant".

Definition SplitTrain : string := "train".
Definition ConversationStatusApproved : string := "approved".

Record Message : Type := mkMessage {
  Role_ : Role;
  Content : string;
  Name : string;
  Meta : option json
}.

(** The zero value of [Message]. *)
Definition zeroMessage : Message := mkMessage "" "" "" None.

Record Conversation : Type := mkConversation {
  ConvID : Z;
  ConvDatasetID : Z;
  ConvSplit : string;
  ConvStatus : string;
  Tags : list string;
  Source : string;
  Notes : string;
  Messages : list Message
}.

Record DatasetItem : Type := mkDatasetItem {
  ItemID : Z;
  ItemDatasetID : Z;
  Data : RawMessage;
  SourceRef : string
}.

Record Dataset : Type := mkDataset {
  DsID : Z;
  DsName : string;
  Kind : string
}.

Record ExportOptions : Type := mkExportOptions {
  Type_ : string;
  DatasetID : Z;
  Split : string;
  Status : string;
  IncludeSystem : bool;
  Context : string;
  ContextTurns : Z;
  RoleStyle : string;
  MaxExamples : Z
}.

(** Options that differ from [opts] in one field. *)
Definition withMaxExamples (opts : ExportOptions) (n : Z) : ExportOptions :=
  mkExportOptions (Type_ opts) (DatasetID opts) (Split opts) (Status opts)
    (IncludeSystem opts) (Context opts) (ContextTurns opts) (RoleStyle opts) n.

Definition withContext (opts : ExportOptions) (context : string)
  : ExportOptions :=
  mkExportOptions (Type_ opts) (DatasetID opts) (Split opts) (Status opts)
    (IncludeSystem opts) context (ContextTurns opts) (RoleStyle opts)
    (MaxExamples opts).

Record ExportPair : Type := mkExportPair {
  User : string;
  Assistant : string
}.

Global Instance json_inhabited : Inhabited json := populate JNull.
Global Instance Message_inhabited : Inhabited Message := populate zeroMessage.

(** [s[i]] on a slice: [None] is the index-out-of-range panic. *)
Definition index {A : Type} (s : list A) (i : Z) : option A :=
  if decide (0 <= i) then s !! Z.to_nat i else None.

(* ===================================================================== *)
(** ** Pair derivation (export.go) *)
(* ===================================================================== *)

(** [findPrevRole]: the loop [for j := start; j >= 0; j--], written by
    recursion on [j + 1]. *)
Fixpoint findPrevRole_from (msgs : list Message) (role : Role) (n : nat)
  : option Z :=
  match n with
  | O => Some (-1)
  | S j =>
      m ← msgs !! j;
      if decide (Role_ m = role) then Some (Z.of_nat j)
      else findPrevRole_from msgs role j
  end.

Definition findPrevRole (msgs : list Message) (start : Z) (role : Role)
  : option Z :=
  findPrevRole_from msgs role (Z.to_nat (start + 1)).

Definition roleLabel (r : Role) : string :=
  if decide (r = RoleSystem) then "System: "
  else if decide (r = RoleAssistant) then "Assistant: "
  else "User: ".

(** First loop of [renderContext]: [j] runs down from [userIdx] while
    [j >= 0], counting user messages in [turns]; the result is the value of
    [j] when the loop is left, by [break] or by exhaustion ([-1]).  The
    recursion is on [j + 1]. *)
Fixpoint windowScan (msgs : list Message) (contextTurns : Z) (n : nat)
  (turns : Z) : option Z :=
  match n with
  | O => Some (-1)
  | S j =>
      m ← msgs !! j;
      if decide (Role_ m = RoleUser) then
        let turns := turns + 1 in
        if decide (turns >= contextTurns) then Some (Z.of_nat j)
        else windowScan msgs contextTurns j turns
      else windowScan msgs contextTurns j turns
  end.

(** The value of [start] after the first block of [renderContext]. *)
Definition windowStart (msgs : list Message) (userIdx : Z) (contextTurns : Z)
  : option Z :=
  if decide (contextTurns > 0) then
    j ← windowScan msgs contextTurns (Z.to_nat (userIdx + 1)) 0;
    Some (if decide (j > 0) then j else 0)
  else Some 0.

(** One iteration of the second loop of [renderContext] on the builder [b]. *)
Definition renderStep (includeSystem : bool) (roleStyle : string)
  (m : Message) (b : string) : string :=
  if bool_decide (Role_ m = RoleSystem) && negb includeSystem then b
  else if decide (TrimSpace (Content m) = "") then b
  else
    let b := if decide (len b > 0) then b +:+ newline else b in
    if decide (roleStyle = "plain") then b +:+ TrimSpace (Content m)
    else (b +:+ roleLabel (Role_ m)) +:+ TrimSpace (Content m).

(** The loop [for i := start; i <= userIdx; i++], over the indices it
    visits. *)
Fixpoint renderLoop (msgs : list Message) (includeSystem : bool)
  (roleStyle : string) (indices : list Z) (b : string) : option string :=
  match indices with
  | [] => Some b
  | i :: rest =>
      m ← index msgs i;
      renderLoop msgs includeSystem roleStyle rest
        (renderStep includeSystem roleStyle m b)
  end.

(** The integers [lo, lo+1, ..., hi] (none when [hi < lo]). *)
Definition range (lo hi : Z) : list Z :=
  (fun k => lo + Z.of_nat k) <$> seq 0 (Z.to_nat (hi + 1 - lo)).

Definition renderContext (msgs : list Message) (userIdx : Z)
  (includeSystem : bool) (contextTurns : Z) (roleStyle : string)
  : option string :=
  start ← windowStart msgs userIdx contextTurns;
  renderLoop msgs includeSystem roleStyle (range start userIdx) "".

(** The [switch contextMode] of [derivePairs]. *)
Definition promptFor (msgs : list Message) (opts : ExportOptions)
  (contextMode roleStyle : string) (userIdx : Z) : option string :=
  if decide (contextMode = "none") then
    m ← index msgs userIdx; Some (TrimSpace (Content m))
  else if decide (contextMode = "window") then
    renderContext msgs userIdx (IncludeSystem opts) (ContextTurns opts) roleStyle
  else if decide (contextMode = "full") then
    renderContext msgs userIdx (IncludeSystem opts) 0 roleStyle
  else
    m ← index msgs userIdx; Some (TrimSpace (Content m)).

(** The body of the loop of [derivePairs] at index [i]; every [continue]
    leaves [pairs] as it is. *)
Definition derivePairs_step (msgs : list Message) (opts : ExportOptions)
  (contextMode roleStyle : string) (i : Z) (pairs : list ExportPair)
  : option (list ExportPair) :=
  m ← index msgs i;
  if decide (Role_ m ≠ RoleAssistant) then Some pairs
  else
    let assistantText := TrimSpace (Content m) in
    if decide (assistantText = "") then Some pairs
    else
      userIdx ← findPrevRole msgs (i - 1) RoleUser;
      if decide (userIdx < 0) then Some pairs
      else
        prompt ← promptFor msgs opts contextMode roleStyle userIdx;
        if decide (prompt = "") then Some pairs
        else Some (pairs ++ [mkExportPair prompt assistantText]).

Fixpoint derivePairs_loop (msgs : list Message) (opts : ExportOptions)
  (contextMode roleStyle : string) (indices : list Z)
  (pairs : list ExportPair) : option (list ExportPair) :=
  match indices with
  | [] => Some pairs
  | i :: rest =>
      pairs ← derivePairs_step msgs opts contextMode roleStyle i pairs;
      derivePairs_loop msgs opts contextMode roleStyle rest pairs
  end.

Definition derivePairs (msgs : list Message) (opts : ExportOptions)
  : option (list ExportPair) :=
  let contextMode :=
    if decide (Context opts = "") then "none" else Context opts in
  let roleStyle :=
    if decide (RoleStyle opts = "") then "labels" else RoleStyle opts in
  derivePairs_loop msgs opts contextMode roleStyle
    (range 0 (Z.of_nat (length msgs) - 1)) [].

(* ===================================================================== *)
(** ** Decoding item data ([json.Unmarshal]) *)
(* ===================================================================== *)

(** [json.Unmarshal(data, &obj)] for [obj : map[string]json.RawMessage]:
    an object fills the map, a later member replacing an earlier one of the
    same name; [null] leaves the map nil without error; everything else is
    an error. *)
Definition unmarshalObject (data : RawMessage) : option (gmap string json) :=
  match data with
  | RawInvalid => None
  | RawValue JNull => Some ∅
  | RawValue (JObject members) =>
      Some (foldl (fun obj kv => <[kv.1 := kv.2]> obj) ∅ members)
  | RawValue _ => None
  end.

(** [json.Unmarshal(raw, &s)] for a string [s] holding [cur]: a JSON string
    is stored, [null] has no effect and is no error, everything else is an
    error. *)
Definition unmarshalString (raw : json) (cur : string) : option string :=
  match raw with
  | JString s => Some s
  | JNull => Some cur
  | _ => None
  end.

(** One member of an object decoded into a [Message].  Field names are
    matched without regard to case; [meta] is a [json.RawMessage] and takes
    any value; members that name no field are skipped. *)
Definition unmarshalField (m : Message) (kv : string * json)
  : option Message :=
  let key := lowerASCII kv.1 in
  if decide (key = "role") then
    s ← unmarshalString kv.2 (Role_ m);
    Some (mkMessage s (Content m) (Name m) (Meta m))
  else if decide (key = "content") then
    s ← unmarshalString kv.2 (Content m);
    Some (mkMessage (Role_ m) s (Name m) (Meta m))
  else if decide (key = "name") then
    s ← unmarshalString kv.2 (Name m);
    Some (mkMessage (Role_ m) (Content m) s (Meta m))
  else if decide (key = "meta") then
    Some (mkMessage (Role_ m) (Content m) (Name m) (Some kv.2))
  else Some m.

Fixpoint unmarshalFields (m : Message) (members : list (string * json))
  : option Message :=
  match members with
  | [] => Some m
  | kv :: rest => m ← unmarshalField m kv; unmarshalFields m rest
  end.

(** An element of the array decoded into a fresh [Message]. *)
Definition unmarshalMessage (v : json) : option Message :=
  match v with
  | JNull => Some zeroMessage
  | JObject members => unmarshalFields zeroMessage members
  | _ => None
  end.

(** [json.Unmarshal(mRaw, &msgs)] for [msgs : []Message]. *)
Definition unmarshalMessages (raw : json) : option (list Message) :=
  match raw with
  | JNull => Some []
  | JArray elems => mapM unmarshalMessage elems
  | _ => None
  end.

(** The single-turn shape of [derivePairsFromItemData]: the pair it returns,
    if it returns there. *)
Definition singleTurn (obj : gmap string json) : option ExportPair :=
  uRaw ← obj !! "user";
  aRaw ← obj !! "assistant";
  u ← unmarshalString uRaw "";
  a ← unmarshalString aRaw "";
  let u := TrimSpace u in
  let a := TrimSpace a in
  if decide (u ≠ "" ∧ a ≠ "") then Some (mkExportPair u a) else None.

Definition derivePairsFromItemData (data : RawMessage) (opts : ExportOptions)
  : option (list ExportPair) :=
  match unmarshalObject data with
  | None => Some []
  | Some obj =>
      match singleTurn obj with
      | Some p => Some [p]
      | None =>
          match obj !! "messages" with
          | Some mRaw =>
              match unmarshalMessages mRaw with
              | None => Some []
              | Some msgs =>
                  if decide (length msgs = 0%nat) then Some []
                  else derivePairs msgs opts
              end
          | None => Some []
          end
      end
  end.

(* ===================================================================== *)
(** ** The record source *)
(* ===================================================================== *)

(** The tables the engine reads.  Each conversation carries its messages in
    [idx] order, which is what [loadMessages] returns for it. *)
Record DB : Type := mkDB {
  datasets : list Dataset;
  conversations : list Conversation;
  dataset_items : list DatasetItem
}.

Inductive error : Type :=
  | ErrNotFound
  | ErrUnknownExportType (type : string)
  | ErrUnknownItemsExportType (type : string)
  | ErrDatasetIDRequired
  | PanicIndexOutOfRange.

(** [ORDER BY id ASC]. *)
Fixpoint insertByKey {A : Type} (key : A -> Z) (x : A) (l : list A) : list A :=
  match l with
  | [] => [x]
  | y :: rest =>
      if decide (key x <= key y) then x :: l
      else y :: insertByKey key x rest
  end.

Definition orderBy {A : Type} (key : A -> Z) (l : list A) : list A :=
  foldr (insertByKey key) [] l.

Definition GetDataset (db : DB) (id : Z) : error + Dataset :=
  match List.find (fun d => bool_decide (DsID d = id)) (datasets db) with
  | Some d => inr d
  | None => inl ErrNotFound
  end.

(** The rows selected by [conversationsFilterQuery]. *)
Definition conversationsFilterQuery (db : DB) (opts : ExportOptions)
  : list Conversation :=
  orderBy ConvID
    (List.filter
       (fun c =>
          bool_decide (ConvStatus c = Status opts)
          && (if decide (DatasetID opts > 0)
              then bool_decide (ConvDatasetID c = DatasetID opts) else true)
          && (if decide (Split opts ≠ "" ∧ Split opts ≠ "all")
              then bool_decide (ConvSplit c = Split opts) else true))
       (conversations db)).

(** [SELECT ... FROM dataset_items WHERE dataset_id = $1 ORDER BY id ASC]. *)
Definition datasetItemsQuery (db : DB) (datasetID : Z) : list DatasetItem :=
  orderBy ItemID
    (List.filter (fun it => bool_decide (ItemDatasetID it = datasetID))
       (dataset_items db)).

(* ===================================================================== *)
(** ** Streaming *)
(* ===================================================================== *)

(** One record written to the sink, one JSON document and a newline. *)
Inductive Line : Type :=
  | PairLine (p : ExportPair)
  | ConversationLine (id : Z) (split status : string) (tags : list string)
      (source notes : string) (messages : list Message)
  | RawLine (data : RawMessage)
  | MetaLine (id datasetID : Z) (sourceRef : string) (data : RawMessage).

(** What a streaming function leaves behind: the lines written to [w] and
    the error it returns ([None] for [nil]).  The store and the sink are in
    memory: a query returns its rows, and every scan, load and write
    succeeds.  The errors that [QueryContext], [rows.Scan], [loadMessages],
    [Encode], [Write] and [rows.Err] hand back in the source are not part of
    an outcome; its error is one the engine raises itself. *)
Definition Outcome : Type := list Line * option error.

(** The loop of [streamConversations], [streamDatasetItemsRaw] and
    [streamDatasetItemsWithMeta]: one line per row, then the cap test and
    [break]. *)
Fixpoint streamRows {A : Type} (encode : A -> Line) (maxExamples : Z)
  (rows : list A) (count : Z) : list Line :=
  match rows with
  | [] => []
  | row :: rest =>
      let count := count + 1 in
      if decide (maxExamples > 0 ∧ count >= maxExamples) then [encode row]
      else encode row :: streamRows encode maxExamples rest count
  end.

(** The inner loop of [streamPairs] and [streamPairsFromDatasetItems] over
    the pairs of one row: lines written, the new [count], and whether the
    function returned from inside the loop. *)
Fixpoint encodePairs (maxExamples : Z) (pairs : list ExportPair) (count : Z)
  : list Line * Z * bool :=
  match pairs with
  | [] => ([], count, false)
  | p :: rest =>
      let count := count + 1 in
      if decide (maxExamples > 0 ∧ count >= maxExamples)
      then ([PairLine p], count, true)
      else
        let '(out, count, returned) := encodePairs maxExamples rest count in
        (PairLine p :: out, count, returned)
  end.

(** The outer loop of the two pair streams; [derive] is [derivePairs] on the
    loaded messages, or [derivePairsFromItemData] on the item data. *)
Fixpoint streamPairRows {A : Type} (derive : A -> option (list ExportPair))
  (maxExamples : Z) (rows : list A) (count : Z) : Outcome :=
  match rows with
  | [] => ([], None)
  | row :: rest =>
      match derive row with
      | None => ([], Some PanicIndexOutOfRange)
      | Some pairs =>
          let '(out, count, returned) := encodePairs maxExamples pairs count in
          if returned then (out, None)
          else
            let '(out', err) := streamPairRows derive maxExamples rest count in
            (out ++ out', err)
      end
  end.

Definition streamConversations (db : DB) (opts : ExportOptions) : Outcome :=
  (streamRows
     (fun c => ConversationLine (ConvID c) (ConvSplit c) (ConvStatus c)
                 (Tags c) (Source c) (Notes c) (Messages c))
     (MaxExamples opts) (conversationsFilterQuery db opts) 0, None).

Definition streamDatasetItemsRaw (db : DB) (opts : ExportOptions) : Outcome :=
  if decide (DatasetID opts <= 0) then ([], Some ErrDatasetIDRequired)
  else
    (streamRows (fun it => RawLine (Data it)) (MaxExamples opts)
       (datasetItemsQuery db (DatasetID opts)) 0, None).

Definition streamDatasetItemsWithMeta (db : DB) (opts : ExportOptions)
  : Outcome :=
  if decide (DatasetID opts <= 0) then ([], Some ErrDatasetIDRequired)
  else
    (streamRows
       (fun it => MetaLine (ItemID it) (ItemDatasetID it) (SourceRef it)
                    (Data it))
       (MaxExamples opts) (datasetItemsQuery db (DatasetID opts)) 0, None).

Definition streamPairs (db : DB) (opts : ExportOptions) : Outcome :=
  streamPairRows (fun c => derivePairs (Messages c) opts) (MaxExamples opts)
    (conversationsFilterQuery db opts) 0.

Definition streamPairsFromDatasetItems (db : DB) (opts : ExportOptions)
  : Outcome :=
  if decide (DatasetID opts <= 0) then ([], Some ErrDatasetIDRequired)
  else
    streamPairRows (fun it => derivePairsFromItemData (Data it) opts)
      (MaxExamples opts) (datasetItemsQuery db (DatasetID opts)) 0.

Definition streamDatasetItems (db : DB) (opts : ExportOptions) : Outcome :=
  if decide (Type_ opts = "pairs") then streamPairsFromDatasetItems db opts
  else if decide (Type_ opts = "items") then streamDatasetItemsRaw db opts
  else if decide (Type_ opts = "items_with_meta")
  then streamDatasetItemsWithMeta db opts
  else ([], Some (ErrUnknownItemsExportType (Type_ opts))).

(** The three defaults [StreamExport] fills in. *)
Definition exportDefaults (opts : ExportOptions) : ExportOptions :=
  mkExportOptions
    (if decide (Type_ opts = "") then "pairs" else Type_ opts)
    (DatasetID opts)
    (if decide (Split opts = "") then SplitTrain else Split opts)
    (if decide (Status opts = "") then ConversationStatusApproved
     else Status opts)
    (IncludeSystem opts) (Context opts) (ContextTurns opts) (RoleStyle opts)
    (MaxExamples opts).

(** The [switch opts.Type] at the end of [StreamExport]. *)
Definition streamByType (db : DB) (opts : ExportOptions) : Outcome :=
  if decide (Type_ opts = "pairs") then streamPairs db opts
  else if decide (Type_ opts = "conversations") then streamConversations db opts
  else ([], Some (ErrUnknownExportType (Type_ opts))).

(** [StreamExport] once the defaults are in place. *)
Definition dispatch (db : DB) (opts : ExportOptions) : Outcome :=
  if decide (DatasetID opts > 0) then
    match GetDataset db (DatasetID opts) with
    | inl err => ([], Some err)
    | inr ds =>
        if EqualFold_items (Kind ds) then streamDatasetItems db opts
        else streamByType db opts
    end
  else streamByType db opts.

Definition StreamExport (db : DB) (opts : ExportOptions) : Outcome :=
  dispatch db (exportDefaults opts).

(* ===================================================================== *)
(** ** The HTTP front end (handleExportJSONL) *)
(* ===================================================================== *)

Definition digitOf (c : ascii) : option Z :=
  let n := Z.of_N (N_of_ascii c) in
  if decide (48 <= n <= 57) then Some (n - 48) else None.

Fixpoint parseDigits (s : string) (acc : Z) : option Z :=
  match s with
  | EmptyString => Some acc
  | String c t => d ← digitOf c; parseDigits t (acc * 10 + d)
  end.

(** [strconv.Atoi]: an optional sign and at least one decimal digit, the
    value within the range of [int]. *)
Definition Atoi (s : string) : option Z :=
  match s with
  | EmptyString => None
  | String c t =>
      let neg := bool_decide (c = "-"%char) in
      let digits :=
        if bool_decide (c = "-"%char) || bool_decide (c = "+"%char)
        then t else s in
      match digits with
      | EmptyString => None
      | _ =>
          n ← parseDigits digits 0;
          let n := if neg then - n else n in
          if decide (- 2 ^ 63 <= n <= 2 ^ 63 - 1) then Some n else None
      end
  end.

Definition parseIntDefault (s : string) (fallback : Z) : Z :=
  if decide (s = "") then fallback
  else match Atoi s with
       | Some i => i
       | None => fallback
       end.

Definition parseBoolDefault (s : string) (fallback : bool) : bool :=
  if decide (s = "") then fallback
  else
    let s := lowerASCII (TrimSpace s) in
    if decide (s = "1" ∨ s = "true" ∨ s = "yes" ∨ s = "y") then true
    else if decide (s = "0" ∨ s = "false" ∨ s = "no" ∨ s = "n") then false
    else fallback.

(** [url.Values] and its [Get]: the first value of the key, or [""]. *)
Definition Get (q : gmap string (list string)) (key : string) : string :=
  match q !! key with
  | Some (v :: _) => v
  | _ => ""
  end.

(** The [ExportOptions] that [handleExportJSONL] builds from the query. *)
Definition handlerOptions (q : gmap string (list string)) : ExportOptions :=
  let outType := TrimSpace (Get q "type") in
  let outType := if decide (outType = "") then "pairs" else outType in
  let datasetID := parseIntDefault (Get q "dataset_id") 0 in
  let split := TrimSpace (Get q "split") in
  let status := TrimSpace (Get q "status") in
  let split := if decide (split = "") then SplitTrain else split in
  let status :=
    if decide (status = "") then ConversationStatusApproved else status in
  let includeSystem := parseBoolDefault (Get q "include_system") false in
  let contextMode := TrimSpace (Get q "context") in
  let contextMode := if decide (contextMode = "") then "none" else contextMode in
  let contextTurns := parseIntDefault (Get q "context_turns") 6 in
  let contextTurns := if decide (contextTurns < 0) then 0 else contextTurns in
  let roleStyle := TrimSpace (Get q "role_style") in
  let roleStyle := if decide (roleStyle = "") then "labels" else roleStyle in
  let maxExamples := parseIntDefault (Get q "max_examples") 0 in
  let maxExamples := if decide (maxExamples < 0) then 0 else maxExamples in
  mkExportOptions outType datasetID split status includeSystem contextMode
    contextTurns roleStyle maxExamples.

(* ===================================================================== *)
(** ** Reference definitions, in the words of the specification *)
(* ===================================================================== *)

Module Spec.

Definition isUser (m : Message) : Prop := Role_ m = RoleUser.

Global Instance isUser_dec (m : Message) : Decision (isUser m) :=
  decide (Role_ m = RoleUser).

(** The nearest user-role message before position [i]: the last user
    message among the first [i] messages. *)
Definition nearestPrecedingUser (msgs : list Message) (i : nat)
  : option Message :=
  last (filter isUser (take i msgs)).

(** An assistant-role message with non-empty trimmed content. *)
Definition answers (m : Message) : Prop :=
  Role_ m = RoleAssistant ∧ TrimSpace (Content m) ≠ "".

Global Instance answers_dec (m : Message) : Decision (answers m) :=
  decide (Role_ m = RoleAssistant ∧ TrimSpace (Content m) ≠ "").

(** Pairs with [context=none], as the Pair Deriver's algorithm is
    summarised: one pair for every answering message that has a preceding
    user message. *)
Definition pairAt_summary (msgs : list Message) (i : nat)
  : list ExportPair :=
  match msgs !! i with
  | Some m =>
      if decide (answers m) then
        match nearestPrecedingUser msgs i with
        | Some u =>
            [mkExportPair (TrimSpace (Content u)) (TrimSpace (Content m))]
        | None => []
        end
      else []
  | None => []
  end.

Definition pairsNone_summary (msgs : list Message) : list ExportPair :=
  flat_map (pairAt_summary msgs) (seq 0 (length msgs)).

(** The same with the rule that a pair whose prompt is empty is dropped. *)
Definition pairAt (msgs : list Message) (i : nat) : list ExportPair :=
  match msgs !! i with
  | Some m =>
      if decide (answers m) then
        match nearestPrecedingUser msgs i with
        | Some u =>
            if decide (TrimSpace (Content u) = "") then []
            else
              [mkExportPair (TrimSpace (Content u)) (TrimSpace (Content m))]
        | None => []
        end
      else []
  | None => []
  end.

Definition pairsNone (msgs : list Message) : list ExportPair :=
  flat_map (pairAt msgs) (seq 0 (length msgs)).

(** Positions of the user messages among positions [0..upto], ascending. *)
Definition userAt (msgs : list Message) (j : nat) : Prop :=
  Role_ <$> msgs !! j = Some RoleUser.

Global Instance userAt_dec (msgs : list Message) (j : nat)
  : Decision (userAt msgs j) :=
  decide (Role_ <$> msgs !! j = Some RoleUser).

Definition userPositions (msgs : list Message) (upto : nat) : list nat :=
  filter (userAt msgs) (seq 0 (S upto)).

(** Where the selected range starts: at 0 when [k = 0] or when fewer than
    [k] user messages exist in the prefix, otherwise at the [k]-th user
    message counting backward from [upto] inclusive. *)
Definition rangeStart (msgs : list Message) (upto k : nat) : nat :=
  let users := userPositions msgs upto in
  if decide (k = 0%nat ∨ (length users < k)%nat) then 0%nat
  else default 0%nat (reverse users !! (k - 1)%nat).

(** The messages at positions [start..upto]. *)
Definition slice (msgs : list Message) (start upto : nat) : list Message :=
  take (S upto - start) (drop start msgs).

(** A message is retained unless it is a system message while
    [includeSystem] is off, or its trimmed content is empty. *)
Definition retained (includeSystem : bool) (m : Message) : Prop :=
  (Role_ m = RoleSystem -> includeSystem = true)
  ∧ TrimSpace (Content m) ≠ "".

Global Instance retained_dec (includeSystem : bool) (m : Message)
  : Decision (retained includeSystem m) :=
  decide ((Role_ m = RoleSystem -> includeSystem = true)
          ∧ TrimSpace (Content m) ≠ "").

(** The label of a role; a role outside the three of the data model is
    labelled as a user turn. *)
Definition label (r : Role) : string :=
  if decide (r = RoleUser) then "User: "
  else if decide (r = RoleSystem) then "System: "
  else if decide (r = RoleAssistant) then "Assistant: "
  else "User: ".

(** One rendered line: plain, or labelled for every other style. *)
Definition line (roleStyle : string) (m : Message) : string :=
  if decide (roleStyle = "plain") then TrimSpace (Content m)
  else label (Role_ m) +:+ TrimSpace (Content m).

Definition render (includeSystem : bool) (roleStyle : string)
  (turns : list Message) : string :=
  Join (line roleStyle <$> filter (retained includeSystem) turns) newline.

Definition renderContext (msgs : list Message) (upto : nat)
  (includeSystem : bool) (k : nat) (roleStyle : string) : string :=
  render includeSystem roleStyle (slice msgs (rangeStart msgs upto k) upto).

(** [u] is the position of the nearest user message before position [i]. *)
Definition pairedWith (msgs : list Message) (i u : nat) : Prop :=
  (u < i)%nat ∧ userAt msgs u
  ∧ ∀ j : nat, (u < j < i)%nat -> ¬ userAt msgs j.

(** The single-turn shape of an item: both keys present, both strings, both
    non-empty once trimmed. *)
Definition singleTurnShape (obj : gmap string json) (u a : string) : Prop :=
  obj !! "user" = Some (JString u) ∧ obj !! "assistant" = Some (JString a)
  ∧ TrimSpace u ≠ "" ∧ TrimSpace a ≠ "".

(** Number of user turns among some turns. *)
Definition userTurns (turns : list Message) : nat :=
  length (filter isUser turns).

(** The position of the nearest user message before position [i]. *)
Definition nearestUserIndex (msgs : list Message) (i : nat) : option nat :=
  last (filter (userAt msgs) (seq 0 i)).

(** The pairs of a conversation when the prompt of a pair is given by the
    position of its user message: the answering message at position [i] is
    paired with the nearest user message before it, at position [u]; the
    prompt is [prompt u], the completion is the trimmed content of the
    answering message, and a pair whose prompt is empty is dropped. *)
Definition promptedPairAt (prompt : nat -> string) (msgs : list Message)
  (i : nat) : list ExportPair :=
  match msgs !! i with
  | Some m =>
      if decide (answers m) then
        match nearestUserIndex msgs i with
        | Some u =>
            if decide (prompt u = "") then []
            else [mkExportPair (prompt u) (TrimSpace (Content m))]
        | None => []
        end
      else []
  | None => []
  end.

Definition promptedPairs (prompt : nat -> string) (msgs : list Message)
  : list ExportPair :=
  flat_map (promptedPairAt prompt msgs) (seq 0 (length msgs)).

(** The defaults the Export Coordinator documents, an unset integer being
    zero. *)
Definition documentedDefaults (opts : ExportOptions) : ExportOptions :=
  mkExportOptions
    (if decide (Type_ opts = "") then "pairs" else Type_ opts)
    (DatasetID opts)
    (if decide (Split opts = "") then "train" else Split opts)
    (if decide (Status opts = "") then "approved" else Status opts)
    (IncludeSystem opts)
    (if decide (Context opts = "") then "none" else Context opts)
    (if decide (ContextTurns opts = 0) then 6 else ContextTurns opts)
    (if decide (RoleStyle opts = "") then "labels" else RoleStyle opts)
    (MaxExamples opts).

(** The same without a default for [context_turns]. *)
Definition engineDefaults (opts : ExportOptions) : ExportOptions :=
  mkExportOptions
    (if decide (Type_ opts = "") then "pairs" else Type_ opts)
    (DatasetID opts)
    (if decide (Split opts = "") then "train" else Split opts)
    (if decide (Status opts = "") then "approved" else Status opts)
    (IncludeSystem opts)
    (if decide (Context opts = "") then "none" else Context opts)
    (ContextTurns opts)
    (if decide (RoleStyle opts = "") then "labels" else RoleStyle opts)
    (MaxExamples opts).

End Spec.

(** All pairs derivable from some rows, in order; a derivation that failed
    contributes none. *)
Definition derivable {A : Type} (derive : A -> option (list ExportPair))
  (rows : list A) : list ExportPair :=
  flat_map (fun row => default [] (derive row)) rows.

(* ===================================================================== *)
(** ** Sample inputs *)
(* ===================================================================== *)

Definition user (s : string) : Message := mkMessage RoleUser s "" None.

Definition assistant (s : string) : Message := mkMessage RoleAssistant s "" None.

Definition optsWith (context : string) (turns : Z) : ExportOptions :=
  mkExportOptions "" 0 "" "" false context turns "" 0.

Definition system (s : string) : Message := mkMessage RoleSystem s "" None.

Definition dialogue : list Message :=
  [system "Be brief"; user "one"; assistant "1"; user " "; user "two";
   assistant "2"; user "three"].

Definition conv (id : Z) (msgs : list Message) : Conversation :=
  mkConversation id 1 "train" "approved" [] "" "" msgs.

Definition store : DB :=
  mkDB [mkDataset 1 "chat" "conversations"; mkDataset 2 "qa" "items"]
    [conv 2 [user "c"; assistant "C1"; assistant "C2"];
     conv 1 [user "a"; assistant "A"; user "b"; assistant "B"]]
    [mkDatasetItem 7 2
       (RawValue (JObject [("user", JString "u"); ("assistant", JString "v")]))
       "ref"].

Definition optsMax (type : string) (datasetID max : Z) : ExportOptions :=
  mkExportOptions type datasetID "" "" false "" 0 "" max.

Definition bothShapes : RawMessage :=
  RawValue
    (JObject
       [("messages",
         JArray [JObject [("role", JString "user"); ("content", JString "Q")];
                 JObject [("role", JString "assistant");
                          ("content", JString "R")]]);
        ("user", JString " Hi "); ("assistant", JString "Hello")]).

Definition twoTurns : json :=
  JArray [JObject [("role", JString "user"); ("content", JString "Q")];
          JObject [("Role", JString "assistant"); ("content", JString "R")]].

Definition blankUser : RawMessage :=
  RawValue
    (JObject
       [("user", JString "  "); ("assistant", JString "Hello");
        ("messages", twoTurns)]).

Definition longConversation : Conversation :=
  conv 1
    [user "1"; assistant "a"; user "2"; assistant "b"; user "3"; assistant "c";
     user "4"; assistant "d"; user "5"; assistant "e"; user "6"; assistant "f";
     user "7"; assistant "g"].

Definition longStore : DB := mkDB [] [longConversation] [].

(** The payloads of export_items_test.go. *)
Definition testUserAssistant : RawMessage :=
  RawValue (JObject [("user", JString "Hi"); ("assistant", JString "Hello")]).
Definition testMessages : RawMessage :=
  RawValue
    (JObject
       [("messages",
         JArray
           [JObject [("role", JString "user"); ("content", JString "Hi")];
            JObject [("role", JString "assistant");
                     ("content", JString "Hello")]])]).
Definition testUnrecognized : RawMessage :=
  RawValue (JArray [JString "not"; JString "an"; JString "object"]).

(* ===================================================================== *)
(** ** More of the engine's options *)
(* ===================================================================== *)

(** Options that differ from [opts] in the two conversation filters. *)
Definition withFilters (opts : ExportOptions) (split status : string)
  : ExportOptions :=
  mkExportOptions (Type_ opts) (DatasetID opts) split status
    (IncludeSystem opts) (Context opts) (ContextTurns opts) (RoleStyle opts)
    (MaxExamples opts).

(** The object [streamConversations] encodes for a row. *)
Definition conversationLine (c : Conversation) : Line :=
  ConversationLine (ConvID c) (ConvSplit c) (ConvStatus c) (Tags c)
    (Source c) (Notes c) (Messages c).

(** The line [streamDatasetItemsWithMeta] encodes for a row. *)
Definition metaLine (it : DatasetItem) : Line :=
  MetaLine (ItemID it) (ItemDatasetID it) (SourceRef it) (Data it).

(** The conversations an export selects, once the defaults are applied: the
    status matches, the dataset matches when one is given, and the split
    matches unless it is "all". *)
Definition selects (opts : ExportOptions) (c : Conversation) : Prop :=
  ConvStatus c = (if decide (Status opts = "") then "approved"
                  else Status opts)
  ∧ (0 < DatasetID opts -> ConvDatasetID c = DatasetID opts)
  ∧ ((if decide (Split opts = "") then "train" else Split opts) = "all"
     ∨ ConvSplit c = (if decide (Split opts = "") then "train"
                      else Split opts)).

Global Instance selects_dec (opts : ExportOptions) (c : Conversation)
  : Decision (selects opts c) :=
  decide
    (ConvStatus c = (if decide (Status opts = "") then "approved"
                     else Status opts)
     ∧ (0 < DatasetID opts -> ConvDatasetID c = DatasetID opts)
     ∧ ((if decide (Split opts = "") then "train" else Split opts) = "all"
        ∨ ConvSplit c = (if decide (Split opts = "") then "train"
                         else Split opts))).

(** The rows a run over conversations reads, and the rows a run over an
    items dataset reads: the selected ones, each once, by ascending id. *)
Definition selectedConversations (db : DB) (opts : ExportOptions)
  (rows : list Conversation) : Prop :=
  rows ≡ₚ filter (selects opts) (conversations db)
  ∧ StronglySorted (fun a b => ConvID a <= ConvID b) rows.

Definition selectedItems (db : DB) (opts : ExportOptions)
  (rows : list DatasetItem) : Prop :=
  rows ≡ₚ filter (fun it => ItemDatasetID it = DatasetID opts)
            (dataset_items db)
  ∧ StronglySorted (fun a b => ItemID a <= ItemID b) rows.

(** The records derivable from the selected rows, all of them: what an
    export is to emit when nothing caps it.  A run over conversations
    derives the pairs of every selected conversation, or one record per
    selected conversation; a run over an items dataset derives the pairs of
    every item, or one record per item; a run that is refused derives
    nothing. *)
Definition totalDerivable (db : DB) (opts : ExportOptions)
  (records : list Line) : Prop :=
  let type := if decide (Type_ opts = "") then "pairs" else Type_ opts in
  let fromConversations :=
    ∃ rows : list Conversation,
      selectedConversations db opts rows
      ∧ records
        = if decide (type = "pairs")
          then PairLine
                 <$> derivable (fun c => derivePairs (Messages c) opts) rows
          else if decide (type = "conversations")
          then conversationLine <$> rows
          else [] in
  let fromItems :=
    ∃ rows : list DatasetItem,
      selectedItems db opts rows
      ∧ records
        = if decide (type = "pairs")
          then PairLine
                 <$> derivable
                       (fun it => derivePairsFromItemData (Data it) opts) rows
          else if decide (type = "items")
          then (fun it => RawLine (Data it)) <$> rows
          else if decide (type = "items_with_meta")
          then metaLine <$> rows
          else [] in
  if decide (0 < DatasetID opts) then
    match GetDataset db (DatasetID opts) with
    | inl _ => records = []
    | inr ds =>
        if EqualFold_items (Kind ds) then fromItems else fromConversations
    end
  else fromConversations.

(* ===================================================================== *)
(** ** White space at the ends of a string *)
(* ===================================================================== *)

(** Whether the string starts with a white-space rune. *)
Definition startsWithSpace (s : string) : bool :=
  match s with
  | EmptyString => false
  | String c1 t1 =>
      asciiSpace c1
      || match t1 with
         | EmptyString => false
         | String c2 t2 =>
             space2 c1 c2
             || match t2 with
                | EmptyString => false
                | String c3 _ => space3 c1 c2 c3
                end
         end
  end.

(* ===================================================================== *)
(** ** Normalisation of splits, statuses and conversations
       (normalize.go, the API handlers, the importer) *)
(* ===================================================================== *)

Definition SplitValid : string := "valid".
Definition SplitTest : string := "test".
Definition ConversationStatusDraft : string := "draft".
Definition ConversationStatusPending : string := "pending".
Definition ConversationStatusRejected : string := "rejected".
Definition ConversationStatusArchived : string := "archived".

(** The request bodies and the importer's record, as decoded. *)
Module upsertConversationRequest.
Record t : Type := mk {
  DatasetID : Z;
  Split : string;
  Status : string;
  Tags : list string;
  Source : string;
  Notes : string;
  Messages : list Message
}.
End upsertConversationRequest.

Module createProposalRequest.
Record t : Type := mk {
  DatasetID : Z;
  Split : string;
  Tags : list string;
  Source : string;
  Notes : string;
  Messages : list Message;
  User : string;
  Assistant : string;
  System : string
}.
End createProposalRequest.

Module importConversation.
Record t : Type := mk {
  Split : string;
  Status : string;
  Tags : list string;
  Source : string;
  Notes : string;
  Messages : list Message;
  User : string;
  Assistant : string;
  System : string
}.
End importConversation.

(** The errors of [normalizeImport], with what their messages quote. *)
Inductive importError : Type :=
  | ImportInvalidSplit (splitText : string)
  | ImportInvalidStatus (statusText : string)
  | ImportMissingMessages
  | ImportEmptyContent (i : nat)
  | ImportInvalidRole (i : nat).

(** [json.RawMessage("{}")]. *)
Definition emptyObject : json := JObject [].

(** [if len(m.Meta) == 0 { m.Meta = json.RawMessage("{}") }]. *)
Definition defaultMeta (meta : option json) : option json :=
  match meta with
  | None => Some emptyObject
  | Some v => Some v
  end.

(** The [switch msgs[i].Role] of the three normalisers. *)
Definition knownRole (r : Role) : Prop :=
  r = RoleSystem ∨ r = RoleUser ∨ r = RoleAssistant.

Global Instance knownRole_dec (r : Role) : Decision (knownRole r) :=
  decide (r = RoleSystem ∨ r = RoleUser ∨ r = RoleAssistant).

Section Normalize.

(** [strings.ToLower], whose case tables are not part of the repository. *)
Variable ToLower : string -> string.

Definition NormalizeSplit (s : string) : string * bool :=
  let s := TrimSpace (ToLower s) in
  if decide (s = SplitTrain ∨ s = SplitValid ∨ s = SplitTest)
  then (s, true) else ("", false).

Definition NormalizeConversationStatus (s : string) : string * bool :=
  let s := TrimSpace (ToLower s) in
  if decide (s = ConversationStatusDraft ∨ s = ConversationStatusPending
             ∨ s = ConversationStatusApproved
             ∨ s = ConversationStatusRejected
             ∨ s = ConversationStatusArchived)
  then (s, true) else ("", false).

(** The loop [for i := range msgs] of [normalizeConversationUpsert]. *)
Fixpoint upsertMessages (status : string) (msgs : list Message)
  : string + list Message :=
  match msgs with
  | [] => inr []
  | m :: rest =>
      let content := TrimSpace (Content m) in
      let name := TrimSpace (Name m) in
      if decide (content = "" ∧ status ≠ ConversationStatusDraft)
      then inl "message content cannot be empty"
      else if decide (knownRole (Role_ m)) then
        match upsertMessages status rest with
        | inl err => inl err
        | inr rest =>
            inr (mkMessage (Role_ m) content name (defaultMeta (Meta m))
                 :: rest)
        end
      else inl "invalid role"
  end.

Definition normalizeConversationUpsert (req : upsertConversationRequest.t)
  : string + Conversation :=
  let splitText := TrimSpace (upsertConversationRequest.Split req) in
  let splitText := if decide (splitText = "") then SplitTrain else splitText in
  let '(split, ok) := NormalizeSplit splitText in
  if negb ok then inl "invalid split"
  else
    let statusText := TrimSpace (upsertConversationRequest.Status req) in
    let statusText :=
      if decide (statusText = "") then ConversationStatusApproved
      else statusText in
    let '(status, ok) := NormalizeConversationStatus statusText in
    if negb ok then inl "invalid status"
    else if decide (upsertConversationRequest.DatasetID req <= 0)
    then inl "dataset_id required"
    else
      let msgs := upsertConversationRequest.Messages req in
      if decide (length msgs = 0%nat) then inl "messages required"
      else
        match upsertMessages status msgs with
        | inl err => inl err
        | inr msgs =>
            inr (mkConversation 0 (upsertConversationRequest.DatasetID req)
                   split status (upsertConversationRequest.Tags req)
                   (TrimSpace (upsertConversationRequest.Source req))
                   (TrimSpace (upsertConversationRequest.Notes req)) msgs)
        end.

(** The loop of [normalizeConversationFromProposal]: the role is checked
    before the content. *)
Fixpoint proposalMessages (msgs : list Message) : string + list Message :=
  match msgs with
  | [] => inr []
  | m :: rest =>
      let content := TrimSpace (Content m) in
      let name := TrimSpace (Name m) in
      if decide (knownRole (Role_ m)) then
        if decide (content = "") then inl "message content cannot be empty"
        else
          match proposalMessages rest with
          | inl err => inl err
          | inr rest =>
              inr (mkMessage (Role_ m) content name (defaultMeta (Meta m))
                   :: rest)
          end
      else inl "invalid role"
  end.

Definition normalizeConversationFromProposal (req : createProposalRequest.t)
  : string + Conversation :=
  let splitText := TrimSpace (createProposalRequest.Split req) in
  let splitText := if decide (splitText = "") then SplitTrain else splitText in
  let '(split, ok) := NormalizeSplit splitText in
  if negb ok then inl "invalid split"
  else
    let datasetID := createProposalRequest.DatasetID req in
    if decide (datasetID <= 0) then inl "dataset_id required"
    else
      let built :=
        let msgs := createProposalRequest.Messages req in
        if decide (length msgs = 0%nat) then
          let user := TrimSpace (createProposalRequest.User req) in
          let assistant := TrimSpace (createProposalRequest.Assistant req) in
          let system := TrimSpace (createProposalRequest.System req) in
          if decide (user = "" ∨ assistant = "") then None
          else
            let msgs :=
              if decide (system ≠ "")
              then msgs ++ [mkMessage RoleSystem system "" (Some emptyObject)]
              else msgs in
            Some (msgs ++ [mkMessage RoleUser user "" (Some emptyObject);
                           mkMessage RoleAssistant assistant ""
                             (Some emptyObject)])
        else Some msgs in
      match built with
      | None => inl "messages or (user+assistant) required"
      | Some msgs =>
          match proposalMessages msgs with
          | inl err => inl err
          | inr msgs =>
              inr (mkConversation 0 datasetID split ConversationStatusPending
                     (createProposalRequest.Tags req)
                     (TrimSpace (createProposalRequest.Source req))
                     (TrimSpace (createProposalRequest.Notes req)) msgs)
          end
      end.

(** The loop of [normalizeImport], at message [i]. *)
Fixpoint importMessages (i : nat) (msgs : list Message)
  : importError + list Message :=
  match msgs with
  | [] => inr []
  | m :: rest =>
      let content := TrimSpace (Content m) in
      let name := TrimSpace (Name m) in
      if decide (content = "") then inl (ImportEmptyContent i)
      else if decide (knownRole (Role_ m)) then
        match importMessages (S i) rest with
        | inl err => inl err
        | inr rest =>
            inr (mkMessage (Role_ m) content name (defaultMeta (Meta m))
                 :: rest)
        end
      else inl (ImportInvalidRole i)
  end.

Definition normalizeImport (rec : importConversation.t) (datasetID : Z)
  (defaultSplit defaultStatus : string) (defaultTags : list string)
  (defaultSource defaultNotes : string) : importError + Conversation :=
  let splitText := TrimSpace (importConversation.Split rec) in
  let splitText :=
    if decide (splitText = "") then defaultSplit else splitText in
  let '(split, ok) := NormalizeSplit splitText in
  if negb ok then inl (ImportInvalidSplit splitText)
  else
    let statusText := TrimSpace (importConversation.Status rec) in
    let statusText :=
      if decide (statusText = "") then defaultStatus else statusText in
    let '(status, ok) := NormalizeConversationStatus statusText in
    if negb ok then inl (ImportInvalidStatus statusText)
    else
      let tags := importConversation.Tags rec in
      let tags := if decide (length tags = 0%nat) then defaultTags else tags in
      let source := TrimSpace (importConversation.Source rec) in
      let source := if decide (source = "") then defaultSource else source in
      let notes := TrimSpace (importConversation.Notes rec) in
      let notes := if decide (notes = "") then defaultNotes else notes in
      let built :=
        let msgs := importConversation.Messages rec in
        if decide (length msgs = 0%nat) then
          let user := TrimSpace (importConversation.User rec) in
          let assistant := TrimSpace (importConversation.Assistant rec) in
          let system := TrimSpace (importConversation.System rec) in
          if decide (user = "" ∨ assistant = "") then None
          else
            let msgs :=
              if decide (system ≠ "")
              then msgs ++ [mkMessage RoleSystem system "" None]
              else msgs in
            Some (msgs ++ [mkMessage RoleUser user "" None;
                           mkMessage RoleAssistant assistant "" None])
        else Some msgs in
      match built with
      | None => inl ImportMissingMessages
      | Some msgs =>
          match importMessages 0 msgs with
          | inl err => inl err
          | inr msgs =>
              inr (mkConversation 0 datasetID split status tags source notes
                     msgs)
          end
      end.

End Normalize.

(** A message as the normalisers leave it: a known role, content and name
    trimmed, a meta value. *)
Definition normalizedMessage (m : Message) : Prop :=
  knownRole (Role_ m) ∧ TrimSpace (Content m) = Content m
  ∧ TrimSpace (Name m) = Name m ∧ Meta m ≠ None.

(** The values the schema accepts for a split and for a status. *)
Definition knownSplit (s : string) : Prop :=
  s = SplitTrain ∨ s = SplitValid ∨ s = SplitTest.

Definition knownStatus (s : string) : Prop :=
  s = ConversationStatusDraft ∨ s = ConversationStatusPending
  ∨ s = ConversationStatusApproved ∨ s = ConversationStatusRejected
  ∨ s = ConversationStatusArchived.

(** The request that submits a conversation again. *)
Definition upsertRequestOf (c : Conversation) : upsertConversationRequest.t :=
  upsertConversationRequest.mk (ConvDatasetID c) (ConvSplit c) (ConvStatus c)
    (Tags c) (Source c) (Notes c) (Messages c).

(* ===================================================================== *)
(** ** The export handler (handleExportJSONL) *)
(* ===================================================================== *)

(** What the handler sends: an error object with its status code, written
    before any header of the stream, or the stream itself, with the error
    [StreamExport] returned after the headers were set ([None] for a stream
    that ended well). *)
Inductive Response : Type :=
  | JSONError (code : Z) (msg : string)
  | Streamed (lines : list Line) (failure : option error).

Definition handleExportJSONL (db : DB) (q : gmap string (list string))
  : Response :=
  let opts := handlerOptions q in
  let stream :=
    let '(lines, err) := StreamExport db opts in Streamed lines err in
  if decide ((Type_ opts = "items" ∨ Type_ opts = "items_with_meta")
             ∧ DatasetID opts <= 0)
  then JSONError 400 "dataset_id is required for items exports"
  else if decide (DatasetID opts > 0) then
    match GetDataset db (DatasetID opts) with
    | inl ErrNotFound => JSONError 404 "dataset not found"
    | inl _ => JSONError 500 "failed to load dataset"
    | inr ds =>
        if EqualFold_items (Kind ds) then
          if decide (Type_ opts = "conversations")
          then JSONError 400
                 "type=conversations is not valid for items datasets"
          else stream
        else
          if decide (Type_ opts = "items" ∨ Type_ opts = "items_with_meta")
          then JSONError 400
                 "items export types are only valid for items datasets"
          else stream
    end
  else stream.

(** The four types the engine knows. *)
Definition knownType (t : string) : Prop :=
  t = "pairs" ∨ t = "conversations" ∨ t = "items" ∨ t = "items_with_meta".


(* ===================================================================== *)
(** ** The importer's helpers (parseTags, filepathBase) *)
(* ===================================================================== *)

(** [strings.Split(s, sep)] for a separator of one byte: the parts between
    the separators, one more than there are separators. *)
Fixpoint SplitByte (sep : ascii) (s : string) : list string :=
  match s with
  | EmptyString => [""]
  | String c t =>
      if decide (c = sep) then "" :: SplitByte sep t
      else match SplitByte sep t with
           | part :: parts => String c part :: parts
           | [] => [String c ""]
           end
  end.

Definition comma : ascii := ascii_of_N 44.
Definition slash : ascii := ascii_of_N 47.
Definition backslash : ascii := ascii_of_N 92.

Section ParseTags.

Variable ToLower : string -> string.

(** The loop of [parseTags] over the parts, with the map [seen] and the
    slice [out]. *)
Fixpoint parseTags_loop (parts : list string) (seen : gmap string bool)
  (out : list string) : list string :=
  match parts with
  | [] => out
  | p :: rest =>
      let t := TrimSpace p in
      if decide (t = "") then parseTags_loop rest seen out
      else
        let key := ToLower t in
        if default false (seen !! key) then parseTags_loop rest seen out
        else parseTags_loop rest (<[key := true]> seen) (out ++ [t])
  end.

Definition parseTags (s : string) : list string :=
  if decide (TrimSpace s = "") then []
  else parseTags_loop (SplitByte comma s) ∅ [].

End ParseTags.

(** [strings.ReplaceAll(p, old, new)] for [old] and [new] of one byte. *)
Fixpoint ReplaceAllByte (old new : ascii) (s : string) : string :=
  match s with
  | EmptyString => EmptyString
  | String c t =>
      String (if decide (c = old) then new else c) (ReplaceAllByte old new t)
  end.

(** [strings.LastIndex(s, sep)] for [sep] of one byte; [-1] when absent. *)
Fixpoint LastIndexByte (s : string) (sep : ascii) : Z :=
  match s with
  | EmptyString => -1
  | String c t =>
      let i := LastIndexByte t sep in
      if decide (i >= 0) then i + 1
      else if decide (c = sep) then 0 else -1
  end.

(** [s[n:]]. *)
Fixpoint sliceFrom (s : string) (n : nat) : string :=
  match n, s with
  | O, _ => s
  | S n, String _ t => sliceFrom t n
  | S _, EmptyString => EmptyString
  end.

Definition filepathBase (p : string) : string :=
  let p := ReplaceAllByte backslash slash p in
  let i := LastIndexByte p slash in
  if decide (i >= 0) then sliceFrom p (Z.to_nat (i + 1)) else p.

(** The bytes of a string. *)
Fixpoint bytes (s : string) : list ascii :=
  match s with
  | EmptyString => []
  | String c t => c :: bytes t
  end.

(* ===================================================================== *)
(** ** What the deriver reads of a message *)
(* ===================================================================== *)

(** Two messages with the same role and the same trimmed content. *)
Definition sameTurn (a b : Message) : Prop :=
  Role_ a = Role_ b ∧ TrimSpace (Content a) = TrimSpace (Content b).

(** What [InsertConversationWithMessages] and [UpdateConversation] store of
    a message: the name and the content trimmed, an empty meta replaced. *)
Definition storedMessage (m : Message) : Message :=
  mkMessage (Role_ m) (TrimSpace (Content m)) (TrimSpace (Name m))
    (defaultMeta (Meta m)).

(** A message that is not a system message. *)
Definition notSystem (m : Message) : Prop := Role_ m ≠ RoleSystem.

Global Instance notSystem_dec (m : Message) : Decision (notSystem m) :=
  decide (Role_ m ≠ RoleSystem).

(** The first loop of [renderContext] seen from the user message backward:
    of the messages [rl], nearest first, those the loop walks over, the one
    it stops at included. *)
Fixpoint windowRev (contextTurns : Z) (rl : list Message) (turns : Z)
  : list Message :=
  match rl with
  | [] => []
  | m :: rest =>
      if decide (Role_ m = RoleUser) then
        let turns := turns + 1 in
        if decide (turns >= contextTurns) then [m]
        else m :: windowRev contextTurns rest turns
      else m :: windowRev contextTurns rest turns
  end.

(** What the body of the loop of [derivePairs] computes for an assistant
    message that comes right after [msgs]: the previous user message and the
    prompt for it; [Some None] is the [continue] on [userIdx < 0]. *)
Definition lastPrompt (msgs : list Message) (opts : ExportOptions)
  (contextMode roleStyle : string) : option (option string) :=
  userIdx ← findPrevRole_from msgs RoleUser (length msgs);
  if decide (userIdx < 0) then Some None
  else
    prompt ← promptFor msgs opts contextMode roleStyle userIdx;
    Some (Some prompt).

(** A pair line with both sides filled; every other line. *)
Definition pairLineFilled (l : Line) : Prop :=
  match l with
  | PairLine p => User p ≠ "" ∧ Assistant p ≠ ""
  | _ => True
  end.

(* ===================================================================== *)
(** ** Reading one conversation (conversations_store.go) *)
(* ===================================================================== *)

(** [s[:n]]. *)
Fixpoint sliceTo (s : string) (n : nat) : string :=
  match n, s with
  | O, _ => EmptyString
  | S n, String c t => String c (sliceTo t n)
  | S _, EmptyString => EmptyString
  end.

(** A conversation with the fields [GetConversation] computes from its
    messages. *)
Record ConversationDetail : Type := mkConversationDetail {
  Conv : Conversation;
  MessageCount : Z;
  PreviewUser : string;
  PreviewAssistant : string
}.

(** The body of the loop [for _, m := range msgs] of [GetConversation] on
    the two previews. *)
Definition previewStep (p : string * string) (m : Message) : string * string :=
  let previewUser :=
    if decide (p.1 = "" ∧ Role_ m = RoleUser) then TrimSpace (Content m)
    else p.1 in
  let previewAssistant :=
    if decide (p.2 = "" ∧ Role_ m = RoleAssistant) then TrimSpace (Content m)
    else p.2 in
  (previewUser, previewAssistant).

(** [if len(s) > 160 { s = s[:160] }]. *)
Definition clip160 (s : string) : string :=
  if decide (len s > 160) then sliceTo s 160 else s.

Definition GetConversation (db : DB) (id : Z) : error + ConversationDetail :=
  match List.find (fun c => bool_decide (ConvID c = id)) (conversations db) with
  | None => inl ErrNotFound
  | Some c =>
      let msgs := Messages c in
      let p := foldl previewStep ("", "") msgs in
      inr (mkConversationDetail c (Z.of_nat (length msgs))
             (clip160 p.1) (clip160 p.2))
  end.

(** The trimmed content of the first message of a role whose content is not
    blank; empty when there is none. *)
Definition firstContent (role : Role) (msgs : list Message) : string :=
  match list_find (fun m => Role_ m = role ∧ TrimSpace (Content m) ≠ "") msgs
  with
  | Some (_, m) => TrimSpace (Content m)
  | None => ""
  end.

(* ===================================================================== *)
(** ** More sample inputs *)
(* ===================================================================== *)

Definition sampleUpsert : upsertConversationRequest.t :=
  upsertConversationRequest.mk 1 " Train " "" ["t"] " src " ""
    [user " Q "; assistant "R "].

Definition sampleAccepted : Conversation :=
  mkConversation 0 1 "train" "approved" ["t"] "src" ""
    [mkMessage RoleUser "Q" "" (Some emptyObject);
     mkMessage RoleAssistant "R" "" (Some emptyObject)].

Definition sampleProposal : createProposalRequest.t :=
  createProposalRequest.mk 1 "" [] "" "" [] " Q " " R " " S ".

Definition sampleProposed : Conversation :=
  mkConversation 0 1 "train" "pending" [] "" ""
    [mkMessage RoleSystem "S" "" (Some emptyObject);
     mkMessage RoleUser "Q" "" (Some emptyObject);
     mkMessage RoleAssistant "R" "" (Some emptyObject)].

Definition sampleImport : importConversation.t :=
  importConversation.mk "VALID" "" [] "" "" [user "Q"; assistant " R"]
    "" "" "".

Definition sampleImported : Conversation :=
  mkConversation 0 3 "valid" "approved" ["x"] "file" ""
    [mkMessage RoleUser "Q" "" (Some emptyObject);
     mkMessage RoleAssistant "R" "" (Some emptyObject)].


Definition csvQuery : gmap string (list string) := <["type" := ["csv"]]> ∅.

Definition annotatedTurns : list Message :=
  [mkMessage RoleUser " Q " "ann" (Some emptyObject); assistant "R "].

Definition blankFirst : DB :=
  mkDB [] [conv 5 [user "  "; assistant "A"; user " q "; assistant "B"]] [].

(* ===================================================================== *)
(** ** Indexing and ranges *)
(* ===================================================================== *)

Section Indexing.
Context {A : Type}.
Implicit Types (s : list A).

Lemma index_of_nat s (n : nat) : index s (Z.of_nat n) = s !! n.
Proof.
  unfold index. destruct (decide (0 <= Z.of_nat n)); [by rewrite Nat2Z.id | lia].
Qed.

Lemma index_Some s (i : Z) (x : A) :
  index s i = Some x -> 0 <= i < Z.of_nat (length s).
Proof.
  unfold index. destruct (decide (0 <= i)); [|done].
  intros Hx%lookup_lt_Some. lia.
Qed.

End Indexing.

Lemma range_of_nat (lo n : nat) :
  range (Z.of_nat lo) (Z.of_nat lo + Z.of_nat n - 1) = Z.of_nat <$> seq lo n.
Proof.
  unfold range.
  replace (Z.to_nat (Z.of_nat lo + Z.of_nat n - 1 + 1 - Z.of_nat lo)) with n by lia.
  replace (seq lo n) with (seq (lo + 0) n) by (f_equal; lia).
  rewrite <- (fmap_add_seq lo 0 n), <- list_fmap_compose.
  apply list_fmap_ext. intros _ k _. simpl. lia.
Qed.

Lemma range_empty (lo hi : Z) : hi < lo -> range lo hi = [].
Proof. intros. unfold range. by replace (Z.to_nat (hi + 1 - lo)) with 0%nat by lia. Qed.

(* ===================================================================== *)
(** ** The backward scan for the previous user message *)
(* ===================================================================== *)

Lemma nearestPrecedingUser_S msgs (n : nat) m :
  msgs !! n = Some m ->
  Spec.nearestPrecedingUser msgs (S n) =
    if decide (Spec.isUser m) then Some m
    else Spec.nearestPrecedingUser msgs n.
Proof.
  intros Hm. unfold Spec.nearestPrecedingUser.
  rewrite (take_S_r _ _ _ Hm), filter_app.
  destruct (decide (Spec.isUser m)) as [Hu|Hu].
  - rewrite (filter_cons_True _ _ _ Hu), filter_nil. apply last_snoc.
  - rewrite (filter_cons_False _ _ _ Hu), filter_nil. by rewrite app_nil_r.
Qed.

(** The scan returns the position of the nearest preceding user message, or
    [-1] when there is none; it never indexes out of range. *)
Lemma findPrevRole_from_spec msgs (n : nat) :
  (n <= length msgs)%nat ->
  exists j : Z,
    findPrevRole_from msgs RoleUser n = Some j
    /\ match Spec.nearestPrecedingUser msgs n with
       | Some u => 0 <= j < Z.of_nat n /\ index msgs j = Some u
       | None => j = -1
       end.
Proof.
  induction n as [|n IH]; intros Hn.
  - exists (-1). split; [done|]. unfold Spec.nearestPrecedingUser.
    by rewrite take_0.
  - destruct (lookup_lt_is_Some_2 msgs n) as [m Hm]; [lia|].
    cbn [findPrevRole_from]. rewrite Hm. cbn.
    rewrite (nearestPrecedingUser_S _ _ _ Hm). unfold Spec.isUser.
    destruct (decide (Role_ m = RoleUser)) as [Hu|Hu].
    + exists (Z.of_nat n). split; [done|]. split; [lia|].
      by rewrite index_of_nat.
    + destruct IH as (j & Hj & Hspec); [lia|].
      exists j. split; [done|].
      destruct (Spec.nearestPrecedingUser msgs n); [|done].
      destruct Hspec; split; [lia|done].
Qed.

Lemma nearestPrecedingUser_isUser msgs n u :
  Spec.nearestPrecedingUser msgs n = Some u -> Spec.isUser u.
Proof.
  unfold Spec.nearestPrecedingUser. intros H%last_Some_elem_of.
  by apply list_elem_of_filter in H as [? _].
Qed.

(* ===================================================================== *)
(** ** Strings and the builder *)
(* ===================================================================== *)

Lemma append_cons (x : ascii) (a b : string) :
  String x a +:+ b = String x (a +:+ b).
Proof. reflexivity. Qed.

Lemma append_assoc (a b c : string) : (a +:+ b) +:+ c = a +:+ (b +:+ c).
Proof. induction a as [|x a IH]; [done|]. by rewrite !append_cons, IH. Qed.

Lemma append_eq_nil (a b : string) : a +:+ b = "" -> a = "" /\ b = "".
Proof. destruct a; [done|]. by rewrite append_cons. Qed.

Lemma len_pos (b : string) : len b > 0 <-> b ≠ "".
Proof. unfold len. destruct b; cbn; split; try done; lia. Qed.

Lemma Join_snoc (l : list string) (x sep : string) :
  Join (l ++ [x]) sep =
    match l with [] => x | _ => Join l sep +:+ sep +:+ x end.
Proof.
  induction l as [|y l IH]; [done|].
  destruct l as [|z l]; [done|].
  change (Join ((y :: z :: l) ++ [x]) sep)
    with (y +:+ sep +:+ Join ((z :: l) ++ [x]) sep).
  rewrite IH.
  change (Join (y :: z :: l) sep) with (y +:+ sep +:+ Join (z :: l) sep).
  by rewrite !append_assoc.
Qed.

Lemma Join_eq_nil (l : list string) (sep : string) :
  Forall (fun x => x ≠ "") l -> Join l sep = "" -> l = [].
Proof.
  destruct l as [|x l]; [done|]. intros Hne%Forall_cons_1 HJ. destruct Hne as [Hx _].
  destruct l; [done|].
  change (Join (x :: s :: l) sep) with (x +:+ sep +:+ Join (s :: l) sep) in HJ.
  by apply append_eq_nil in HJ as [? _].
Qed.

Lemma roleLabel_label (r : Role) : roleLabel r = Spec.label r.
Proof.
  unfold roleLabel, Spec.label.
  repeat (case_decide; subst; try done).
Qed.

Lemma line_nonempty inc rs m : Spec.retained inc m -> Spec.line rs m ≠ "".
Proof.
  intros [_ Hc]. unfold Spec.line. case_decide; [done|].
  intros [_ ?]%append_eq_nil. done.
Qed.

(** One iteration of the rendering loop, on a builder that holds the lines
    written so far. *)
Lemma renderStep_Join inc rs m (lines : list string) :
  Forall (fun x => x ≠ "") lines ->
  renderStep inc rs m (Join lines newline) =
    Join (lines ++ (Spec.line rs <$> filter (Spec.retained inc) [m])) newline.
Proof.
  intros Hne. unfold renderStep.
  destruct (decide (Spec.retained inc m)) as [Hr|Hr].
  - rewrite (filter_cons_True _ _ _ Hr), filter_nil. cbn [fmap list_fmap].
    rewrite Join_snoc. destruct Hr as [Hs Hc].
    assert (bool_decide (Role_ m = RoleSystem) && negb inc = false) as ->.
    { destruct inc; [by rewrite andb_false_r|].
      rewrite andb_true_r. apply bool_decide_eq_false. intros Hsys.
      by specialize (Hs Hsys). }
    rewrite decide_False by done.
    unfold Spec.line. rewrite roleLabel_label.
    destruct lines as [|l0 lines].
    + cbn [Join]. rewrite (decide_False (P := len "" > 0)) by done.
      by destruct (decide (rs = "plain")).
    + rewrite (decide_True (P := len _ > 0)).
      2:{ apply len_pos. intros HJ. by apply Join_eq_nil in HJ. }
      destruct (decide (rs = "plain")); by rewrite !append_assoc.
  - rewrite (filter_cons_False _ _ _ Hr), filter_nil. cbn [fmap list_fmap].
    rewrite app_nil_r.
    destruct (bool_decide (Role_ m = RoleSystem) && negb inc) eqn:Hb; [done|].
    destruct (decide (TrimSpace (Content m) = "")) as [|Hc]; [done|].
    exfalso. apply Hr. split; [|done].
    intros Hsys. destruct inc; [done|].
    by rewrite andb_true_r, bool_decide_eq_false in Hb.
Qed.

Lemma render_foldl inc rs (turns : list Message) (lines : list string) :
  Forall (fun x => x ≠ "") lines ->
  foldl (fun b m => renderStep inc rs m b) (Join lines newline) turns =
    Join (lines ++ (Spec.line rs <$> filter (Spec.retained inc) turns)) newline.
Proof.
  revert lines. induction turns as [|m turns IH]; intros lines Hne.
  - by rewrite filter_nil, app_nil_r.
  - cbn [foldl]. rewrite renderStep_Join by done.
    rewrite IH.
    + rewrite <- app_assoc, <- fmap_app, <- filter_app. done.
    + apply Forall_app. split; [done|].
      apply Forall_fmap, Forall_forall. intros x [Hx _]%list_elem_of_filter.
      by eapply line_nonempty.
Qed.

(** The rendering loop over positions [lo .. lo+n-1] folds the step over
    the messages at these positions and stays in range. *)
Lemma renderLoop_foldl msgs inc rs (lo n : nat) (b : string) :
  (lo + n <= length msgs)%nat ->
  renderLoop msgs inc rs (Z.of_nat <$> seq lo n) b =
    Some (foldl (fun b m => renderStep inc rs m b) b (take n (drop lo msgs))).
Proof.
  revert lo b. induction n as [|n IH]; intros lo b Hn; [done|].
  destruct (lookup_lt_is_Some_2 msgs lo) as [m Hm]; [lia|].
  cbn [seq fmap list_fmap renderLoop]. rewrite index_of_nat, Hm. cbn [mbind option_bind].
  rewrite (drop_S _ _ _ Hm). cbn [take foldl].
  apply IH. lia.
Qed.

Lemma renderLoop_render msgs inc rs (start upto : nat) :
  (start <= upto < length msgs)%nat ->
  renderLoop msgs inc rs (range (Z.of_nat start) (Z.of_nat upto)) "" =
    Some (Spec.render inc rs (Spec.slice msgs start upto)).
Proof.
  intros H.
  replace (Z.of_nat upto)
    with (Z.of_nat start + Z.of_nat (S upto - start) - 1) by lia.
  rewrite range_of_nat, renderLoop_foldl by lia.
  f_equal. apply (render_foldl inc rs _ []). constructor.
Qed.

(* ===================================================================== *)
(** ** The window *)
(* ===================================================================== *)

Lemma userAt_lookup msgs (j : nat) m :
  msgs !! j = Some m -> Spec.userAt msgs j <-> Role_ m = RoleUser.
Proof.
  intros Hm. unfold Spec.userAt. rewrite Hm. cbn. split; congruence.
Qed.

Lemma userPositions_S msgs (n : nat) m :
  msgs !! n = Some m ->
  reverse (filter (Spec.userAt msgs) (seq 0 (S n))) =
    (if decide (Role_ m = RoleUser) then [n] else [])
    ++ reverse (filter (Spec.userAt msgs) (seq 0 n)).
Proof.
  intros Hm. rewrite seq_S, filter_app, reverse_app. f_equal. cbn [Nat.add].
  destruct (decide (Role_ m = RoleUser)) as [Hu|Hu].
  - rewrite filter_cons_True by (by apply (userAt_lookup _ _ _ Hm)). done.
  - rewrite filter_cons_False by (by rewrite (userAt_lookup _ _ _ Hm)). done.
Qed.

(** The backward count stops at the user message that brings the count to
    [contextTurns], or runs off the front of the list. *)
Lemma windowScan_spec msgs (k : Z) (n : nat) (turns : Z) :
  (n <= length msgs)%nat -> 0 <= turns < k ->
  windowScan msgs k n turns =
    Some (match reverse (filter (Spec.userAt msgs) (seq 0 n))
                !! Z.to_nat (k - turns - 1) with
          | Some j => Z.of_nat j
          | None => -1
          end).
Proof.
  revert turns. induction n as [|n IH]; intros turns Hn Ht; [done|].
  destruct (lookup_lt_is_Some_2 msgs n) as [m Hm]; [lia|].
  cbn [windowScan]. rewrite Hm. cbn [mbind option_bind].
  rewrite (userPositions_S _ _ _ Hm).
  destruct (decide (Role_ m = RoleUser)) as [Hu|Hu].
  - destruct (decide (turns + 1 >= k)) as [Hk|Hk].
    + by replace (Z.to_nat (k - turns - 1)) with 0%nat by lia.
    + rewrite IH by lia.
      replace (Z.to_nat (k - turns - 1))
        with (S (Z.to_nat (k - (turns + 1) - 1))) by lia.
      done.
  - by rewrite IH by lia.
Qed.

Lemma userPositions_bound msgs (upto j : nat) :
  j ∈ Spec.userPositions msgs upto -> (j <= upto)%nat.
Proof.
  unfold Spec.userPositions. intros [_ Hj]%list_elem_of_filter.
  apply elem_of_seq in Hj. lia.
Qed.

Lemma rangeStart_bound msgs (upto k : nat) :
  (Spec.rangeStart msgs upto k <= upto)%nat.
Proof.
  unfold Spec.rangeStart. case_decide; [lia|].
  destruct (reverse (Spec.userPositions msgs upto) !! (k - 1)%nat) as [j|] eqn:Hj;
    cbn; [|lia].
  apply list_elem_of_lookup_2 in Hj. rewrite elem_of_reverse in Hj.
  by eapply userPositions_bound.
Qed.

Lemma windowStart_spec msgs (upto : nat) (k : Z) :
  (upto < length msgs)%nat ->
  windowStart msgs (Z.of_nat upto) k =
    Some (Z.of_nat (Spec.rangeStart msgs upto (Z.to_nat k))).
Proof.
  intros Hup. unfold windowStart, Spec.rangeStart, Spec.userPositions.
  destruct (decide (k > 0)) as [Hk|Hk].
  - replace (Z.to_nat (Z.of_nat upto + 1)) with (S upto) by lia.
    rewrite windowScan_spec by lia. cbn [mbind option_bind].
    replace (Z.to_nat (k - 0 - 1)) with (Z.to_nat k - 1)%nat by lia.
    set (R := reverse (filter (Spec.userAt msgs) (seq 0 (S upto)))).
    assert (length R = length (filter (Spec.userAt msgs) (seq 0 (S upto))))
      as HR by apply length_reverse.
    destruct (R !! (Z.to_nat k - 1)%nat) as [j|] eqn:Hj.
    + apply lookup_lt_Some in Hj as Hlt.
      rewrite (decide_False (P := _ ∨ _)) by lia. cbn. f_equal.
      destruct (decide (Z.of_nat j > 0)); lia.
    + apply lookup_ge_None in Hj.
      destruct (decide (Z.to_nat k = 0%nat ∨ _)); [done|]. lia.
  - rewrite decide_True; [done|]. left. lia.
Qed.

(** [renderContext] agrees with the reference definition and does not index
    out of range when [userIdx] is a position of the list. *)
Lemma renderContext_spec msgs (upto : nat) inc (k : Z) rs :
  (upto < length msgs)%nat ->
  renderContext msgs (Z.of_nat upto) inc k rs =
    Some (Spec.renderContext msgs upto inc (Z.to_nat k) rs).
Proof.
  intros Hup. unfold renderContext, Spec.renderContext.
  rewrite windowStart_spec by done. cbn [mbind option_bind].
  apply renderLoop_render. pose proof (rangeStart_bound msgs upto (Z.to_nat k)). lia.
Qed.

(* ===================================================================== *)
(** ** The pair deriver *)
(* ===================================================================== *)

(** The position found by the backward scan is the paired one. *)
Lemma findPrevRole_from_paired msgs (n u : nat) :
  findPrevRole_from msgs RoleUser n = Some (Z.of_nat u) ->
  Spec.pairedWith msgs n u.
Proof.
  induction n as [|n IH]; [intros [= Heq]; lia|].
  cbn [findPrevRole_from].
  destruct (msgs !! n) as [m|] eqn:Hm; [|done]. cbn [mbind option_bind].
  destruct (decide (Role_ m = RoleUser)) as [Hu|Hu].
  - intros [= Heq]. apply Nat2Z.inj in Heq as <-.
    split; [lia|]. split; [by apply (userAt_lookup _ _ _ Hm)|]. lia.
  - intros (Hlt & Hat & Hno)%IH. split; [lia|]. split; [done|].
    intros j Hj. destruct (decide (j = n)) as [->|].
    + by rewrite (userAt_lookup _ _ _ Hm).
    + apply Hno. lia.
Qed.

(** The reference's nearest preceding user message sits at the paired
    position. *)
Lemma nearestPrecedingUser_paired msgs (n : nat) u :
  (n <= length msgs)%nat ->
  Spec.nearestPrecedingUser msgs n = Some u ->
  exists j : nat, Spec.pairedWith msgs n j /\ msgs !! j = Some u.
Proof.
  intros Hn Hu.
  destruct (findPrevRole_from_spec msgs n Hn) as (j & Hj & Hspec).
  rewrite Hu in Hspec. destruct Hspec as [Hrange Hidx].
  exists (Z.to_nat j). split.
  - apply findPrevRole_from_paired. by rewrite Z2Nat.id by lia.
  - unfold index in Hidx. by rewrite decide_True in Hidx by lia.
Qed.

Lemma findPrevRole_spec msgs (i : nat) :
  (i < length msgs)%nat ->
  exists j : Z,
    findPrevRole msgs (Z.of_nat i - 1) RoleUser = Some j
    /\ match Spec.nearestPrecedingUser msgs i with
       | Some u => 0 <= j < Z.of_nat i /\ index msgs j = Some u
       | None => j = -1
       end.
Proof.
  intros Hi. unfold findPrevRole.
  replace (Z.to_nat (Z.of_nat i - 1 + 1)) with i by lia.
  apply findPrevRole_from_spec. lia.
Qed.

(** With a context mode other than window and full the prompt is the
    trimmed content of the user message. *)
Lemma promptFor_none msgs opts cm rs (userIdx : Z) :
  cm ≠ "window" -> cm ≠ "full" ->
  promptFor msgs opts cm rs userIdx =
    (m ← index msgs userIdx; Some (TrimSpace (Content m))).
Proof.
  intros. unfold promptFor. by repeat case_decide.
Qed.

Lemma derivePairs_step_none msgs opts cm rs (i : nat) pairs :
  cm ≠ "window" -> cm ≠ "full" -> (i < length msgs)%nat ->
  derivePairs_step msgs opts cm rs (Z.of_nat i) pairs =
    Some (pairs ++ Spec.pairAt msgs i).
Proof.
  intros Hw Hf Hi. unfold derivePairs_step, Spec.pairAt.
  destruct (lookup_lt_is_Some_2 msgs i) as [m Hm]; [lia|].
  rewrite index_of_nat, Hm. cbn [mbind option_bind]. unfold Spec.answers.
  destruct (decide (Role_ m ≠ RoleAssistant)) as [Hr|Hr].
  { rewrite decide_False by (intros [? _]; done). by rewrite app_nil_r. }
  apply dec_stable in Hr.
  destruct (decide (TrimSpace (Content m) = "")) as [Hc|Hc].
  { rewrite decide_False by (intros [_ ?]; done). by rewrite app_nil_r. }
  rewrite decide_True by done.
  destruct (findPrevRole_spec msgs i Hi) as (j & -> & Hj). cbn [mbind option_bind].
  destruct (Spec.nearestPrecedingUser msgs i) as [u|].
  - destruct Hj as [Hj Hu]. rewrite decide_False by lia.
    rewrite promptFor_none, Hu by done. cbn [mbind option_bind].
    by destruct (decide (TrimSpace (Content u) = "")); [rewrite app_nil_r|].
  - subst j. rewrite decide_True by lia. by rewrite app_nil_r.
Qed.

Lemma derivePairs_loop_none msgs opts cm rs (lo n : nat) pairs :
  cm ≠ "window" -> cm ≠ "full" -> (lo + n <= length msgs)%nat ->
  derivePairs_loop msgs opts cm rs (Z.of_nat <$> seq lo n) pairs =
    Some (pairs ++ flat_map (Spec.pairAt msgs) (seq lo n)).
Proof.
  intros Hw Hf. revert lo pairs.
  induction n as [|n IH]; intros lo pairs Hn.
  - by rewrite app_nil_r.
  - cbn [seq fmap list_fmap derivePairs_loop flat_map].
    rewrite derivePairs_step_none by (done || lia). cbn [mbind option_bind].
    rewrite IH by lia. by rewrite app_assoc.
Qed.

Lemma derivePairs_indices (msgs : list Message) :
  range 0 (Z.of_nat (length msgs) - 1) = Z.of_nat <$> seq 0 (length msgs).
Proof. apply (range_of_nat 0 (length msgs)). Qed.

(** Every context mode but window and full derives the pairs of
    [context=none]. *)
Lemma derivePairs_none_like msgs opts :
  Context opts ≠ "window" -> Context opts ≠ "full" ->
  derivePairs msgs opts = Some (Spec.pairsNone msgs).
Proof.
  intros Hw Hf. unfold derivePairs. rewrite derivePairs_indices.
  rewrite derivePairs_loop_none; [done| | |done].
  all: by destruct (decide (Context opts = "")).
Qed.

(** The prompt of every context mode, for a user position of the list. *)
Lemma promptFor_spec msgs opts cm rs (u : nat) mu :
  msgs !! u = Some mu ->
  promptFor msgs opts cm rs (Z.of_nat u) =
    Some (if decide (cm = "window") then
            Spec.renderContext msgs u (IncludeSystem opts)
              (Z.to_nat (ContextTurns opts)) rs
          else if decide (cm = "full") then
            Spec.renderContext msgs u (IncludeSystem opts) 0 rs
          else TrimSpace (Content mu)).
Proof.
  intros Hu. apply lookup_lt_Some in Hu as Hlt. unfold promptFor.
  rewrite index_of_nat, Hu. cbn [mbind option_bind].
  destruct (decide (cm = "none")) as [->|]; [done|].
  destruct (decide (cm = "window")); [by apply renderContext_spec|].
  destruct (decide (cm = "full")); [|done].
  by rewrite (renderContext_spec _ _ _ 0).
Qed.

(** What one iteration of [derivePairs] appends: nothing, or one pair made
    of the prompt for the paired user position and the trimmed answer. *)
Lemma derivePairs_step_inv msgs opts cm rs (i : nat) pairs :
  (i < length msgs)%nat ->
  exists new : list ExportPair,
    derivePairs_step msgs opts cm rs (Z.of_nat i) pairs = Some (pairs ++ new)
    /\ forall p, p ∈ new ->
       exists (m : Message) (u : nat),
         msgs !! i = Some m /\ Spec.answers m /\ Spec.pairedWith msgs i u
         /\ promptFor msgs opts cm rs (Z.of_nat u) = Some (User p)
         /\ User p ≠ "" /\ Assistant p = TrimSpace (Content m).
Proof.
  intros Hi. unfold derivePairs_step.
  destruct (lookup_lt_is_Some_2 msgs i) as [m Hm]; [lia|].
  rewrite index_of_nat, Hm. cbn [mbind option_bind].
  assert (forall P : ExportPair -> Prop, forall p, p ∈ @nil ExportPair -> P p)
    as Hnil by (intros P p Hp; by apply elem_of_nil in Hp).
  destruct (decide (Role_ m ≠ RoleAssistant)) as [Hr|Hr].
  { exists []. rewrite app_nil_r. split; [done|apply Hnil]. }
  apply dec_stable in Hr.
  destruct (decide (TrimSpace (Content m) = "")) as [Hc|Hc].
  { exists []. rewrite app_nil_r. split; [done|apply Hnil]. }
  unfold findPrevRole.
  replace (Z.to_nat (Z.of_nat i - 1 + 1)) with i by lia.
  destruct (findPrevRole_from_spec msgs i) as (j & Hj & Hnear); [lia|].
  rewrite Hj. cbn [mbind option_bind].
  destruct (decide (j < 0)) as [Hneg|Hneg].
  { exists []. rewrite app_nil_r. split; [done|apply Hnil]. }
  assert (j = Z.of_nat (Z.to_nat j)) as Hjn by lia.
  rewrite Hjn in Hj. apply findPrevRole_from_paired in Hj as Hpaired.
  destruct (lookup_lt_is_Some_2 msgs (Z.to_nat j)) as [mu Hmu].
  { destruct Hpaired. lia. }
  rewrite Hjn, (promptFor_spec _ _ _ _ _ _ Hmu). cbn [mbind option_bind].
  match goal with |- context [decide (?x = "")] => set (prompt := x) end.
  destruct (decide (prompt = "")) as [Hp|Hp].
  { exists []. rewrite app_nil_r. split; [done|apply Hnil]. }
  exists [mkExportPair prompt (TrimSpace (Content m))]. split; [done|].
  intros p ->%list_elem_of_singleton. exists m, (Z.to_nat j).
  rewrite (promptFor_spec _ _ _ _ _ _ Hmu).
  split; [done|]. split; [done|]. split; [done|]. by split.
Qed.

Lemma derivePairs_loop_inv msgs opts cm rs (lo n : nat) pairs :
  (lo + n <= length msgs)%nat ->
  exists new : list ExportPair,
    derivePairs_loop msgs opts cm rs (Z.of_nat <$> seq lo n) pairs
      = Some (pairs ++ new)
    /\ forall p, p ∈ new ->
       exists (i : nat) (m : Message) (u : nat),
         msgs !! i = Some m /\ Spec.answers m /\ Spec.pairedWith msgs i u
         /\ promptFor msgs opts cm rs (Z.of_nat u) = Some (User p)
         /\ User p ≠ "" /\ Assistant p = TrimSpace (Content m).
Proof.
  revert lo pairs. induction n as [|n IH]; intros lo pairs Hn.
  - exists []. rewrite app_nil_r. split; [done|].
    intros p Hp. by apply elem_of_nil in Hp.
  - cbn [seq fmap list_fmap derivePairs_loop].
    destruct (derivePairs_step_inv msgs opts cm rs lo pairs) as (new1 & -> & H1);
      [lia|].
    cbn [mbind option_bind].
    destruct (IH (S lo) (pairs ++ new1)) as (new2 & -> & H2); [lia|].
    exists (new1 ++ new2). rewrite app_assoc. split; [done|].
    intros p [Hp|Hp]%elem_of_app; [|by apply H2].
    exists lo. by apply H1.
Qed.

(** The user turns of a range that starts at the [S t]-th user position
    counting backward (or at the front when there are fewer). *)
Lemma userTurns_window msgs (n t : nat) :
  (n <= length msgs)%nat ->
  let s := default 0%nat
             (reverse (filter (Spec.userAt msgs) (seq 0 n)) !! t) in
  (s <= n)%nat
  /\ (Spec.userTurns (take (n - s) (drop s msgs)) <= S t)%nat.
Proof.
  revert t. induction n as [|n IH]; intros t Hn.
  - cbn [seq]. rewrite filter_nil, reverse_nil, lookup_nil. cbn.
    split; [lia|]. unfold Spec.userTurns. rewrite take_0, filter_nil. cbn. lia.
  - destruct (lookup_lt_is_Some_2 msgs n) as [m Hm]; [lia|].
    rewrite (userPositions_S _ _ _ Hm).
    assert (forall s, (s <= n)%nat ->
              take (S n - s) (drop s msgs)
              = take (n - s) (drop s msgs) ++ [m]) as Hsnoc.
    { intros s Hs. replace (S n - s)%nat with (S (n - s)) by lia.
      apply take_S_r. rewrite lookup_drop.
      by replace (s + (n - s))%nat with n by lia. }
    assert (forall l, Spec.userTurns (l ++ [m])
              = (Spec.userTurns l
                 + if decide (Role_ m = RoleUser) then 1 else 0)%nat) as Hcount.
    { intros l. unfold Spec.userTurns. rewrite filter_app, length_app.
      f_equal.
      destruct (decide (Role_ m = RoleUser)) as [Hu|Hu].
      - by rewrite (filter_cons_True Spec.isUser).
      - by rewrite (filter_cons_False Spec.isUser). }
    destruct (decide (Role_ m = RoleUser)) as [Hu|Hu].
    + cbn [app]. rewrite lookup_cons. destruct t as [|t].
      * cbn [default from_option]. unfold id. split; [lia|]. replace (S n - n)%nat with 1%nat by lia.
        rewrite (drop_S _ _ _ Hm). cbn [take]. unfold Spec.userTurns.
        rewrite (filter_cons_True Spec.isUser) by done.
        rewrite take_0, filter_nil. cbn. lia.
      * destruct (IH t) as [Hs Hc]; [lia|]. cbn zeta in Hs, Hc.
        split; [lia|]. rewrite Hsnoc, Hcount by done. lia.
    + cbn [app]. destruct (IH t) as [Hs Hc]; [lia|]. cbn zeta in Hs, Hc.
      split; [lia|]. rewrite Hsnoc, Hcount by done. lia.
Qed.

Lemma rangeStart_userTurns msgs (upto k : nat) :
  (upto < length msgs)%nat -> (0 < k)%nat ->
  (Spec.userTurns (Spec.slice msgs (Spec.rangeStart msgs upto k) upto)
   <= k)%nat.
Proof.
  intros Hup Hk.
  destruct (userTurns_window msgs (S upto) (k - 1)) as [_ Hc]; [lia|].
  cbn zeta in Hc. replace (S (k - 1)) with k in Hc by lia.
  unfold Spec.slice, Spec.rangeStart. fold (Spec.userPositions msgs upto) in Hc.
  destruct (decide (k = 0%nat ∨ _)) as [[?|Hlt]|_]; [lia| |done].
  rewrite lookup_ge_None_2 in Hc; [done|]. rewrite length_reverse. lia.
Qed.

Lemma derivePairs_inv msgs opts :
  exists ps : list ExportPair,
    derivePairs msgs opts = Some ps
    /\ forall p, p ∈ ps ->
       exists (i : nat) (m : Message) (u : nat),
         msgs !! i = Some m /\ Spec.answers m /\ Spec.pairedWith msgs i u
         /\ promptFor msgs opts
              (if decide (Context opts = "") then "none" else Context opts)
              (if decide (RoleStyle opts = "") then "labels"
               else RoleStyle opts)
              (Z.of_nat u) = Some (User p)
         /\ User p ≠ "" /\ Assistant p = TrimSpace (Content m).
Proof.
  unfold derivePairs. rewrite derivePairs_indices.
  destruct (derivePairs_loop_inv msgs opts
              (if decide (Context opts = "") then "none" else Context opts)
              (if decide (RoleStyle opts = "") then "labels"
               else RoleStyle opts) 0 (length msgs) [])
    as (new & Hnew & Hall); [lia|].
  exists new. by rewrite Hnew.
Qed.

(** [derivePairs] never indexes out of range. *)
Lemma derivePairs_total msgs opts : is_Some (derivePairs msgs opts).
Proof. destruct (derivePairs_inv msgs opts) as (ps & -> & _). by eexists. Qed.

Lemma derivePairsFromItemData_total data opts :
  is_Some (derivePairsFromItemData data opts).
Proof.
  unfold derivePairsFromItemData.
  repeat case_match; try by eexists. apply derivePairs_total.
Qed.

(* ===================================================================== *)
(** ** The streaming loops and the cap *)
(* ===================================================================== *)

Lemma streamRows_unlimited {A} (encode : A -> Line) (N : Z) rows (c : Z) :
  N <= 0 -> streamRows encode N rows c = encode <$> rows.
Proof.
  intros HN. revert c. induction rows as [|row rows IH]; intros c; [done|].
  cbn [streamRows]. rewrite decide_False by lia. by rewrite IH.
Qed.

Lemma streamRows_cap {A} (encode : A -> Line) (N : Z) rows (c : Z) :
  0 <= c < N ->
  streamRows encode N rows c = take (Z.to_nat (N - c)) (encode <$> rows).
Proof.
  revert c. induction rows as [|row rows IH]; intros c Hc.
  - cbn. by rewrite take_nil.
  - cbn [streamRows].
    destruct (decide (N > 0 ∧ c + 1 >= N)) as [[_ Hge]|Hlt].
    + by replace (Z.to_nat (N - c)) with 1%nat by lia.
    + rewrite IH by lia.
      by replace (Z.to_nat (N - c)) with (S (Z.to_nat (N - (c + 1)))) by lia.
Qed.

Lemma encodePairs_unlimited (N : Z) pairs (c : Z) :
  N <= 0 ->
  encodePairs N pairs c
  = (PairLine <$> pairs, c + Z.of_nat (length pairs), false).
Proof.
  intros HN. revert c. induction pairs as [|p pairs IH]; intros c.
  - cbn. do 2 f_equal. lia.
  - cbn [encodePairs]. rewrite decide_False by lia. rewrite IH.
    cbn. do 2 f_equal. lia.
Qed.

Lemma encodePairs_cap (N : Z) pairs (c : Z) :
  0 <= c < N ->
  encodePairs N pairs c
  = (take (Z.to_nat (N - c)) (PairLine <$> pairs),
     Z.min N (c + Z.of_nat (length pairs)),
     bool_decide (N <= c + Z.of_nat (length pairs))).
Proof.
  revert c. induction pairs as [|p pairs IH]; intros c Hc.
  - cbn. rewrite take_nil, bool_decide_eq_false_2 by lia.
    do 2 f_equal. lia.
  - cbn [encodePairs length].
    destruct (decide (N > 0 ∧ c + 1 >= N)) as [[_ Hge]|Hlt].
    + replace (Z.to_nat (N - c)) with 1%nat by lia.
      rewrite bool_decide_eq_true_2 by lia. cbn. do 2 f_equal. lia.
    + rewrite IH by lia.
      replace (Z.to_nat (N - c)) with (S (Z.to_nat (N - (c + 1)))) by lia.
      cbn. f_equal; [f_equal; lia|]. apply bool_decide_ext. lia.
Qed.

Section PairRows.
Context {A : Type} (derive : A -> option (list ExportPair)).

Lemma streamPairRows_unlimited (N : Z) rows (c : Z) :
  N <= 0 -> Forall (fun row => is_Some (derive row)) rows ->
  streamPairRows derive N rows c = (PairLine <$> derivable derive rows, None).
Proof.
  intros HN Hall. revert c.
  induction Hall as [|row rows [pairs Hrow] _ IH]; intros c; [done|].
  cbn [streamPairRows]. rewrite Hrow, encodePairs_unlimited by done.
  rewrite IH. unfold derivable. cbn [flat_map]. rewrite Hrow. cbn.
  by rewrite fmap_app.
Qed.

Lemma streamPairRows_cap (N : Z) rows (c : Z) :
  0 <= c < N -> Forall (fun row => is_Some (derive row)) rows ->
  streamPairRows derive N rows c
  = (take (Z.to_nat (N - c)) (PairLine <$> derivable derive rows), None).
Proof.
  intros Hc Hall. revert c Hc.
  induction Hall as [|row rows [pairs Hrow] _ IH]; intros c Hc.
  - cbn. by rewrite take_nil.
  - cbn [streamPairRows]. rewrite Hrow, encodePairs_cap by done.
    unfold derivable. cbn [flat_map]. rewrite Hrow. cbn [default from_option id].
    rewrite fmap_app.
    destruct (decide (N <= c + Z.of_nat (length pairs))) as [Hfull|Hmore].
    + rewrite bool_decide_eq_true_2 by done.
      rewrite take_app_le; [done|]. rewrite length_fmap. lia.
    + rewrite bool_decide_eq_false_2 by done.
      rewrite Z.min_r by lia. rewrite IH by lia.
      rewrite (take_ge (PairLine <$> pairs)) by (rewrite length_fmap; lia).
      rewrite take_app_ge by (rewrite length_fmap; lia).
      rewrite length_fmap. do 3 f_equal. lia.
Qed.

(** Once the cap is reached within some rows, the rows after them are
    never looked at. *)
Lemma streamPairRows_stops (N : Z) rows rest (c : Z) :
  0 <= c < N -> Forall (fun row => is_Some (derive row)) rows ->
  N <= c + Z.of_nat (length (derivable derive rows)) ->
  streamPairRows derive N (rows ++ rest) c = streamPairRows derive N rows c.
Proof.
  intros Hc Hall. revert c Hc.
  induction Hall as [|row rows [pairs Hrow] _ IH]; intros c Hc Hcap.
  - cbn in Hcap. lia.
  - cbn [app streamPairRows]. rewrite Hrow, encodePairs_cap by done.
    unfold derivable in Hcap. cbn [flat_map] in Hcap.
    rewrite Hrow, length_app in Hcap. cbn [default from_option id] in Hcap.
    destruct (decide (N <= c + Z.of_nat (length pairs))) as [Hfull|Hmore].
    + by rewrite bool_decide_eq_true_2 by done.
    + rewrite bool_decide_eq_false_2 by done.
      rewrite IH; [done| |]; unfold derivable; lia.
Qed.

End PairRows.

(* ===================================================================== *)
(** ** Which options the engine reads *)
(* ===================================================================== *)

Lemma derivePairs_loop_ext msgs o1 o2 cm rs indices pairs :
  IncludeSystem o1 = IncludeSystem o2 -> ContextTurns o1 = ContextTurns o2 ->
  derivePairs_loop msgs o1 cm rs indices pairs
  = derivePairs_loop msgs o2 cm rs indices pairs.
Proof.
  intros Hi Hk. revert pairs.
  induction indices as [|i indices IH]; intros pairs; [done|].
  cbn [derivePairs_loop].
  assert (derivePairs_step msgs o1 cm rs i pairs
          = derivePairs_step msgs o2 cm rs i pairs) as ->.
  { unfold derivePairs_step, promptFor. by rewrite Hi, Hk. }
  destruct (derivePairs_step msgs o2 cm rs i pairs); [apply IH|done].
Qed.

(** [derivePairs] reads the context mode and the role style with their
    defaults, [IncludeSystem] and [ContextTurns], and nothing else. *)
Lemma derivePairs_ext msgs o1 o2 :
  IncludeSystem o1 = IncludeSystem o2 -> ContextTurns o1 = ContextTurns o2 ->
  (if decide (Context o1 = "") then "none" else Context o1)
  = (if decide (Context o2 = "") then "none" else Context o2) ->
  (if decide (RoleStyle o1 = "") then "labels" else RoleStyle o1)
  = (if decide (RoleStyle o2 = "") then "labels" else RoleStyle o2) ->
  derivePairs msgs o1 = derivePairs msgs o2.
Proof.
  intros Hi Hk Hc Hr. unfold derivePairs. rewrite Hc, Hr.
  by apply derivePairs_loop_ext.
Qed.

Lemma derivePairsFromItemData_ext data o1 o2 :
  (forall msgs, derivePairs msgs o1 = derivePairs msgs o2) ->
  derivePairsFromItemData data o1 = derivePairsFromItemData data o2.
Proof.
  intros H. unfold derivePairsFromItemData. repeat case_match; try done.
Qed.

Lemma streamPairRows_ext {A} (d1 d2 : A -> option (list ExportPair)) N rows c :
  (forall row, d1 row = d2 row) ->
  streamPairRows d1 N rows c = streamPairRows d2 N rows c.
Proof.
  intros H. revert c. induction rows as [|row rows IH]; intros c; [done|].
  cbn [streamPairRows]. rewrite H.
  destruct (d2 row) as [pairs|]; [|done].
  destruct (encodePairs N pairs c) as [[out c'] returned].
  destruct returned; [done|]. by rewrite IH.
Qed.

(** Two option records that agree on everything the dispatch reads, and
    derive the same pairs, stream the same. *)
Lemma dispatch_ext db o1 o2 :
  Type_ o1 = Type_ o2 -> DatasetID o1 = DatasetID o2 -> Split o1 = Split o2 ->
  Status o1 = Status o2 -> MaxExamples o1 = MaxExamples o2 ->
  (forall msgs, derivePairs msgs o1 = derivePairs msgs o2) ->
  dispatch db o1 = dispatch db o2.
Proof.
  intros Ht Hd Hs Hst Hm Hp.
  assert (conversationsFilterQuery db o1 = conversationsFilterQuery db o2) as Hq.
  { unfold conversationsFilterQuery. by rewrite Hd, Hs, Hst. }
  assert (streamByType db o1 = streamByType db o2) as Hby.
  { unfold streamByType, streamPairs, streamConversations.
    rewrite Ht, Hm, Hq.
    by rewrite (streamPairRows_ext _ (fun c => derivePairs (Messages c) o2)). }
  assert (streamDatasetItems db o1 = streamDatasetItems db o2) as Hit.
  { unfold streamDatasetItems, streamPairsFromDatasetItems,
      streamDatasetItemsRaw, streamDatasetItemsWithMeta.
    rewrite Ht, Hm, Hd.
    rewrite (streamPairRows_ext _
               (fun it => derivePairsFromItemData (Data it) o2)); [done|].
    intros it. by apply derivePairsFromItemData_ext. }
  unfold dispatch. by rewrite Hd, Hby, Hit.
Qed.

(** The capped stream is the front of the unlimited one, with the same
    returned error. *)
Lemma dispatch_cap db opts :
  0 < MaxExamples opts ->
  dispatch db opts
  = (take (Z.to_nat (MaxExamples opts))
       (dispatch db (withMaxExamples opts 0)).1,
     (dispatch db (withMaxExamples opts 0)).2).
Proof.
  intros HN.
  assert (forall msgs, derivePairs msgs (withMaxExamples opts 0)
                       = derivePairs msgs opts) as Hp.
  { intros msgs. by apply derivePairs_ext. }
  assert (0 <= 0 < MaxExamples opts) as Hc by lia.
  assert (forall {A} (enc : A -> Line) rows,
            streamRows enc (MaxExamples opts) rows 0
            = take (Z.to_nat (MaxExamples opts)) (streamRows enc 0 rows 0))
    as Hrows.
  { intros A enc rows. rewrite streamRows_cap, streamRows_unlimited by lia.
    by rewrite Z.sub_0_r. }
  assert (forall {A} (d : A -> option (list ExportPair)) rows,
            (forall row, is_Some (d row)) ->
            streamPairRows d (MaxExamples opts) rows 0
            = (take (Z.to_nat (MaxExamples opts))
                 (streamPairRows d 0 rows 0).1,
               (streamPairRows d 0 rows 0).2)) as Hprs.
  { intros A d rows Hd.
    assert (Forall (fun row => is_Some (d row)) rows) as Hall
      by (apply Forall_forall; auto).
    rewrite streamPairRows_cap, streamPairRows_unlimited by (done || lia).
    by rewrite Z.sub_0_r. }
  assert (forall err : error,
            ([], Some err) = (take (Z.to_nat (MaxExamples opts)) (@nil Line),
                              Some err)) as Herr
    by (intros; by rewrite take_nil).
  unfold dispatch, streamByType, streamDatasetItems, streamPairs,
    streamConversations, streamPairsFromDatasetItems, streamDatasetItemsRaw,
    streamDatasetItemsWithMeta.
  change (conversationsFilterQuery db (withMaxExamples opts 0))
    with (conversationsFilterQuery db opts).
  cbn [withMaxExamples Type_ DatasetID MaxExamples].
  rewrite (streamPairRows_ext
             (fun c => derivePairs (Messages c) (withMaxExamples opts 0))
             (fun c => derivePairs (Messages c) opts)) by (intros; apply Hp).
  rewrite (streamPairRows_ext
             (fun it => derivePairsFromItemData (Data it)
                          (withMaxExamples opts 0))
             (fun it => derivePairsFromItemData (Data it) opts))
    by (intros; by apply derivePairsFromItemData_ext).
  repeat case_match; cbn [fst snd];
    rewrite ?Hrows; try apply Herr; try done; apply Hprs; intros;
    (apply derivePairs_total || apply derivePairsFromItemData_total).
Qed.

(* ===================================================================== *)
(** ** Item data *)
(* ===================================================================== *)

Lemma singleTurn_shape obj u a :
  Spec.singleTurnShape obj u a ->
  singleTurn obj = Some (mkExportPair (TrimSpace u) (TrimSpace a)).
Proof.
  intros (Hu & Ha & Hun & Han). unfold singleTurn.
  rewrite Hu, Ha. cbn. by rewrite decide_True.
Qed.

Lemma singleTurn_no_shape obj :
  (forall u a, ¬ Spec.singleTurnShape obj u a) -> singleTurn obj = None.
Proof.
  intros Hno. unfold singleTurn.
  destruct (obj !! "user") as [uRaw|] eqn:Hu; [|done].
  destruct (obj !! "assistant") as [aRaw|] eqn:Ha; [|done].
  cbn [mbind option_bind].
  destruct uRaw as [| | |u| |]; try done;
    destruct aRaw as [| | |a| |]; try done; cbn [unmarshalString mbind option_bind].
  all: destruct (decide _) as [[Hx Hy]|]; [|done].
  all: try (exfalso; first [by apply Hx | by apply Hy]).
  match goal with
  | Hx : TrimSpace ?u ≠ "", Hy : TrimSpace ?a ≠ "" |- _ =>
      by destruct (Hno u a (conj Hu (conj Ha (conj Hx Hy))))
  end.
Qed.

(* ===================================================================== *)
(** ** The rows the queries return *)
(* ===================================================================== *)

Section OrderBy.
Context {A : Type} (key : A -> Z).

Lemma insertByKey_perm (x : A) (l : list A) : insertByKey key x l ≡ₚ x :: l.
Proof.
  induction l as [|y l IH]; [done|]. cbn [insertByKey].
  destruct (decide (key x <= key y)); [done|].
  rewrite IH. apply Permutation_swap.
Qed.

Lemma orderBy_perm (l : list A) : orderBy key l ≡ₚ l.
Proof.
  unfold orderBy. induction l as [|x l IH]; [done|].
  cbn [foldr]. rewrite insertByKey_perm. by rewrite IH.
Qed.

Lemma insertByKey_sorted (x : A) (l : list A) :
  StronglySorted (fun a b => key a <= key b) l ->
  StronglySorted (fun a b => key a <= key b) (insertByKey key x l).
Proof.
  induction 1 as [|y l Hsorted IH Hall]; cbn [insertByKey].
  - repeat constructor.
  - destruct (decide (key x <= key y)) as [Hle|Hgt].
    + constructor; [by constructor|]. constructor; [done|].
      eapply Forall_impl; [exact Hall|]. cbn. intros z Hz. lia.
    + constructor; [done|]. rewrite insertByKey_perm.
      constructor; [lia|done].
Qed.

Lemma orderBy_sorted (l : list A) :
  StronglySorted (fun a b => key a <= key b) (orderBy key l).
Proof.
  unfold orderBy. induction l as [|x l IH]; [constructor|].
  cbn [foldr]. by apply insertByKey_sorted.
Qed.

End OrderBy.

Lemma List_filter_decide {A} (P : A -> Prop) `{!forall x, Decision (P x)}
  (f : A -> bool) (l : list A) :
  (forall x, f x = true <-> P x) -> List.filter f l = filter P l.
Proof.
  intros Hf. induction l as [|x l IH]; [done|]. cbn [List.filter].
  destruct (f x) eqn:Hx.
  - rewrite filter_cons_True by (by apply Hf). by rewrite IH.
  - rewrite filter_cons_False; [done|].
    intros HP. apply Hf in HP. congruence.
Qed.

(** The rows of the conversation query: the selected conversations, each
    once, by ascending id. *)
Lemma conversationsFilterQuery_spec db opts :
  conversationsFilterQuery db (exportDefaults opts)
    ≡ₚ filter (selects opts) (conversations db)
  /\ StronglySorted (fun a b => ConvID a <= ConvID b)
       (conversationsFilterQuery db (exportDefaults opts)).
Proof.
  unfold conversationsFilterQuery. split; [|apply orderBy_sorted].
  rewrite orderBy_perm.
  rewrite (List_filter_decide (selects opts)); [done|].
  intros c. unfold selects. cbn [exportDefaults Status DatasetID Split].
  unfold SplitTrain, ConversationStatusApproved.
  rewrite !andb_true_iff, bool_decide_eq_true.
  set (split := if decide (Split opts = "") then "train" else Split opts).
  assert (split ≠ "") as Hsplit
    by (subst split; by destruct (decide (Split opts = ""))).
  destruct (decide (DatasetID opts > 0)) as [Hid|Hid];
    destruct (decide (split ≠ "" ∧ split ≠ "all")) as [Hs|Hs];
    rewrite ?bool_decide_eq_true.
  - split; [intros [[? ?] ?]|intros (? & ? & [?|?])];
      repeat split; auto; try lia. by destruct Hs.
  - assert (split = "all") as Hall
      by (destruct (decide (split = "all")); [done|by destruct Hs]).
    split; [intros [[? ?] ?]|intros (? & ? & ?)];
      repeat split; auto; lia.
  - split; [intros [[? ?] ?]|intros (? & ? & [?|?])];
      repeat split; auto; try lia. by destruct Hs.
  - assert (split = "all") as Hall
      by (destruct (decide (split = "all")); [done|by destruct Hs]).
    split; [intros [[? ?] ?]|intros (? & ? & ?)];
      repeat split; auto; lia.
Qed.

Lemma datasetItemsQuery_spec db (id : Z) :
  datasetItemsQuery db id
    ≡ₚ filter (fun it => ItemDatasetID it = id) (dataset_items db)
  /\ StronglySorted (fun a b => ItemID a <= ItemID b)
       (datasetItemsQuery db id).
Proof.
  unfold datasetItemsQuery. split; [|apply orderBy_sorted].
  rewrite orderBy_perm.
  rewrite (List_filter_decide (fun it => ItemDatasetID it = id)); [done|].
  intros it. apply bool_decide_eq_true.
Qed.

(* ===================================================================== *)
(** ** The records of a run without a cap *)
(* ===================================================================== *)

(** The lines of a run over conversations that nothing caps. *)
Lemma streamByType_lines db opts :
  (streamByType db (withMaxExamples (exportDefaults opts) 0)).1
  = if decide ((if decide (Type_ opts = "") then "pairs" else Type_ opts)
               = "pairs")
    then PairLine
           <$> derivable (fun c => derivePairs (Messages c) opts)
                 (conversationsFilterQuery db (exportDefaults opts))
    else if decide ((if decide (Type_ opts = "") then "pairs"
                     else Type_ opts) = "conversations")
    then conversationLine
           <$> conversationsFilterQuery db (exportDefaults opts)
    else [].
Proof.
  unfold streamByType, streamPairs, streamConversations.
  change (conversationsFilterQuery db
            (withMaxExamples (exportDefaults opts) 0))
    with (conversationsFilterQuery db (exportDefaults opts)).
  cbn [withMaxExamples exportDefaults Type_ MaxExamples].
  destruct (decide (_ = "pairs")).
  - rewrite (streamPairRows_ext _ (fun c => derivePairs (Messages c) opts))
      by (intros; by apply derivePairs_ext).
    rewrite streamPairRows_unlimited; [done|done|].
    apply Forall_forall. intros; apply derivePairs_total.
  - destruct (decide (_ = "conversations")); [|done].
    cbn [fst]. by rewrite streamRows_unlimited.
Qed.

(** The lines of a run over an items dataset that nothing caps. *)
Lemma streamDatasetItems_lines db opts :
  0 < DatasetID opts ->
  (streamDatasetItems db (withMaxExamples (exportDefaults opts) 0)).1
  = if decide ((if decide (Type_ opts = "") then "pairs" else Type_ opts)
               = "pairs")
    then PairLine
           <$> derivable (fun it => derivePairsFromItemData (Data it) opts)
                 (datasetItemsQuery db (DatasetID opts))
    else if decide ((if decide (Type_ opts = "") then "pairs"
                     else Type_ opts) = "items")
    then (fun it => RawLine (Data it))
           <$> datasetItemsQuery db (DatasetID opts)
    else if decide ((if decide (Type_ opts = "") then "pairs"
                     else Type_ opts) = "items_with_meta")
    then metaLine <$> datasetItemsQuery db (DatasetID opts)
    else [].
Proof.
  intros Hid.
  unfold streamDatasetItems, streamPairsFromDatasetItems,
    streamDatasetItemsRaw, streamDatasetItemsWithMeta.
  cbn [withMaxExamples exportDefaults Type_ DatasetID MaxExamples].
  rewrite !(decide_False (P := DatasetID opts <= 0)) by lia.
  destruct (decide (_ = "pairs")).
  - rewrite (streamPairRows_ext _
               (fun it => derivePairsFromItemData (Data it) opts)).
    + rewrite streamPairRows_unlimited; [done|done|].
      apply Forall_forall. intros; apply derivePairsFromItemData_total.
    + intros it. apply derivePairsFromItemData_ext.
      intros msgs. by apply derivePairs_ext.
  - destruct (decide (_ = "items")).
    + cbn [fst]. by rewrite streamRows_unlimited.
    + destruct (decide (_ = "items_with_meta")); [|done].
      cbn [fst]. by rewrite streamRows_unlimited.
Qed.

(** A run that nothing caps writes the records derivable from the selected
    rows. *)
Lemma unlimited_records db opts :
  totalDerivable db opts
    (dispatch db (withMaxExamples (exportDefaults opts) 0)).1.
Proof.
  unfold totalDerivable, dispatch. cbn zeta.
  change (DatasetID (withMaxExamples (exportDefaults opts) 0))
    with (DatasetID opts).
  destruct (decide (0 < DatasetID opts)) as [Hid|Hid].
  - rewrite decide_True by lia.
    destruct (GetDataset db (DatasetID opts)) as [err|ds]; [done|].
    destruct (EqualFold_items (Kind ds)).
    + exists (datasetItemsQuery db (DatasetID opts)).
      split; [apply datasetItemsQuery_spec|].
      by apply streamDatasetItems_lines.
    + exists (conversationsFilterQuery db (exportDefaults opts)).
      split; [apply conversationsFilterQuery_spec|].
      apply streamByType_lines.
  - rewrite decide_False by lia.
    exists (conversationsFilterQuery db (exportDefaults opts)).
    split; [apply conversationsFilterQuery_spec|].
    apply streamByType_lines.
Qed.

(* ===================================================================== *)
(** ** The properties of the specification *)
(* ===================================================================== *)


(** C1, as stated, fails: a user message whose content is only white space
    is found by the backward scan, yet the assistant message after it yields
    no pair, because a pair with an empty prompt is dropped. *)
Lemma derivePairs_summary_fails :
  derivePairs [user " "; assistant "A"] (optsWith "none" 0)
  ≠ Some (Spec.pairsNone_summary [user " "; assistant "A"]).
Proof. vm_compute. intros [=]. Qed.

(** C1 (amended).  With [context=none] the Pair Deriver returns, without
    failing, exactly the pairs of the reference [Spec.pairsNone]: scanning
    the messages in order, each assistant message with non-empty trimmed
    content whose nearest preceding user message exists and has non-empty
    trimmed content yields one pair (trimmed user content, trimmed assistant
    content); an assistant message with no preceding user message yields
    nothing; and [user "Q"; assistant "A1"; assistant "A2"] yields the two
    pairs ("Q","A1") and ("Q","A2"). *)
Theorem derivePairs_context_none (msgs : list Message) (opts : ExportOptions) :
  Context opts = "none" ->
  derivePairs msgs opts = Some (Spec.pairsNone msgs)
  /\ (forall i : nat,
        Spec.nearestPrecedingUser msgs i = None -> Spec.pairAt msgs i = [])
  /\ derivePairs [user "Q"; assistant "A1"; assistant "A2"] opts
     = Some [mkExportPair "Q" "A1"; mkExportPair "Q" "A2"].
Proof.
  intros Hc. split; [|split].
  - apply derivePairs_none_like; by rewrite Hc.
  - intros i Hi. unfold Spec.pairAt. rewrite Hi. by repeat case_match.
  - rewrite derivePairs_none_like by (by rewrite Hc). done.
Qed.

Lemma derivePairs_context_none_witness :
  Context (optsWith "none" 0) = "none"
  /\ derivePairs dialogue (optsWith "none" 0)
     = Some [mkExportPair "one" "1"; mkExportPair "two" "2"].
Proof.
  split; [reflexivity|].
  destruct (derivePairs_context_none dialogue (optsWith "none" 0) eq_refl)
    as [-> _].
  reflexivity.
Defined.

(** C2.  For a position [uptoIndex] of the message list, the Context
    Renderer returns, without failing, the reference rendering
    [Spec.renderContext]: the range ends at [uptoIndex] and starts at 0 when
    [contextTurns = 0] or fewer than [contextTurns] user messages exist in
    the prefix, otherwise at the [contextTurns]-th user message counting
    backward; system messages are skipped unless [includeSystem], messages
    with empty trimmed content are skipped; each retained message gives one
    line, labelled unless the style is plain; the lines are joined by single
    newlines. *)
Theorem renderContext_reference (msgs : list Message) (uptoIndex : nat)
  (includeSystem : bool) (contextTurns : nat) (roleStyle : string) :
  (uptoIndex < length msgs)%nat ->
  renderContext msgs (Z.of_nat uptoIndex) includeSystem
    (Z.of_nat contextTurns) roleStyle
  = Some (Spec.renderContext msgs uptoIndex includeSystem contextTurns
            roleStyle).
Proof.
  intros Hup. rewrite renderContext_spec by done. by rewrite Nat2Z.id.
Qed.


Lemma renderContext_reference_witness :
  (6 < length dialogue)%nat
  /\ renderContext dialogue 6 false 2 "labels"
     = Some ("User: two" +:+ newline +:+ "Assistant: 2" +:+ newline
             +:+ "User: three").
Proof.
  split; [cbn; lia|].
  apply (renderContext_reference dialogue 6 false 2 "labels"). cbn; lia.
Defined.

Lemma render_roleStyle_default inc rs turns :
  Spec.render inc (if decide (rs = "") then "labels" else rs) turns
  = Spec.render inc rs turns.
Proof.
  destruct (decide (rs = "")) as [->|]; [|done].
  unfold Spec.render. apply (f_equal (fun l => Join l newline)).
  apply list_fmap_ext. intros _ m _. unfold Spec.line. by repeat case_decide.
Qed.

Lemma nearestUserIndex_S msgs (n : nat) :
  Spec.nearestUserIndex msgs (S n)
  = if decide (Spec.userAt msgs n) then Some n
    else Spec.nearestUserIndex msgs n.
Proof.
  unfold Spec.nearestUserIndex. rewrite seq_S, filter_app. cbn [Nat.add].
  destruct (decide (Spec.userAt msgs n)) as [Hu|Hu].
  - rewrite (filter_cons_True _ _ _ Hu), filter_nil. apply last_snoc.
  - rewrite (filter_cons_False _ _ _ Hu), filter_nil. by rewrite app_nil_r.
Qed.

(** The backward scan returns the position of the nearest user message
    before position [n], or [-1]. *)
Lemma findPrevRole_from_index msgs (n : nat) :
  (n <= length msgs)%nat ->
  findPrevRole_from msgs RoleUser n
  = Some (match Spec.nearestUserIndex msgs n with
          | Some u => Z.of_nat u
          | None => -1
          end)
  /\ forall u, Spec.nearestUserIndex msgs n = Some u -> (u < n)%nat.
Proof.
  induction n as [|n IH]; intros Hn.
  - split; [done|]. intros u. by unfold Spec.nearestUserIndex.
  - destruct (lookup_lt_is_Some_2 msgs n) as [m Hm]; [lia|].
    destruct IH as [IH Hlt]; [lia|].
    cbn [findPrevRole_from]. rewrite Hm. cbn [mbind option_bind].
    rewrite nearestUserIndex_S.
    destruct (decide (Role_ m = RoleUser)) as [Hu|Hu].
    + rewrite decide_True by (by apply (userAt_lookup _ _ _ Hm)).
      split; [done|]. intros u [= <-]. lia.
    + rewrite decide_False by (by rewrite (userAt_lookup _ _ _ Hm)).
      split; [done|]. intros u Hu'. specialize (Hlt u Hu'). lia.
Qed.

(** One iteration of the loop of [derivePairs], for prompts that are known
    by position. *)
Lemma derivePairs_step_prompted msgs opts cm rs (prompt : nat -> string)
  (i : nat) pairs :
  (forall u : nat, (u < length msgs)%nat ->
     promptFor msgs opts cm rs (Z.of_nat u) = Some (prompt u)) ->
  (i < length msgs)%nat ->
  derivePairs_step msgs opts cm rs (Z.of_nat i) pairs
  = Some (pairs ++ Spec.promptedPairAt prompt msgs i).
Proof.
  intros Hprompt Hi. unfold derivePairs_step, Spec.promptedPairAt.
  destruct (lookup_lt_is_Some_2 msgs i) as [m Hm]; [lia|].
  rewrite index_of_nat, Hm. cbn [mbind option_bind]. unfold Spec.answers.
  destruct (decide (Role_ m ≠ RoleAssistant)) as [Hr|Hr].
  { rewrite decide_False by (intros [? _]; done). by rewrite app_nil_r. }
  apply dec_stable in Hr.
  destruct (decide (TrimSpace (Content m) = "")) as [Hc|Hc].
  { rewrite decide_False by (intros [_ ?]; done). by rewrite app_nil_r. }
  rewrite decide_True by done.
  unfold findPrevRole. replace (Z.to_nat (Z.of_nat i - 1 + 1)) with i by lia.
  destruct (findPrevRole_from_index msgs i) as [-> Hlt]; [lia|].
  cbn [mbind option_bind].
  destruct (Spec.nearestUserIndex msgs i) as [u|].
  - specialize (Hlt u eq_refl). rewrite decide_False by lia.
    rewrite Hprompt by lia. cbn [mbind option_bind].
    by destruct (decide (prompt u = "")); [rewrite app_nil_r|].
  - rewrite decide_True by lia. by rewrite app_nil_r.
Qed.

Lemma derivePairs_loop_prompted msgs opts cm rs (prompt : nat -> string)
  (lo n : nat) pairs :
  (forall u : nat, (u < length msgs)%nat ->
     promptFor msgs opts cm rs (Z.of_nat u) = Some (prompt u)) ->
  (lo + n <= length msgs)%nat ->
  derivePairs_loop msgs opts cm rs (Z.of_nat <$> seq lo n) pairs
  = Some (pairs ++ flat_map (Spec.promptedPairAt prompt msgs) (seq lo n)).
Proof.
  intros Hprompt. revert lo pairs.
  induction n as [|n IH]; intros lo pairs Hn.
  - by rewrite app_nil_r.
  - cbn [seq fmap list_fmap derivePairs_loop flat_map].
    rewrite (derivePairs_step_prompted _ _ _ _ prompt) by (done || lia).
    cbn [mbind option_bind]. rewrite IH by lia. by rewrite app_assoc.
Qed.

(** With [context=window] or [context=full] the pairs are those of the
    reference, the prompt of a user position being the rendering of
    [Spec.renderContext] there. *)
Lemma derivePairs_prompted msgs opts (k : Z) :
  (Context opts = "window" /\ k = ContextTurns opts)
  \/ (Context opts = "full" /\ k = 0) ->
  derivePairs msgs opts
  = Some (Spec.promptedPairs
            (fun u => Spec.render (IncludeSystem opts) (RoleStyle opts)
                        (Spec.slice msgs
                           (Spec.rangeStart msgs u (Z.to_nat k)) u))
            msgs).
Proof.
  intros Hmode. unfold derivePairs, Spec.promptedPairs.
  rewrite derivePairs_indices.
  rewrite (derivePairs_loop_prompted _ _ _ _
             (fun u => Spec.render (IncludeSystem opts) (RoleStyle opts)
                         (Spec.slice msgs
                            (Spec.rangeStart msgs u (Z.to_nat k)) u)));
    [done| |lia].
  intros u Hu. destruct (lookup_lt_is_Some_2 msgs u Hu) as [mu Hmu].
  rewrite (promptFor_spec _ _ _ _ _ _ Hmu). f_equal.
  unfold Spec.renderContext.
  destruct Hmode as [[Hc ->]|[Hc ->]]; rewrite Hc; cbn;
    apply render_roleStyle_default.
Qed.

(** C7, as stated, fails for [k = 0]: with [context=window] and
    [context_turns=0] the pair of [user "Q"; assistant "A"] has the prompt
    ["User: Q"]; whatever range is chosen for a user position, the pairs are
    not those of prompts that hold no user turn. *)
Lemma window_zero_turns_fails :
  ¬ (exists start : nat -> nat,
       derivePairs [user "Q"; assistant "A"] (optsWith "window" 0)
       = Some (Spec.promptedPairs
                 (fun u => Spec.render false ""
                             (Spec.slice [user "Q"; assistant "A"]
                                (start u) u))
                 [user "Q"; assistant "A"])
       /\ forall u : nat, (u < 2)%nat ->
            (Spec.userTurns (Spec.slice [user "Q"; assistant "A"] (start u) u)
             <= 0)%nat).
Proof.
  intros (start & Hpairs & Hturns).
  assert (derivePairs [user "Q"; assistant "A"] (optsWith "window" 0)
          = Some [mkExportPair "User: Q" "A"]) as Hcode by reflexivity.
  assert (forall prompt : nat -> string,
            Spec.promptedPairs prompt [user "Q"; assistant "A"]
            = if decide (prompt 0%nat = "") then []
              else [mkExportPair (prompt 0%nat) "A"]) as Href.
  { intros prompt. unfold Spec.promptedPairs. cbn [length seq flat_map].
    rewrite app_nil_r. reflexivity. }
  rewrite Hcode, Href in Hpairs. specialize (Hturns 0%nat).
  destruct (start 0%nat) as [|s0].
  - vm_compute in Hturns. lia.
  - vm_compute in Hpairs. discriminate Hpairs.
Qed.

(** C7 (amended).  The Pair Deriver returns without failing.  With
    [context=window] and [context_turns = k > 0] the pairs are exactly those
    in which the answering message at each position is paired with the
    nearest user message before it and the prompt renders the retained
    turns of a range that ends at that user message and holds at most [k]
    user turns.  With [context=full], and with [context=window] when
    [context_turns] is not positive, the prompt renders every retained turn
    from position 0 through that user message. *)
Theorem context_window_law (msgs : list Message) (opts : ExportOptions) :
  is_Some (derivePairs msgs opts)
  /\ (Context opts = "window" -> 0 < ContextTurns opts ->
      let k := Z.to_nat (ContextTurns opts) in
      derivePairs msgs opts
      = Some (Spec.promptedPairs
                (fun u => Spec.render (IncludeSystem opts) (RoleStyle opts)
                            (Spec.slice msgs (Spec.rangeStart msgs u k) u))
                msgs)
      /\ forall u : nat, (u < length msgs)%nat ->
           (Spec.rangeStart msgs u k <= u)%nat
           /\ (Spec.userTurns (Spec.slice msgs (Spec.rangeStart msgs u k) u)
               <= k)%nat)
  /\ (Context opts = "window" -> ContextTurns opts <= 0 ->
      derivePairs msgs opts
      = Some (Spec.promptedPairs
                (fun u => Spec.render (IncludeSystem opts) (RoleStyle opts)
                            (Spec.slice msgs 0 u))
                msgs))
  /\ (Context opts = "full" ->
      derivePairs msgs opts
      = Some (Spec.promptedPairs
                (fun u => Spec.render (IncludeSystem opts) (RoleStyle opts)
                            (Spec.slice msgs 0 u))
                msgs)).
Proof.
  split; [apply derivePairs_total|]. split; [|split].
  - intros Hc Hk. cbn zeta. split.
    + apply derivePairs_prompted. by left.
    + intros u Hu. split; [apply rangeStart_bound|].
      apply rangeStart_userTurns; lia.
  - intros Hc Hk.
    rewrite (derivePairs_prompted msgs opts (ContextTurns opts))
      by (by left).
    replace (Z.to_nat (ContextTurns opts)) with 0%nat by lia. f_equal.
  - intros Hc. rewrite (derivePairs_prompted msgs opts 0) by (by right).
    f_equal.
Qed.

Lemma context_window_law_witness :
  Context (optsWith "window" 2) = "window"
  /\ 0 < ContextTurns (optsWith "window" 2)
  /\ derivePairs dialogue (optsWith "window" 2)
     = Some (Spec.promptedPairs
               (fun u => Spec.render false ""
                           (Spec.slice dialogue
                              (Spec.rangeStart dialogue u 2) u))
               dialogue)
  /\ derivePairs dialogue (optsWith "window" 2)
     = Some [mkExportPair "User: one" "1"; mkExportPair "User: two" "2"].
Proof.
  split; [reflexivity|]. split; [reflexivity|]. split; [|reflexivity].
  exact (proj1 (proj1 (proj2 (context_window_law dialogue
                                (optsWith "window" 2)))
                  eq_refl eq_refl)).
Defined.

(** C10.  With a context that is none of "none", "window" and "full" (the
    empty string included) the Pair Deriver returns what it returns for
    [context=none], which is the reference [Spec.pairsNone]: each prompt is
    the trimmed content of the nearest preceding user message, and no
    failure is produced. *)
Theorem unknown_context_as_none (msgs : list Message) (opts : ExportOptions) :
  Context opts ≠ "none" -> Context opts ≠ "window" -> Context opts ≠ "full" ->
  derivePairs msgs opts = derivePairs msgs (withContext opts "none")
  /\ derivePairs msgs opts = Some (Spec.pairsNone msgs).
Proof.
  intros _ Hw Hf. by rewrite !derivePairs_none_like.
Qed.

Lemma unknown_context_as_none_witness :
  Context (optsWith "recent" 3) ≠ "none"
  /\ Context (optsWith "recent" 3) ≠ "window"
  /\ Context (optsWith "recent" 3) ≠ "full"
  /\ derivePairs dialogue (optsWith "recent" 3)
     = Some [mkExportPair "one" "1"; mkExportPair "two" "2"].
Proof.
  assert (Context (optsWith "recent" 3) ≠ "none") as H1 by (intros [=]).
  assert (Context (optsWith "recent" 3) ≠ "window") as H2 by (intros [=]).
  assert (Context (optsWith "recent" 3) ≠ "full") as H3 by (intros [=]).
  split; [exact H1|]. split; [exact H2|]. split; [exact H3|].
  destruct (unknown_context_as_none dialogue (optsWith "recent" 3) H1 H2 H3)
    as [_ ->].
  reflexivity.
Defined.

(** C3.  With [max_examples = N > 0] the lines written are the first [N]
    of the records derivable from the selected rows (the selected
    conversations or the items of the dataset, each once and by ascending
    id; pairs are counted one by one, so the cut may fall inside a
    conversation); their number is the minimum of [N] and the number of
    these records; the run with [max_examples = 0] writes all of them; and
    the pair loop stops for good once the count reaches [N]: rows after the
    one in which the cap is reached do not matter, whatever they are. *)
Theorem max_examples_cap (db : DB) (opts : ExportOptions) (N : Z) :
  MaxExamples opts = N -> 0 < N ->
  let capped := StreamExport db opts in
  let unlimited := StreamExport db (withMaxExamples opts 0) in
  exists records : list Line,
    totalDerivable db opts records
    /\ unlimited.1 = records
    /\ capped.1 = take (Z.to_nat N) records
    /\ length capped.1 = (Z.to_nat N `min` length records)%nat
    /\ forall (A : Type) (derive : A -> option (list ExportPair))
         (rows rest : list A),
         Forall (fun row => is_Some (derive row)) rows ->
         N <= Z.of_nat (length (derivable derive rows)) ->
         streamPairRows derive N (rows ++ rest) 0
         = streamPairRows derive N rows 0.
Proof.
  intros HN Hpos. cbn zeta. unfold StreamExport.
  change (exportDefaults (withMaxExamples opts 0))
    with (withMaxExamples (exportDefaults opts) 0).
  exists (dispatch db (withMaxExamples (exportDefaults opts) 0)).1.
  split; [apply unlimited_records|]. split; [done|].
  rewrite (dispatch_cap db (exportDefaults opts)) by (cbn; lia).
  cbn [fst snd exportDefaults MaxExamples]. rewrite HN.
  split; [done|]. split; [apply length_take|].
  intros A derive rows rest Hall Hcap.
  apply streamPairRows_stops; [lia|done|lia].
Qed.

Lemma max_examples_cap_witness :
  MaxExamples (optsMax "pairs" 0 3) = 3 /\ 0 < 3
  /\ (StreamExport store (optsMax "pairs" 0 3)).1
     = [PairLine (mkExportPair "a" "A"); PairLine (mkExportPair "b" "B");
        PairLine (mkExportPair "c" "C1")]
  /\ totalDerivable store (optsMax "pairs" 0 3)
       [PairLine (mkExportPair "a" "A"); PairLine (mkExportPair "b" "B");
        PairLine (mkExportPair "c" "C1"); PairLine (mkExportPair "c" "C2")].
Proof.
  split; [reflexivity|]. split; [reflexivity|].
  destruct (max_examples_cap store (optsMax "pairs" 0 3) 3 eq_refl eq_refl)
    as (records & Htotal & Hall & Hcap & _).
  split.
  - rewrite Hcap, <- Hall. reflexivity.
  - rewrite <- Hall in Htotal. exact Htotal.
Defined.

(** C4.  When the item data is an object whose keys [user] and [assistant]
    are both present and hold strings that are non-empty once trimmed, the
    Item Pair Deriver returns exactly the pair (trim(user), trim(assistant)),
    whatever else the object holds, a [messages] key included. *)
Theorem single_turn_item (data : RawMessage) (obj : gmap string json)
  (u a : string) (opts : ExportOptions) :
  unmarshalObject data = Some obj ->
  obj !! "user" = Some (JString u) -> obj !! "assistant" = Some (JString a) ->
  TrimSpace u ≠ "" -> TrimSpace a ≠ "" ->
  derivePairsFromItemData data opts
  = Some [mkExportPair (TrimSpace u) (TrimSpace a)].
Proof.
  intros Hobj Hu Ha Hun Han. unfold derivePairsFromItemData.
  by rewrite Hobj, (singleTurn_shape obj u a).
Qed.


Lemma single_turn_item_witness :
  TrimSpace " Hi " ≠ "" /\ TrimSpace "Hello" ≠ ""
  /\ derivePairsFromItemData bothShapes (optsWith "none" 0)
     = Some [mkExportPair "Hi" "Hello"].
Proof.
  assert (TrimSpace " Hi " ≠ "") as Hu by (vm_compute; intros [=]).
  assert (TrimSpace "Hello" ≠ "") as Ha by (vm_compute; intros [=]).
  split; [exact Hu|]. split; [exact Ha|].
  exact (single_turn_item bothShapes _ " Hi " "Hello" (optsWith "none" 0)
           eq_refl eq_refl eq_refl Hu Ha).
Defined.

(** C8.  The Item Pair Deriver returns the empty sequence for data that is
    not valid JSON, for a JSON value that is not an object, and for an object
    that does not have the single-turn shape and has no [messages] key, or
    whose [messages] value is malformed or empty; and it never fails. *)
Theorem malformed_item_yields_nothing (opts : ExportOptions) :
  derivePairsFromItemData RawInvalid opts = Some []
  /\ (forall v : json,
        (forall members, v ≠ JObject members) ->
        derivePairsFromItemData (RawValue v) opts = Some [])
  /\ (forall (members : list (string * json)) (obj : gmap string json),
        unmarshalObject (RawValue (JObject members)) = Some obj ->
        (forall u a, ¬ Spec.singleTurnShape obj u a) ->
        obj !! "messages" = None
        \/ (exists mRaw, obj !! "messages" = Some mRaw
                         /\ (unmarshalMessages mRaw = None
                             \/ unmarshalMessages mRaw = Some [])) ->
        derivePairsFromItemData (RawValue (JObject members)) opts = Some [])
  /\ (forall data : RawMessage, is_Some (derivePairsFromItemData data opts)).
Proof.
  split; [done|]. split; [|split].
  - intros v Hv. unfold derivePairsFromItemData.
    destruct v; try done. by destruct (Hv members).
  - intros members obj Hobj Hno Hmsgs. unfold derivePairsFromItemData.
    rewrite Hobj, (singleTurn_no_shape obj Hno).
    destruct Hmsgs as [->|(mRaw & -> & [->| ->])]; done.
  - intros data. apply derivePairsFromItemData_total.
Qed.

Lemma malformed_item_yields_nothing_witness :
  derivePairsFromItemData
    (RawValue (JArray [JString "not"; JString "an"; JString "object"]))
    (optsWith "none" 0) = Some []
  /\ derivePairsFromItemData
       (RawValue (JObject [("user", JNumber "1"); ("assistant", JString "x");
                           ("messages", JObject [])]))
       (optsWith "none" 0) = Some [].
Proof.
  destruct (malformed_item_yields_nothing (optsWith "none" 0))
    as (_ & Hvalue & Hobject & _).
  split.
  - apply Hvalue. intros members [=].
  - eapply Hobject; [reflexivity| |].
    + intros u a (Hu & _). vm_compute in Hu. discriminate.
    + right. exists (JObject []). split; [reflexivity|]. by left.
Defined.

(** C9.  When [user] and [assistant] are both present but one of them is
    not a string or trims to the empty string, and [messages] is present and
    decodes to a non-empty message sequence, the pairs are those the Pair
    Deriver derives from that sequence. *)
Theorem single_turn_falls_through (data : RawMessage)
  (obj : gmap string json) (uRaw aRaw mRaw : json) (msgs : list Message)
  (opts : ExportOptions) :
  unmarshalObject data = Some obj ->
  obj !! "user" = Some uRaw -> obj !! "assistant" = Some aRaw ->
  (forall u, uRaw = JString u -> TrimSpace u = "")
  \/ (forall a, aRaw = JString a -> TrimSpace a = "") ->
  obj !! "messages" = Some mRaw ->
  unmarshalMessages mRaw = Some msgs -> msgs ≠ [] ->
  derivePairsFromItemData data opts = derivePairs msgs opts.
Proof.
  intros Hobj Hu Ha Hbad Hm Hmsgs Hne. unfold derivePairsFromItemData.
  rewrite Hobj, singleTurn_no_shape, Hm, Hmsgs.
  - rewrite decide_False; [done|]. by destruct msgs.
  - intros u a (Hu' & Ha' & Hun & Han).
    rewrite Hu in Hu'. rewrite Ha in Ha'.
    injection Hu' as ->. injection Ha' as ->.
    destruct Hbad as [Hbad|Hbad]; [by apply Hun, Hbad|by apply Han, Hbad].
Qed.


Lemma single_turn_falls_through_witness :
  derivePairsFromItemData blankUser (optsWith "none" 0)
  = Some [mkExportPair "Q" "R"].
Proof.
  rewrite (single_turn_falls_through blankUser _ (JString "  ")
             (JString "Hello") twoTurns [user "Q"; assistant "R"]
             (optsWith "none" 0) eq_refl eq_refl eq_refl).
  - reflexivity.
  - left. by intros u [= <-].
  - reflexivity.
  - reflexivity.
  - intros [=].
Defined.

(** C5.  [type=conversations] against a dataset whose kind is items, and
    [type=items] or [type=items_with_meta] without a positive [dataset_id]
    or against a dataset whose kind is not items, make [StreamExport] return
    an error with nothing written. *)
Theorem illegal_type_rejected (db : DB) (opts : ExportOptions) :
  (Type_ opts = "conversations" /\ 0 < DatasetID opts
   /\ exists ds, GetDataset db (DatasetID opts) = inr ds
                 /\ EqualFold_items (Kind ds) = true)
  \/ ((Type_ opts = "items" \/ Type_ opts = "items_with_meta")
      /\ (DatasetID opts <= 0
          \/ exists ds, GetDataset db (DatasetID opts) = inr ds
                        /\ EqualFold_items (Kind ds) = false)) ->
  exists err : error, StreamExport db opts = ([], Some err).
Proof.
  unfold StreamExport, dispatch. cbn [exportDefaults DatasetID].
  intros [(Ht & Hid & ds & Hds & Hkind)|(Ht & Hds)].
  - rewrite decide_True by lia. rewrite Hds, Hkind.
    unfold streamDatasetItems. cbn [exportDefaults Type_]. rewrite Ht.
    by eexists.
  - assert (exists err, streamByType db (exportDefaults opts)
                        = ([], Some err)) as Hby.
    { unfold streamByType. cbn [exportDefaults Type_].
      destruct Ht as [-> | ->]; by eexists. }
    destruct Hds as [Hid|(ds & Hds & Hkind)].
    + by rewrite decide_False by lia.
    + destruct (decide (DatasetID opts > 0)); [|done].
      by rewrite Hds, Hkind.
Qed.

Lemma illegal_type_rejected_witness :
  exists err : error,
    StreamExport store (optsMax "conversations" 2 0) = ([], Some err).
Proof.
  apply illegal_type_rejected. left.
  split; [reflexivity|]. split; [reflexivity|].
  exists (mkDataset 2 "qa" "items"). split; reflexivity.
Defined.


(** C6, as stated, fails for [context_turns]: with [context=window] and
    [context_turns] unset, a conversation of seven user turns is not
    exported as it is with [context_turns=6]. *)
Lemma documented_defaults_fail :
  StreamExport longStore (optsWith "window" 0)
  ≠ StreamExport longStore (Spec.documentedDefaults (optsWith "window" 0)).
Proof. vm_compute. intros [=]. Qed.

Lemma derivePairs_loop_window_zero msgs opts rs indices pairs :
  ContextTurns opts = 0 ->
  derivePairs_loop msgs opts "window" rs indices pairs
  = derivePairs_loop msgs (withContext opts "full") "full" rs indices pairs.
Proof.
  intros Hk. revert pairs.
  induction indices as [|i indices IH]; intros pairs; [done|].
  cbn [derivePairs_loop].
  assert (derivePairs_step msgs opts "window" rs i pairs
          = derivePairs_step msgs (withContext opts "full") "full" rs i pairs)
    as ->.
  { unfold derivePairs_step, promptFor.
    cbn [withContext IncludeSystem ContextTurns]. rewrite Hk. reflexivity. }
  destruct (derivePairs_step _ _ _ _ _ _); [apply IH|done].
Qed.

(** C6 (amended).  [StreamExport] behaves as if [type=pairs],
    [split=train], [status=approved], [context=none] and [role_style=labels]
    had been supplied for the fields left empty.  [context_turns] has no
    default in the engine: left at zero under [context=window] it gives the
    prompts of [context=full].  The default of 6 is the HTTP handler's, for
    a [context_turns] parameter that is absent or not an integer. *)
Theorem engine_defaults (db : DB) (opts : ExportOptions) :
  StreamExport db opts = StreamExport db (Spec.engineDefaults opts)
  /\ (forall msgs,
        Context opts = "window" -> ContextTurns opts = 0 ->
        derivePairs msgs opts = derivePairs msgs (withContext opts "full"))
  /\ (forall q : gmap string (list string),
        Atoi (Get q "context_turns") = None ->
        ContextTurns (handlerOptions q) = 6).
Proof.
  split; [|split].
  - unfold StreamExport. apply dispatch_ext; cbn; try done.
    + by repeat case_decide.
    + by repeat case_decide.
    + by repeat case_decide.
    + intros msgs. apply derivePairs_ext; cbn; try done; by repeat case_decide.
  - intros msgs Hc Hk. unfold derivePairs.
    cbn [withContext Context RoleStyle]. rewrite Hc.
    by apply derivePairs_loop_window_zero.
  - intros q Hq.
    assert (parseIntDefault (Get q "context_turns") 6 = 6) as Hdefault.
    { unfold parseIntDefault. rewrite Hq. by case_decide. }
    unfold handlerOptions. cbn [ContextTurns]. by rewrite Hdefault.
Qed.

Lemma engine_defaults_witness :
  derivePairs dialogue (optsWith "window" 0)
  = derivePairs dialogue (optsWith "full" 0)
  /\ ContextTurns (handlerOptions ∅) = 6.
Proof.
  destruct (engine_defaults longStore (optsWith "window" 0))
    as (_ & Hwindow & Hhandler).
  split.
  - exact (Hwindow dialogue eq_refl eq_refl).
  - exact (Hhandler ∅ eq_refl).
Defined.

(* ===================================================================== *)
(** ** The tests of the repository and the scenarios of the specification *)
(* ===================================================================== *)

(** TestDerivePairsFromItemData_UserAssistant. *)
Example test_UserAssistant :
  derivePairsFromItemData testUserAssistant (optsWith "none" 0)
  = Some [mkExportPair "Hi" "Hello"].
Proof. reflexivity. Qed.

(** TestDerivePairsFromItemData_Messages. *)
Example test_Messages :
  derivePairsFromItemData testMessages (optsWith "none" 0)
  = Some [mkExportPair "Hi" "Hello"].
Proof. reflexivity. Qed.

(** TestDerivePairsFromItemData_UnrecognizedShape. *)
Example test_UnrecognizedShape :
  derivePairsFromItemData testUnrecognized (optsWith "none" 0) = Some [].
Proof. reflexivity. Qed.

(** The end-to-end scenario: a system prelude, one user turn, one answer,
    exported with a window of six turns and labels. *)
Example scenario_window_labels :
  derivePairs [system "You are helpful"; user "Hi"; assistant "Hello"]
    (mkExportOptions "pairs" 0 "train" "approved" false "window" 6 "labels" 0)
  = Some [mkExportPair "User: Hi" "Hello"].
Proof. reflexivity. Qed.

(** The cap stops in the middle of the second conversation. *)
Example scenario_cap_mid_conversation :
  StreamExport store (optsMax "pairs" 1 3)
  = ([PairLine (mkExportPair "a" "A"); PairLine (mkExportPair "b" "B");
      PairLine (mkExportPair "c" "C1")], None).
Proof. reflexivity. Qed.

Example scenario_items_pairs :
  StreamExport store (optsMax "pairs" 2 0)
  = ([PairLine (mkExportPair "u" "v")], None).
Proof. reflexivity. Qed.

Example TrimSpace_examples :
  TrimSpace "  Hi there " = "Hi there"
  /\ TrimSpace (newline +:+ " " +:+ newline) = ""
  /\ TrimSpace
       (String (ascii_of_N 0xE2) (String (ascii_of_N 0x80)
          (String (ascii_of_N 0x83) "x"))
        +:+ String (ascii_of_N 0xC2) (String (ascii_of_N 0xA0) ""))
     = "x".
Proof. repeat split; reflexivity. Qed.

Example EqualFold_items_examples :
  EqualFold_items "items" = true /\ EqualFold_items "ITems" = true
  /\ EqualFold_items "item" = false
  /\ EqualFold_items "conversations" = false.
Proof. repeat split; reflexivity. Qed.

Example Atoi_examples :
  Atoi "6" = Some 6 /\ Atoi "-12" = Some (-12) /\ Atoi "+3" = Some 3
  /\ Atoi "" = None /\ Atoi "six" = None /\ Atoi "-" = None
  /\ Atoi "9223372036854775808" = None.
Proof. repeat split; reflexivity. Qed.

Example handler_defaults :
  handlerOptions ∅
  = mkExportOptions "pairs" 0 "train" "approved" false "none" 6 "labels" 0.
Proof. reflexivity. Qed.

(* ===================================================================== *)
(** ** Further properties of the pair deriver *)
(* ===================================================================== *)

Lemma derivePairs_sides (msgs : list Message) (opts : ExportOptions) :
  exists ps : list ExportPair,
    derivePairs msgs opts = Some ps
    /\ Forall (fun p => User p ≠ "" /\ Assistant p ≠ "") ps.
Proof.
  destruct (derivePairs_inv msgs opts) as (ps & Hps & Hall).
  exists ps. split; [done|]. apply Forall_forall. intros p Hp.
  destruct (Hall p Hp) as (i & m & u & _ & [_ Hans] & _ & _ & Huser & Hasst).
  split; [done|]. by rewrite Hasst.
Qed.

(** X1.  Whatever the options, the deriver returns, and no derived pair has
    an empty prompt or an empty completion. *)
Theorem derivePairs_nonempty (msgs : list Message) (opts : ExportOptions) :
  exists ps : list ExportPair,
    derivePairs msgs opts = Some ps
    /\ Forall (fun p => User p ≠ "" /\ Assistant p ≠ "") ps.
Proof. apply derivePairs_sides. Qed.

(** One iteration appends at most one pair, and none unless the message
    answers. *)
Lemma derivePairs_step_count msgs opts cm rs (i : nat) m pairs :
  msgs !! i = Some m ->
  exists new : list ExportPair,
    derivePairs_step msgs opts cm rs (Z.of_nat i) pairs = Some (pairs ++ new)
    /\ (length new <= length (filter Spec.answers [m]))%nat.
Proof.
  intros Hm. apply lookup_lt_Some in Hm as Hi.
  destruct (derivePairs_step_inv msgs opts cm rs i pairs Hi)
    as (new & Hnew & Hall).
  exists new. split; [done|].
  unfold derivePairs_step in Hnew. rewrite index_of_nat, Hm in Hnew.
  cbn [mbind option_bind] in Hnew.
  assert (forall l : list ExportPair, Some pairs = Some (pairs ++ l) -> l = [])
    as Hsame.
  { intros l [= Hl]. apply (app_inv_head pairs). by rewrite app_nil_r. }
  destruct (decide (Role_ m ≠ RoleAssistant)) as [Hr|Hr].
  { rewrite (Hsame _ Hnew). cbn. lia. }
  apply dec_stable in Hr.
  destruct (decide (TrimSpace (Content m) = "")) as [Hc|Hc].
  { rewrite (Hsame _ Hnew). cbn. lia. }
  rewrite (filter_cons_True Spec.answers) by done. rewrite filter_nil.
  destruct (findPrevRole msgs (Z.of_nat i - 1) RoleUser) as [j|]; [|done].
  cbn [mbind option_bind] in Hnew.
  destruct (decide (j < 0)).
  { rewrite (Hsame _ Hnew). cbn. lia. }
  destruct (promptFor msgs opts cm rs j) as [prompt|]; [|done].
  cbn [mbind option_bind] in Hnew.
  destruct (decide (prompt = "")).
  { rewrite (Hsame _ Hnew). cbn. lia. }
  injection Hnew as Hnew. apply app_inv_head in Hnew as <-. cbn. lia.
Qed.

Lemma derivePairs_loop_count msgs opts cm rs (lo n : nat) pairs :
  (lo + n <= length msgs)%nat ->
  exists new : list ExportPair,
    derivePairs_loop msgs opts cm rs (Z.of_nat <$> seq lo n) pairs
      = Some (pairs ++ new)
    /\ (length new
        <= length (filter Spec.answers (take n (drop lo msgs))))%nat.
Proof.
  revert lo pairs. induction n as [|n IH]; intros lo pairs Hn.
  - exists []. rewrite app_nil_r. split; [done|]. cbn. lia.
  - destruct (lookup_lt_is_Some_2 msgs lo) as [m Hm]; [lia|].
    cbn [seq fmap list_fmap derivePairs_loop].
    destruct (derivePairs_step_count msgs opts cm rs lo m pairs Hm)
      as (new1 & -> & H1).
    cbn [mbind option_bind].
    destruct (IH (S lo) (pairs ++ new1)) as (new2 & -> & H2); [lia|].
    exists (new1 ++ new2). rewrite app_assoc. split; [done|].
    rewrite (drop_S _ _ _ Hm). cbn [take].
    change (m :: take n (drop (S lo) msgs))
      with ([m] ++ take n (drop (S lo) msgs)).
    rewrite filter_app, !length_app. lia.
Qed.

(** X2.  The deriver emits at most one pair per assistant message with
    non-empty trimmed content. *)
Theorem derivePairs_at_most_answers (msgs : list Message)
  (opts : ExportOptions) :
  exists ps : list ExportPair,
    derivePairs msgs opts = Some ps
    /\ (length ps <= length (filter Spec.answers msgs))%nat.
Proof.
  unfold derivePairs. rewrite derivePairs_indices.
  destruct (derivePairs_loop_count msgs opts
              (if decide (Context opts = "") then "none" else Context opts)
              (if decide (RoleStyle opts = "") then "labels"
               else RoleStyle opts) 0 (length msgs) [])
    as (new & -> & Hlen); [lia|].
  exists new. split; [done|]. by rewrite drop_0, firstn_all in Hlen.
Qed.

(** Two settings that compute the same prompt for every user position
    derive the same pairs. *)
Lemma derivePairs_step_prompt_ext msgs o1 o2 cm1 cm2 rs1 rs2 (i : nat) pairs :
  (forall u : nat, (u < length msgs)%nat ->
     promptFor msgs o1 cm1 rs1 (Z.of_nat u)
     = promptFor msgs o2 cm2 rs2 (Z.of_nat u)) ->
  (i < length msgs)%nat ->
  derivePairs_step msgs o1 cm1 rs1 (Z.of_nat i) pairs
  = derivePairs_step msgs o2 cm2 rs2 (Z.of_nat i) pairs.
Proof.
  intros Hprompt Hi. unfold derivePairs_step.
  destruct (index msgs (Z.of_nat i)) as [m|]; [|done]. cbn [mbind option_bind].
  destruct (decide (Role_ m ≠ RoleAssistant)); [done|].
  destruct (decide (TrimSpace (Content m) = "")); [done|].
  destruct (findPrevRole_spec msgs i Hi) as (j & -> & Hj).
  cbn [mbind option_bind].
  destruct (decide (j < 0)); [done|].
  destruct (Spec.nearestPrecedingUser msgs i); [|lia].
  destruct Hj as [Hj _].
  replace j with (Z.of_nat (Z.to_nat j)) by lia.
  rewrite Hprompt by lia. done.
Qed.

Lemma derivePairs_loop_prompt_ext msgs o1 o2 cm1 cm2 rs1 rs2 (lo n : nat)
  pairs :
  (forall u : nat, (u < length msgs)%nat ->
     promptFor msgs o1 cm1 rs1 (Z.of_nat u)
     = promptFor msgs o2 cm2 rs2 (Z.of_nat u)) ->
  (lo + n <= length msgs)%nat ->
  derivePairs_loop msgs o1 cm1 rs1 (Z.of_nat <$> seq lo n) pairs
  = derivePairs_loop msgs o2 cm2 rs2 (Z.of_nat <$> seq lo n) pairs.
Proof.
  intros Hprompt. revert lo pairs.
  induction n as [|n IH]; intros lo pairs Hn; [done|].
  cbn [seq fmap list_fmap derivePairs_loop].
  rewrite (derivePairs_step_prompt_ext msgs o1 o2 cm1 cm2 rs1 rs2) by (done || lia).
  destruct (derivePairs_step msgs o2 cm2 rs2 (Z.of_nat lo) pairs); [|done].
  cbn [mbind option_bind]. apply IH. lia.
Qed.

Lemma userPositions_length msgs (n : nat) :
  (n <= length msgs)%nat ->
  length (filter (Spec.userAt msgs) (seq 0 n)) = Spec.userTurns (take n msgs).
Proof.
  induction n as [|n IH]; intros Hn.
  - by rewrite take_0.
  - destruct (lookup_lt_is_Some_2 msgs n) as [m Hm]; [lia|].
    rewrite seq_S, filter_app, length_app, IH by lia.
    rewrite (take_S_r _ _ _ Hm). unfold Spec.userTurns.
    rewrite filter_app, length_app. f_equal. cbn [Nat.add].
    destruct (decide (Role_ m = RoleUser)) as [Hu|Hu].
    + rewrite (filter_cons_True (Spec.userAt msgs))
        by (by apply (userAt_lookup _ _ _ Hm)).
      by rewrite (filter_cons_True Spec.isUser).
    + rewrite (filter_cons_False (Spec.userAt msgs))
        by (by rewrite (userAt_lookup _ _ _ Hm)).
      by rewrite (filter_cons_False Spec.isUser).
Qed.

Lemma userTurns_take msgs (n : nat) :
  (Spec.userTurns (take n msgs) <= Spec.userTurns msgs)%nat.
Proof.
  rewrite <- (take_drop n msgs) at 2. unfold Spec.userTurns.
  rewrite filter_app, length_app. lia.
Qed.

Lemma rangeStart_beyond msgs (upto k : nat) :
  (upto < length msgs)%nat -> (Spec.userTurns msgs < k)%nat ->
  Spec.rangeStart msgs upto k = 0%nat.
Proof.
  intros Hup Hk. unfold Spec.rangeStart. rewrite decide_True; [done|].
  right. unfold Spec.userPositions. rewrite userPositions_length by lia.
  pose proof (userTurns_take msgs (S upto)). lia.
Qed.

(** X3.  A window of more turns than the conversation has user messages is
    the full history: the pairs are those of [context=full]. *)
Theorem window_beyond_history (msgs : list Message) (opts : ExportOptions) :
  Context opts = "window" ->
  Z.of_nat (Spec.userTurns msgs) < ContextTurns opts ->
  derivePairs msgs opts = derivePairs msgs (withContext opts "full").
Proof.
  intros Hc Hk. unfold derivePairs. rewrite derivePairs_indices.
  cbn [withContext Context RoleStyle]. rewrite Hc.
  apply derivePairs_loop_prompt_ext; [|lia].
  intros u Hu. destruct (lookup_lt_is_Some_2 msgs u Hu) as [mu Hmu].
  rewrite !(promptFor_spec _ _ _ _ _ _ Hmu).
  cbn [withContext IncludeSystem ContextTurns]. cbn.
  unfold Spec.renderContext.
  rewrite rangeStart_beyond by lia. done.
Qed.

Lemma window_beyond_history_witness :
  Context (optsWith "window" 5) = "window"
  /\ Z.of_nat (Spec.userTurns dialogue) < ContextTurns (optsWith "window" 5)
  /\ derivePairs dialogue (optsWith "window" 5)
     = derivePairs dialogue (optsWith "full" 5).
Proof.
  split; [reflexivity|]. split; [reflexivity|].
  exact (window_beyond_history dialogue (optsWith "window" 5)
           eq_refl eq_refl).
Defined.

(** With as many user turns as the window asks for, the window and the full
    history differ: the system prelude is dropped. *)
Example window_drops_prelude :
  derivePairs [system "S"; user "Q"; assistant "A"]
    (mkExportOptions "" 0 "" "" true "window" 1 "" 0)
  = Some [mkExportPair "User: Q" "A"]
  /\ derivePairs [system "S"; user "Q"; assistant "A"]
       (mkExportOptions "" 0 "" "" true "full" 1 "" 0)
     = Some [mkExportPair ("System: S" +:+ newline +:+ "User: Q") "A"].
Proof. split; reflexivity. Qed.

(** X4.  With [context=none] the pairs do not depend on [include_system],
    [context_turns] or [role_style]. *)
Theorem context_none_ignores_rendering (msgs : list Message)
  (o1 o2 : ExportOptions) :
  Context o1 = "none" -> Context o2 = "none" ->
  derivePairs msgs o1 = derivePairs msgs o2.
Proof.
  intros H1 H2. rewrite !derivePairs_none_like; by rewrite ?H1, ?H2.
Qed.

Lemma context_none_ignores_rendering_witness :
  derivePairs dialogue (mkExportOptions "" 0 "" "" true "none" 3 "plain" 0)
  = derivePairs dialogue (optsWith "none" 0).
Proof.
  exact (context_none_ignores_rendering dialogue
           (mkExportOptions "" 0 "" "" true "none" 3 "plain" 0)
           (optsWith "none" 0) eq_refl eq_refl).
Defined.

(* ===================================================================== *)
(** ** Further properties of the streams *)
(* ===================================================================== *)


Lemma dispatch_unlimited db opts :
  MaxExamples opts <= 0 ->
  dispatch db opts = dispatch db (withMaxExamples opts 0).
Proof.
  intros HN.
  assert (forall {A} (enc : A -> Line) rows,
            streamRows enc (MaxExamples opts) rows 0
            = streamRows enc 0 rows 0) as Hrows.
  { intros A enc rows. by rewrite !streamRows_unlimited by lia. }
  assert (forall {A} (d : A -> option (list ExportPair)) rows,
            (forall row, is_Some (d row)) ->
            streamPairRows d (MaxExamples opts) rows 0
            = streamPairRows d 0 rows 0) as Hprs.
  { intros A d rows Hd.
    assert (Forall (fun row => is_Some (d row)) rows) as Hall
      by (apply Forall_forall; auto).
    by rewrite !streamPairRows_unlimited by (done || lia). }
  assert (forall msgs, derivePairs msgs (withMaxExamples opts 0)
                       = derivePairs msgs opts) as Hp.
  { intros msgs. by apply derivePairs_ext. }
  unfold dispatch, streamByType, streamDatasetItems, streamPairs,
    streamConversations, streamPairsFromDatasetItems, streamDatasetItemsRaw,
    streamDatasetItemsWithMeta.
  change (conversationsFilterQuery db (withMaxExamples opts 0))
    with (conversationsFilterQuery db opts).
  cbn [withMaxExamples Type_ DatasetID MaxExamples].
  rewrite (streamPairRows_ext
             (fun c => derivePairs (Messages c) (withMaxExamples opts 0))
             (fun c => derivePairs (Messages c) opts)) by (intros; apply Hp).
  rewrite (streamPairRows_ext
             (fun it => derivePairsFromItemData (Data it)
                          (withMaxExamples opts 0))
             (fun it => derivePairsFromItemData (Data it) opts))
    by (intros; by apply derivePairsFromItemData_ext).
  repeat case_match; rewrite ?Hrows; try done; apply Hprs; intros;
    (apply derivePairs_total || apply derivePairsFromItemData_total).
Qed.

(** X5.  A negative [max_examples] is no cap: the run is the unlimited one. *)
Theorem negative_max_is_unlimited (db : DB) (opts : ExportOptions) :
  MaxExamples opts < 0 ->
  StreamExport db opts = StreamExport db (withMaxExamples opts 0).
Proof.
  intros HN. unfold StreamExport.
  change (exportDefaults (withMaxExamples opts 0))
    with (withMaxExamples (exportDefaults opts) 0).
  apply dispatch_unlimited. cbn. lia.
Qed.

Lemma negative_max_is_unlimited_witness :
  MaxExamples (optsMax "pairs" 0 (-1)) < 0
  /\ StreamExport store (optsMax "pairs" 0 (-1))
     = StreamExport store (optsMax "pairs" 0 0).
Proof.
  split; [reflexivity|].
  exact (negative_max_is_unlimited store (optsMax "pairs" 0 (-1)) eq_refl).
Defined.

(** X6.  A positive [dataset_id] that names no dataset makes [StreamExport]
    return [ErrNotFound] with nothing written, whatever the type. *)
Theorem unknown_dataset_not_found (db : DB) (opts : ExportOptions) :
  0 < DatasetID opts ->
  Forall (fun d => DsID d ≠ DatasetID opts) (datasets db) ->
  StreamExport db opts = ([], Some ErrNotFound).
Proof.
  intros Hid Hnone. unfold StreamExport, dispatch.
  cbn [exportDefaults DatasetID]. rewrite decide_True by lia.
  unfold GetDataset.
  destruct (List.find _ (datasets db)) as [d|] eqn:Hfind; [|done].
  apply find_some in Hfind as [Hin Hd].
  apply bool_decide_eq_true in Hd.
  rewrite Forall_forall in Hnone. apply list_elem_of_In in Hin.
  by destruct (Hnone d Hin).
Qed.

Lemma unknown_dataset_not_found_witness :
  0 < DatasetID (optsMax "pairs" 9 0)
  /\ StreamExport store (optsMax "pairs" 9 0) = ([], Some ErrNotFound).
Proof.
  split; [reflexivity|].
  apply unknown_dataset_not_found; [reflexivity|].
  repeat constructor; intros [=].
Defined.



(** X7.  For a dataset whose kind is items the export does not depend on
    [split] or [status]: items carry neither. *)
Theorem items_ignore_split_and_status (db : DB) (opts : ExportOptions)
  (ds : Dataset) (split status : string) :
  0 < DatasetID opts ->
  GetDataset db (DatasetID opts) = inr ds ->
  EqualFold_items (Kind ds) = true ->
  StreamExport db (withFilters opts split status) = StreamExport db opts.
Proof.
  intros Hid Hds Hkind. unfold StreamExport, dispatch.
  cbn [exportDefaults withFilters DatasetID].
  rewrite !decide_True by lia. rewrite Hds, Hkind.
  unfold streamDatasetItems, streamPairsFromDatasetItems,
    streamDatasetItemsRaw, streamDatasetItemsWithMeta.
  cbn [exportDefaults withFilters Type_ DatasetID MaxExamples].
  rewrite (streamPairRows_ext _
             (fun it => derivePairsFromItemData (Data it)
                          (exportDefaults opts))); [done|].
  intros it. apply derivePairsFromItemData_ext.
  intros msgs. by apply derivePairs_ext.
Qed.

Lemma items_ignore_split_and_status_witness :
  0 < DatasetID (optsMax "pairs" 2 0)
  /\ StreamExport store (withFilters (optsMax "pairs" 2 0) "test" "draft")
     = StreamExport store (optsMax "pairs" 2 0).
Proof.
  split; [reflexivity|].
  exact (items_ignore_split_and_status store (optsMax "pairs" 2 0)
           (mkDataset 2 "qa" "items") "test" "draft"
           eq_refl eq_refl eq_refl).
Defined.

(* ===================================================================== *)
(** ** Order and content of the exported rows *)
(* ===================================================================== *)

(** The records of an uncapped run over conversations, and of an uncapped
    run over an items dataset. *)
Lemma conversation_run_records db opts :
  MaxExamples opts <= 0 ->
  DatasetID opts <= 0
  \/ (exists ds, GetDataset db (DatasetID opts) = inr ds
                 /\ EqualFold_items (Kind ds) = false) ->
  exists rows : list Conversation,
    selectedConversations db opts rows
    /\ (StreamExport db opts).1
       = if decide ((if decide (Type_ opts = "") then "pairs"
                     else Type_ opts) = "pairs")
         then PairLine
                <$> derivable (fun c => derivePairs (Messages c) opts) rows
         else if decide ((if decide (Type_ opts = "") then "pairs"
                          else Type_ opts) = "conversations")
         then conversationLine <$> rows
         else [].
Proof.
  intros HN Hds. pose proof (unlimited_records db opts) as Hrec.
  rewrite <- (dispatch_unlimited db (exportDefaults opts)) in Hrec
    by (cbn; lia).
  fold (StreamExport db opts) in Hrec.
  unfold totalDerivable in Hrec. cbn zeta in Hrec.
  destruct Hds as [Hid|(ds & Hds & Hkind)].
  - by rewrite decide_False in Hrec by lia.
  - destruct (decide (0 < DatasetID opts)); [|done].
    by rewrite Hds, Hkind in Hrec.
Qed.

Lemma items_run_records db opts (ds : Dataset) :
  0 < DatasetID opts -> GetDataset db (DatasetID opts) = inr ds ->
  EqualFold_items (Kind ds) = true -> MaxExamples opts <= 0 ->
  exists rows : list DatasetItem,
    selectedItems db opts rows
    /\ (StreamExport db opts).1
       = if decide ((if decide (Type_ opts = "") then "pairs"
                     else Type_ opts) = "pairs")
         then PairLine
                <$> derivable
                      (fun it => derivePairsFromItemData (Data it) opts) rows
         else if decide ((if decide (Type_ opts = "") then "pairs"
                          else Type_ opts) = "items")
         then (fun it => RawLine (Data it)) <$> rows
         else if decide ((if decide (Type_ opts = "") then "pairs"
                          else Type_ opts) = "items_with_meta")
         then metaLine <$> rows
         else [].
Proof.
  intros Hid Hds Hkind HN. pose proof (unlimited_records db opts) as Hrec.
  rewrite <- (dispatch_unlimited db (exportDefaults opts)) in Hrec
    by (cbn; lia).
  fold (StreamExport db opts) in Hrec.
  unfold totalDerivable in Hrec. cbn zeta in Hrec.
  rewrite decide_True in Hrec by lia. by rewrite Hds, Hkind in Hrec.
Qed.

(** X8.  The lines an uncapped conversations export writes are one line per
    selected conversation (status, dataset and split filters with their
    defaults), each once, by ascending id. *)
Theorem conversations_export_rows (db : DB) (opts : ExportOptions) :
  Type_ opts = "conversations" -> MaxExamples opts <= 0 ->
  DatasetID opts <= 0
  \/ (exists ds, GetDataset db (DatasetID opts) = inr ds
                 /\ EqualFold_items (Kind ds) = false) ->
  exists rows : list Conversation,
    (StreamExport db opts).1 = conversationLine <$> rows
    /\ rows ≡ₚ filter (selects opts) (conversations db)
    /\ StronglySorted (fun a b => ConvID a <= ConvID b) rows.
Proof.
  intros Ht HN Hds.
  destruct (conversation_run_records db opts HN Hds) as (rows & Hsel & Hrows).
  exists rows. split; [|exact Hsel].
  rewrite Hrows, Ht. reflexivity.
Qed.

Lemma conversations_export_rows_witness :
  exists rows : list Conversation,
    (StreamExport store (optsMax "conversations" 1 0)).1
    = conversationLine <$> rows
    /\ ConvID <$> rows = [1; 2].
Proof.
  destruct (conversations_export_rows store (optsMax "conversations" 1 0))
    as (rows & Hrows & _); [reflexivity|done|..].
  { right. by exists (mkDataset 1 "chat" "conversations"). }
  exists rows. split; [exact Hrows|].
  vm_compute in Hrows.
  destruct rows as [|c1 [|c2 [|c3 rows]]]; try discriminate.
  injection Hrows as H1 H2. destruct c1, c2. cbn in *. congruence.
Defined.

(** X9.  The lines an uncapped pairs export over conversations writes are,
    conversation after conversation by ascending id, the pairs derived from
    each selected conversation. *)
Theorem pairs_export_rows (db : DB) (opts : ExportOptions) :
  Type_ opts = "pairs" \/ Type_ opts = "" -> MaxExamples opts <= 0 ->
  DatasetID opts <= 0
  \/ (exists ds, GetDataset db (DatasetID opts) = inr ds
                 /\ EqualFold_items (Kind ds) = false) ->
  exists rows : list Conversation,
    (StreamExport db opts).1
    = PairLine <$> derivable (fun c => derivePairs (Messages c) opts) rows
    /\ rows ≡ₚ filter (selects opts) (conversations db)
    /\ StronglySorted (fun a b => ConvID a <= ConvID b) rows.
Proof.
  intros Ht HN Hds.
  destruct (conversation_run_records db opts HN Hds) as (rows & Hsel & Hrows).
  exists rows. split; [|exact Hsel].
  rewrite Hrows. by destruct Ht as [-> | ->].
Qed.

Lemma pairs_export_rows_witness :
  exists rows : list Conversation,
    (StreamExport store (optsMax "" 0 0)).1
    = PairLine <$> derivable
                     (fun c => derivePairs (Messages c) (optsMax "" 0 0))
                     rows
    /\ rows ≡ₚ filter (selects (optsMax "" 0 0)) (conversations store).
Proof.
  destruct (pairs_export_rows store (optsMax "" 0 0))
    as (rows & Hrows & Hperm & _); [by right|done|by left|].
  by exists rows.
Defined.

(** X10.  An uncapped export of an items dataset reads the items of that
    dataset only, each once and by ascending id: the lines [items] writes
    are the stored values as they are, those of [items_with_meta] wrap each
    value with its id, dataset and source reference, those of [pairs] are
    the pairs derived from each item. *)
Theorem items_export_rows (db : DB) (opts : ExportOptions) (ds : Dataset) :
  0 < DatasetID opts -> GetDataset db (DatasetID opts) = inr ds ->
  EqualFold_items (Kind ds) = true -> MaxExamples opts <= 0 ->
  exists rows : list DatasetItem,
    rows ≡ₚ filter (fun it => ItemDatasetID it = DatasetID opts)
              (dataset_items db)
    /\ StronglySorted (fun a b => ItemID a <= ItemID b) rows
    /\ (Type_ opts = "items" ->
        (StreamExport db opts).1 = (fun it => RawLine (Data it)) <$> rows)
    /\ (Type_ opts = "items_with_meta" ->
        (StreamExport db opts).1 = metaLine <$> rows)
    /\ (Type_ opts = "pairs" \/ Type_ opts = "" ->
        (StreamExport db opts).1
        = PairLine
            <$> derivable
                  (fun it => derivePairsFromItemData (Data it) opts) rows).
Proof.
  intros Hid Hds Hkind HN.
  destruct (items_run_records db opts ds Hid Hds Hkind HN)
    as (rows & [Hperm Hsorted] & Hrows).
  exists rows. split; [exact Hperm|]. split; [exact Hsorted|].
  rewrite Hrows. split; [|split].
  - by intros ->.
  - by intros ->.
  - by intros [-> | ->].
Qed.

Lemma items_export_rows_witness :
  0 < DatasetID (optsMax "items" 2 0)
  /\ MaxExamples (optsMax "items" 2 0) <= 0
  /\ exists rows : list DatasetItem,
       rows ≡ₚ filter (fun it => ItemDatasetID it = 2) (dataset_items store)
       /\ (StreamExport store (optsMax "items" 2 0)).1
          = (fun it => RawLine (Data it)) <$> rows.
Proof.
  split; [reflexivity|]. split; [done|].
  destruct (items_export_rows store (optsMax "items" 2 0)
              (mkDataset 2 "qa" "items") eq_refl eq_refl eq_refl)
    as (rows & Hperm & _ & Hraw & _); [done|].
  exists rows. split; [exact Hperm|exact (Hraw eq_refl)].
Defined.

(* ===================================================================== *)
(** ** Trimming *)
(* ===================================================================== *)

Lemma append_nil_r (a : string) : a +:+ "" = a.
Proof. induction a as [|x a IH]; [done|]. by rewrite append_cons, IH. Qed.

Lemma length_append (a b : string) :
  String.length (a +:+ b) = (String.length a + String.length b)%nat.
Proof.
  induction a as [|x a IH]; [done|]. rewrite append_cons. cbn. by rewrite IH.
Qed.

Lemma rev_app_append (s1 s2 : string) :
  String.rev_app s1 s2 = String.rev s1 +:+ s2.
Proof.
  revert s2. induction s1 as [|a s1 IH]; intros s2; [done|].
  unfold String.rev. cbn [String.rev_app].
  rewrite (IH (String a s2)), (IH (String a "")).
  by rewrite append_assoc.
Qed.

Lemma rev_cons (a : ascii) (s : string) :
  String.rev (String a s) = String.rev s +:+ String a "".
Proof. unfold String.rev at 1. cbn [String.rev_app]. apply rev_app_append. Qed.

Lemma rev_append (s1 s2 : string) :
  String.rev (s1 +:+ s2) = String.rev s2 +:+ String.rev s1.
Proof.
  induction s1 as [|a s1 IH].
  - change ("" +:+ s2) with s2. by rewrite append_nil_r.
  - by rewrite append_cons, !rev_cons, IH, append_assoc.
Qed.

Lemma rev_involutive (s : string) : String.rev (String.rev s) = s.
Proof.
  induction s as [|a s IH]; [done|].
  by rewrite rev_cons, rev_append, IH.
Qed.

(** One step of the scan from the left: nothing to drop, or a non-empty
    front is dropped and the scan goes on. *)
Lemma trimLeft_step (s : string) :
  (startsWithSpace s = false /\ trimLeft s = s)
  \/ (startsWithSpace s = true
      /\ exists w t, s = w +:+ t /\ w ≠ "" /\ trimLeft s = trimLeft t).
Proof.
  destruct s as [|c1 [|c2 [|c3 t3]]]; cbn [startsWithSpace trimLeft].
  - by left.
  - destruct (asciiSpace c1); [right|by left].
    split; [done|]. by exists (String c1 ""), "".
  - destruct (asciiSpace c1).
    { right. split; [done|]. by exists (String c1 ""), (String c2 ""). }
    destruct (space2 c1 c2); [right|by left].
    split; [done|]. by exists (String c1 (String c2 "")), "".
  - destruct (asciiSpace c1).
    { right. split; [done|].
      by exists (String c1 ""), (String c2 (String c3 t3)). }
    destruct (space2 c1 c2).
    { right. split; [done|].
      by exists (String c1 (String c2 "")), (String c3 t3). }
    destruct (space3 c1 c2 c3); [right|by left].
    split; [done|]. by exists (String c1 (String c2 (String c3 ""))), t3.
Qed.

(** The same for the scan of the reversed string. *)
Lemma trimLeftRev_step (s : string) :
  trimLeftRev s = s
  \/ exists w t, s = w +:+ t /\ w ≠ "" /\ trimLeftRev s = trimLeftRev t.
Proof.
  destruct s as [|c1 [|c2 [|c3 t3]]]; cbn [trimLeftRev].
  - by left.
  - destruct (asciiSpace c1); [right|by left].
    by exists (String c1 ""), "".
  - destruct (asciiSpace c1).
    { right. by exists (String c1 ""), (String c2 ""). }
    destruct (space2 c2 c1); [right|by left].
    by exists (String c1 (String c2 "")), "".
  - destruct (asciiSpace c1).
    { right. by exists (String c1 ""), (String c2 (String c3 t3)). }
    destruct (space2 c2 c1).
    { right. by exists (String c1 (String c2 "")), (String c3 t3). }
    destruct (space3 c3 c2 c1); [right|by left].
    by exists (String c1 (String c2 (String c3 ""))), t3.
Qed.

Lemma length_pos_nonempty (w : string) : w ≠ "" -> (0 < String.length w)%nat.
Proof. destruct w; [done|]. cbn. lia. Qed.

(** What the scan from the left returns: a tail of the string that does not
    start with white space. *)
Lemma trimLeft_spec (s : string) :
  startsWithSpace (trimLeft s) = false
  /\ exists w, s = w +:+ trimLeft s.
Proof.
  remember (String.length s) as n eqn:Hn. revert s Hn.
  induction n as [n IH] using lt_wf_ind. intros s ->.
  destruct (trimLeft_step s) as [[Hno Hfix]|[_ (w & t & Hs & Hw & Hstep)]].
  - rewrite Hfix. split; [done|]. by exists "".
  - destruct (IH (String.length t)) with (s := t) as [Hno [w' Hw']]; [|done|].
    { rewrite Hs, length_append. apply length_pos_nonempty in Hw. lia. }
    rewrite Hstep. split; [done|].
    exists (w +:+ w'). rewrite append_assoc, <- Hw'. done.
Qed.

Lemma trimLeft_fixed (s : string) :
  startsWithSpace s = false -> trimLeft s = s.
Proof.
  intros Hno. destruct (trimLeft_step s) as [[_ ?]|[Hyes _]]; [done|].
  congruence.
Qed.

(** The scan of the reversed string returns a tail on which it changes
    nothing. *)
Lemma trimLeftRev_spec (s : string) :
  trimLeftRev (trimLeftRev s) = trimLeftRev s
  /\ exists w, s = w +:+ trimLeftRev s.
Proof.
  remember (String.length s) as n eqn:Hn. revert s Hn.
  induction n as [n IH] using lt_wf_ind. intros s ->.
  destruct (trimLeftRev_step s) as [Hfix|(w & t & Hs & Hw & Hstep)].
  - rewrite !Hfix. split; [done|]. by exists "".
  - destruct (IH (String.length t)) with (s := t) as [Hidem [w' Hw']]; [|done|].
    { rewrite Hs, length_append. apply length_pos_nonempty in Hw. lia. }
    rewrite Hstep. split; [done|].
    exists (w +:+ w'). rewrite append_assoc, <- Hw'. done.
Qed.

Lemma startsWithSpace_prefix (p w : string) :
  startsWithSpace (p +:+ w) = false -> startsWithSpace p = false.
Proof.
  destruct p as [|c1 [|c2 [|c3 p3]]]; [done|..];
    rewrite ?append_cons; cbn [startsWithSpace].
  - change ("" +:+ w) with w. intros [H1 _]%orb_false_elim.
    by rewrite H1.
  - change ("" +:+ w) with w. intros [H1 H2]%orb_false_elim.
    rewrite H1. destruct w; by apply orb_false_elim in H2 as [-> _].
  - done.
Qed.

(** The right end is cut from a string: what remains is a front of it. *)
Lemma trimRight_prefix (s : string) : exists w, s = trimRight s +:+ w.
Proof.
  unfold trimRight.
  destruct (trimLeftRev_spec (String.rev s)) as [_ [w Hw]].
  exists (String.rev w).
  rewrite <- rev_append, <- Hw. by rewrite rev_involutive.
Qed.

Lemma trimRight_idem (s : string) : trimRight (trimRight s) = trimRight s.
Proof.
  unfold trimRight. rewrite rev_involutive.
  by destruct (trimLeftRev_spec (String.rev s)) as [-> _].
Qed.

(** [strings.TrimSpace] leaves a trimmed string as it is. *)
Lemma TrimSpace_idem (s : string) : TrimSpace (TrimSpace s) = TrimSpace s.
Proof.
  unfold TrimSpace.
  destruct (trimLeft_spec s) as [Hno _].
  destruct (trimRight_prefix (trimLeft s)) as [w Hw].
  rewrite Hw in Hno. apply startsWithSpace_prefix in Hno.
  by rewrite (trimLeft_fixed _ Hno), trimRight_idem.
Qed.

(* ===================================================================== *)
(** ** Normalisation *)
(* ===================================================================== *)

Section NormalizeFacts.
Variable ToLower : string -> string.

Lemma NormalizeSplit_ok (s r : string) :
  NormalizeSplit ToLower s = (r, true) -> knownSplit r.
Proof.
  unfold NormalizeSplit. case_decide as Hk; [|done]. by intros [= <-].
Qed.

Lemma NormalizeConversationStatus_ok (s r : string) :
  NormalizeConversationStatus ToLower s = (r, true) -> knownStatus r.
Proof.
  unfold NormalizeConversationStatus. case_decide as Hk; [|done].
  by intros [= <-].
Qed.

Lemma defaultMeta_Some (meta : option json) : defaultMeta meta ≠ None.
Proof. by destruct meta. Qed.

Lemma upsertMessages_spec status msgs out :
  upsertMessages status msgs = inr out ->
  Forall normalizedMessage out
  /\ Role_ <$> out = Role_ <$> msgs
  /\ Content <$> out = (fun m => TrimSpace (Content m)) <$> msgs
  /\ (status ≠ ConversationStatusDraft -> Forall (fun m => Content m ≠ "") out).
Proof.
  revert out. induction msgs as [|m msgs IH]; intros out; cbn [upsertMessages].
  - intros [= <-]. by repeat split.
  - destruct (decide (_ ∧ _)) as [|Hc]; [done|].
    destruct (decide (knownRole (Role_ m))) as [Hr|]; [|done].
    destruct (upsertMessages status msgs) as [|rest]; [done|].
    intros [= <-]. destruct (IH rest eq_refl) as (Hn & Hroles & Hcont & Hne).
    split; [|split; [|split]].
    + constructor; [|done]. split; [done|]. cbn.
      split; [apply TrimSpace_idem|]. split; [apply TrimSpace_idem|].
      apply defaultMeta_Some.
    + cbn. by rewrite Hroles.
    + cbn. by rewrite Hcont.
    + intros Hd. constructor; [|by apply Hne]. cbn.
      intros Hempty. by apply Hc.
Qed.

Lemma proposalMessages_spec msgs out :
  proposalMessages msgs = inr out ->
  Forall normalizedMessage out
  /\ Role_ <$> out = Role_ <$> msgs
  /\ Content <$> out = (fun m => TrimSpace (Content m)) <$> msgs
  /\ Forall (fun m => Content m ≠ "") out.
Proof.
  revert out. induction msgs as [|m msgs IH]; intros out;
    cbn [proposalMessages].
  - intros [= <-]. by repeat split.
  - destruct (decide (knownRole (Role_ m))) as [Hr|]; [|done].
    destruct (decide (TrimSpace (Content m) = "")) as [|Hc]; [done|].
    destruct (proposalMessages msgs) as [|rest]; [done|].
    intros [= <-]. destruct (IH rest eq_refl) as (Hn & Hroles & Hcont & Hne).
    split; [|split; [|split]].
    + constructor; [|done]. split; [done|]. cbn.
      split; [apply TrimSpace_idem|]. split; [apply TrimSpace_idem|].
      apply defaultMeta_Some.
    + cbn. by rewrite Hroles.
    + cbn. by rewrite Hcont.
    + by constructor.
Qed.

Lemma importMessages_spec i msgs out :
  importMessages i msgs = inr out ->
  Forall normalizedMessage out
  /\ Role_ <$> out = Role_ <$> msgs
  /\ Content <$> out = (fun m => TrimSpace (Content m)) <$> msgs
  /\ Forall (fun m => Content m ≠ "") out.
Proof.
  revert i out. induction msgs as [|m msgs IH]; intros i out;
    cbn [importMessages].
  - intros [= <-]. by repeat split.
  - destruct (decide (TrimSpace (Content m) = "")) as [|Hc]; [done|].
    destruct (decide (knownRole (Role_ m))) as [Hr|]; [|done].
    destruct (importMessages (S i) msgs) as [|rest] eqn:Hrest; [done|].
    intros [= <-]. destruct (IH _ rest Hrest) as (Hn & Hroles & Hcont & Hne).
    split; [|split; [|split]].
    + constructor; [|done]. split; [done|]. cbn.
      split; [apply TrimSpace_idem|]. split; [apply TrimSpace_idem|].
      apply defaultMeta_Some.
    + cbn. by rewrite Hroles.
    + cbn. by rewrite Hcont.
    + by constructor.
Qed.

Lemma normalizeConversationUpsert_inr (req : upsertConversationRequest.t)
  (c : Conversation) :
  normalizeConversationUpsert ToLower req = inr c ->
  0 < ConvDatasetID c /\ knownSplit (ConvSplit c) /\ knownStatus (ConvStatus c)
  /\ Messages c ≠ [] /\ Forall normalizedMessage (Messages c)
  /\ Role_ <$> Messages c = Role_ <$> upsertConversationRequest.Messages req
  /\ (ConvStatus c ≠ ConversationStatusDraft ->
      Forall (fun m => Content m ≠ "") (Messages c)).
Proof.
  unfold normalizeConversationUpsert.
  destruct (NormalizeSplit ToLower _) as [split [|]] eqn:Hsplit; [|done].
  destruct (NormalizeConversationStatus ToLower _) as [status [|]] eqn:Hstatus;
    [|done].
  cbn [negb].
  destruct (decide (upsertConversationRequest.DatasetID req <= 0)); [done|].
  destruct (decide (length _ = 0%nat)) as [|Hlen]; [done|].
  destruct (upsertMessages status _) as [|msgs] eqn:Hmsgs; [done|].
  intros [= <-]. cbn.
  destruct (upsertMessages_spec _ _ _ Hmsgs) as (Hn & Hroles & _ & Hne).
  split; [lia|]. split; [by eapply NormalizeSplit_ok|].
  split; [by eapply NormalizeConversationStatus_ok|].
  split; [|done].
  intros ->. apply Hlen. by rewrite <- (length_fmap Role_), <- Hroles.
Qed.

Lemma normalizeConversationFromProposal_inr (req : createProposalRequest.t)
  (c : Conversation) :
  normalizeConversationFromProposal ToLower req = inr c ->
  0 < ConvDatasetID c /\ knownSplit (ConvSplit c)
  /\ ConvStatus c = ConversationStatusPending
  /\ Messages c ≠ [] /\ Forall normalizedMessage (Messages c)
  /\ Forall (fun m => Content m ≠ "") (Messages c).
Proof.
  unfold normalizeConversationFromProposal.
  destruct (NormalizeSplit ToLower _) as [split [|]] eqn:Hsplit; [|done].
  cbn [negb].
  destruct (decide (createProposalRequest.DatasetID req <= 0)); [done|].
  match goal with
  | |- match ?b with _ => _ end = _ -> _ => destruct b as [built|] eqn:Hbuilt
  end; [|done].
  destruct (proposalMessages built) as [|msgs] eqn:Hmsgs; [done|].
  intros [= <-]. cbn.
  destruct (proposalMessages_spec _ _ Hmsgs) as (Hn & Hroles & _ & Hne).
  split; [lia|]. split; [by eapply NormalizeSplit_ok|]. split; [done|].
  split; [|done].
  intros ->. cbn in Hroles. symmetry in Hroles.
  apply fmap_nil_inv in Hroles. subst built.
  destruct (decide (length (createProposalRequest.Messages req) = 0%nat))
    as [Hlen|Hlen].
  - destruct (decide (_ ∨ _)); [done|]. injection Hbuilt as Hbuilt.
    by apply app_nil in Hbuilt as [_ ?].
  - injection Hbuilt as Hbuilt. by rewrite Hbuilt in Hlen.
Qed.

Lemma normalizeImport_inr (rec : importConversation.t)
  (datasetID : Z) (defaultSplit defaultStatus : string)
  (defaultTags : list string) (defaultSource defaultNotes : string)
  (c : Conversation) :
  normalizeImport ToLower rec datasetID defaultSplit defaultStatus defaultTags
    defaultSource defaultNotes = inr c ->
  ConvDatasetID c = datasetID /\ knownSplit (ConvSplit c)
  /\ knownStatus (ConvStatus c)
  /\ Messages c ≠ [] /\ Forall normalizedMessage (Messages c)
  /\ Forall (fun m => Content m ≠ "") (Messages c).
Proof.
  unfold normalizeImport.
  destruct (NormalizeSplit ToLower _) as [split [|]] eqn:Hsplit; [|done].
  destruct (NormalizeConversationStatus ToLower _) as [status [|]] eqn:Hstatus;
    [|done].
  cbn [negb].
  match goal with
  | |- match ?b with _ => _ end = _ -> _ => destruct b as [built|] eqn:Hbuilt
  end; [|done].
  destruct (importMessages 0 built) as [|msgs] eqn:Hmsgs; [done|].
  intros [= <-]. cbn.
  destruct (importMessages_spec _ _ _ Hmsgs) as (Hn & Hroles & _ & Hne).
  split; [done|]. split; [by eapply NormalizeSplit_ok|].
  split; [by eapply NormalizeConversationStatus_ok|].
  split; [|done].
  intros ->. cbn in Hroles. symmetry in Hroles.
  apply fmap_nil_inv in Hroles. subst built.
  destruct (decide (length (importConversation.Messages rec) = 0%nat))
    as [Hlen|Hlen].
  - destruct (decide (_ ∨ _)); [done|]. injection Hbuilt as Hbuilt.
    by apply app_nil in Hbuilt as [_ ?].
  - injection Hbuilt as Hbuilt. by rewrite Hbuilt in Hlen.
Qed.

(** X11.  A conversation that [normalizeConversationUpsert] accepts satisfies
    what the schema checks and more: a positive dataset, a known split and
    status, at least one message, every message with a known role, trimmed
    content and name and a meta value, the roles of the request in their
    order, and no empty content unless the status is draft. *)
Theorem upsert_accepts_well_formed (req : upsertConversationRequest.t)
  (c : Conversation) :
  normalizeConversationUpsert ToLower req = inr c ->
  0 < ConvDatasetID c /\ knownSplit (ConvSplit c) /\ knownStatus (ConvStatus c)
  /\ Messages c ≠ [] /\ Forall normalizedMessage (Messages c)
  /\ Role_ <$> Messages c = Role_ <$> upsertConversationRequest.Messages req
  /\ (ConvStatus c ≠ ConversationStatusDraft ->
      Forall (fun m => Content m ≠ "") (Messages c)).
Proof. apply normalizeConversationUpsert_inr. Qed.

(** X12.  A conversation that [normalizeConversationFromProposal] accepts is
    pending, has a positive dataset, a known split and at least one message,
    and every message has a known role, trimmed non-empty content, a trimmed
    name and a meta value. *)
Theorem proposal_accepts_well_formed (req : createProposalRequest.t)
  (c : Conversation) :
  normalizeConversationFromProposal ToLower req = inr c ->
  0 < ConvDatasetID c /\ knownSplit (ConvSplit c)
  /\ ConvStatus c = ConversationStatusPending
  /\ Messages c ≠ [] /\ Forall normalizedMessage (Messages c)
  /\ Forall (fun m => Content m ≠ "") (Messages c).
Proof. apply normalizeConversationFromProposal_inr. Qed.

(** X13.  A conversation that [normalizeImport] accepts has the dataset it was
    given, a known split and status, at least one message, and every message
    has a known role, trimmed non-empty content, a trimmed name and a meta
    value. *)
Theorem import_accepts_well_formed (rec : importConversation.t)
  (datasetID : Z) (defaultSplit defaultStatus : string)
  (defaultTags : list string) (defaultSource defaultNotes : string)
  (c : Conversation) :
  normalizeImport ToLower rec datasetID defaultSplit defaultStatus defaultTags
    defaultSource defaultNotes = inr c ->
  ConvDatasetID c = datasetID /\ knownSplit (ConvSplit c)
  /\ knownStatus (ConvStatus c)
  /\ Messages c ≠ [] /\ Forall normalizedMessage (Messages c)
  /\ Forall (fun m => Content m ≠ "") (Messages c).
Proof. apply normalizeImport_inr. Qed.

Lemma normalized_nonblank (msgs : list Message) :
  Forall normalizedMessage msgs -> Forall (fun m => Content m ≠ "") msgs ->
  Forall (fun m => TrimSpace (Content m) ≠ "") msgs.
Proof.
  intros Hn Hc. apply Forall_forall. intros m Hm.
  rewrite Forall_forall in Hn, Hc.
  destruct (Hn m Hm) as (_ & -> & _). by apply Hc.
Qed.

(** When no content is blank the guard on the empty prompt never fires: the
    pairs of [context=none] are those of the summary. *)
Lemma pairsNone_summary_nonblank (msgs : list Message) :
  Forall (fun m => TrimSpace (Content m) ≠ "") msgs ->
  Spec.pairsNone msgs = Spec.pairsNone_summary msgs.
Proof.
  intros Hall. unfold Spec.pairsNone, Spec.pairsNone_summary.
  apply flat_map_ext. intros i. unfold Spec.pairAt, Spec.pairAt_summary.
  destruct (msgs !! i) as [m|]; [|done].
  destruct (decide (Spec.answers m)); [|done].
  destruct (Spec.nearestPrecedingUser msgs i) as [u|] eqn:Hu; [|done].
  rewrite decide_False; [done|].
  rewrite Forall_forall in Hall. apply Hall.
  unfold Spec.nearestPrecedingUser in Hu.
  apply last_Some_elem_of, list_elem_of_filter in Hu as [_ Hu].
  by apply (subseteq_take i msgs).
Qed.

(** X14.  On a conversation accepted by [normalizeImport] or by
    [normalizeConversationFromProposal], [context=none] pairs every
    assistant message that has a user message before it with the nearest
    such message: the guard on the empty prompt never fires. *)
Theorem accepted_conversation_pairs (c : Conversation) (opts : ExportOptions) :
  (exists rec datasetID defaultSplit defaultStatus defaultTags defaultSource
          defaultNotes,
     normalizeImport ToLower rec datasetID defaultSplit defaultStatus
       defaultTags defaultSource defaultNotes = inr c)
  \/ (exists req, normalizeConversationFromProposal ToLower req = inr c) ->
  Context opts = "none" ->
  derivePairs (Messages c) opts = Some (Spec.pairsNone_summary (Messages c)).
Proof.
  intros Hacc Hc. rewrite derivePairs_none_like by (by rewrite Hc).
  f_equal. apply pairsNone_summary_nonblank.
  destruct Hacc as [(rec & d & s1 & s2 & t & s3 & n & Hacc)|(req & Hacc)].
  - apply normalizeImport_inr in Hacc as (_ & _ & _ & _ & Hn & Hne).
    by apply normalized_nonblank.
  - apply normalizeConversationFromProposal_inr in Hacc
      as (_ & _ & _ & _ & Hn & Hne).
    by apply normalized_nonblank.
Qed.

Lemma pairAt_not_answering msgs (i : nat) m :
  msgs !! i = Some m -> Role_ m ≠ RoleAssistant -> Spec.pairAt msgs i = [].
Proof.
  intros Hm Hr. unfold Spec.pairAt. rewrite Hm.
  rewrite decide_False; [done|]. by intros [? _].
Qed.

Lemma flat_map_all_nil {A B} (f : A -> list B) (l : list A) :
  (forall x, x ∈ l -> f x = []) -> flat_map f l = [].
Proof.
  induction l as [|x l IH]; intros Hall; [done|]. cbn [flat_map].
  rewrite (Hall x) by (by left). apply IH. intros y Hy. apply Hall. by right.
Qed.

Lemma pairsNone_single_turn (pre : list Message) (u a : Message) :
  Forall (fun m => Role_ m = RoleSystem) pre ->
  Role_ u = RoleUser -> Role_ a = RoleAssistant ->
  TrimSpace (Content u) ≠ "" -> TrimSpace (Content a) ≠ "" ->
  Spec.pairsNone (pre ++ [u; a])
  = [mkExportPair (TrimSpace (Content u)) (TrimSpace (Content a))].
Proof.
  intros Hpre Hu Ha Hcu Hca. unfold Spec.pairsNone.
  rewrite length_app. cbn [length].
  replace (length pre + 2)%nat with (length pre + (1 + 1))%nat by lia.
  rewrite !seq_app, !flat_map_app. cbn [seq flat_map Nat.add].
  rewrite app_nil_r.
  assert (flat_map (Spec.pairAt (pre ++ [u; a])) (seq 0 (length pre)) = [])
    as ->.
  { apply flat_map_all_nil. intros i Hi%elem_of_seq.
    destruct (lookup_lt_is_Some_2 pre i) as [m Hm]; [lia|].
    apply (pairAt_not_answering _ _ m).
    - by rewrite lookup_app_l by lia.
    - rewrite Forall_forall in Hpre.
      rewrite (Hpre m) by (by eapply list_elem_of_lookup_2). done. }
  rewrite (pairAt_not_answering _ _ u).
  2:{ rewrite lookup_app_r by lia. by rewrite Nat.sub_diag. }
  2:{ by rewrite Hu. }
  cbn [app]. unfold Spec.pairAt.
  rewrite lookup_app_r by lia.
  replace (length pre + 1 - length pre)%nat with 1%nat by lia.
  cbn [lookup list_lookup].
  rewrite decide_True by done.
  unfold Spec.nearestPrecedingUser.
  rewrite take_app_ge by lia.
  replace (length pre + 1 - length pre)%nat with 1%nat by lia.
  cbn [take]. rewrite filter_app.
  rewrite (filter_cons_True Spec.isUser) by done.
  rewrite filter_nil, last_snoc. by rewrite decide_False.
Qed.

(** X15.  A proposal that carries no message list but a user and an assistant
    text, once accepted, exports under [context=none] as the single pair of
    the two trimmed texts, with or without a system text. *)
Theorem single_turn_proposal_exports (req : createProposalRequest.t)
  (c : Conversation) (opts : ExportOptions) :
  createProposalRequest.Messages req = [] ->
  normalizeConversationFromProposal ToLower req = inr c ->
  Context opts = "none" ->
  derivePairs (Messages c) opts
  = Some [mkExportPair (TrimSpace (createProposalRequest.User req))
            (TrimSpace (createProposalRequest.Assistant req))].
Proof.
  intros Hmsgs Hacc Hc. rewrite derivePairs_none_like by (by rewrite Hc).
  f_equal. revert Hacc. unfold normalizeConversationFromProposal.
  destruct (NormalizeSplit ToLower _) as [split [|]]; [|done]. cbn [negb].
  destruct (decide (createProposalRequest.DatasetID req <= 0)); [done|].
  rewrite Hmsgs. cbn [length]. rewrite decide_True by done.
  destruct (decide (_ ∨ _)) as [|Hne]; [done|].
  apply Decidable.not_or in Hne as [Hu Ha].
  set (U := TrimSpace (createProposalRequest.User req)) in *.
  set (A := TrimSpace (createProposalRequest.Assistant req)) in *.
  set (S := TrimSpace (createProposalRequest.System req)).
  assert (TrimSpace U = U) as HU by apply TrimSpace_idem.
  assert (TrimSpace A = A) as HA by apply TrimSpace_idem.
  destruct (decide (S ≠ "")) as [Hs|Hs]; cbn [app proposalMessages Role_
    Content Name Meta].
  - assert (TrimSpace S = S) as HS by apply TrimSpace_idem.
    rewrite !(decide_True (P := knownRole _)) by (unfold knownRole; auto).
    rewrite HU, HA, HS. rewrite !(decide_False (P := _ = "")) by done.
    intros [= <-]. cbn [Messages].
    etrans; [apply (pairsNone_single_turn [_] _ _)|];
      cbn [Role_ Content]; rewrite ?HU, ?HA; try done.
    by repeat constructor.
  - rewrite !(decide_True (P := knownRole _)) by (unfold knownRole; auto).
    rewrite HU, HA. rewrite !(decide_False (P := _ = "")) by done.
    intros [= <-]. cbn [Messages].
    etrans; [apply (pairsNone_single_turn [] _ _)|];
      cbn [Role_ Content]; rewrite ?HU, ?HA; done.
Qed.

(** What is left is about a [ToLower] that leaves the lower-case words of
    the schema as they are, as [strings.ToLower] does. *)
Hypothesis ToLower_known :
  forall w, knownSplit w \/ knownStatus w -> ToLower w = w.

Lemma TrimSpace_known (w : string) :
  knownSplit w \/ knownStatus w -> TrimSpace w = w /\ w ≠ "".
Proof.
  unfold knownSplit, knownStatus.
  intros [[-> | [-> | ->]] | [-> | [-> | [-> | [-> | ->]]]]]; by split.
Qed.

Lemma NormalizeSplit_known (w : string) :
  knownSplit w -> NormalizeSplit ToLower w = (w, true).
Proof.
  intros Hw. unfold NormalizeSplit.
  rewrite ToLower_known by (by left).
  destruct (TrimSpace_known w) as [-> _]; [by left|].
  by rewrite decide_True.
Qed.

Lemma NormalizeConversationStatus_known (w : string) :
  knownStatus w -> NormalizeConversationStatus ToLower w = (w, true).
Proof.
  intros Hw. unfold NormalizeConversationStatus.
  rewrite ToLower_known by (by right).
  destruct (TrimSpace_known w) as [-> _]; [by right|].
  by rewrite decide_True.
Qed.

(** X16.  What [NormalizeSplit] and [NormalizeConversationStatus] accept they
    return in a form they accept again unchanged, and what they reject they
    return as the empty string. *)
Theorem normalize_split_status_stable (s r : string) (ok : bool) :
  (NormalizeSplit ToLower s = (r, ok) ->
   if ok then knownSplit r /\ NormalizeSplit ToLower r = (r, true)
   else r = "")
  /\ (NormalizeConversationStatus ToLower s = (r, ok) ->
      if ok
      then knownStatus r /\ NormalizeConversationStatus ToLower r = (r, true)
      else r = "").
Proof.
  split.
  - destruct ok.
    + intros Hs%NormalizeSplit_ok. split; [done|].
      by apply NormalizeSplit_known.
    + unfold NormalizeSplit. case_decide; by intros [= <-].
  - destruct ok.
    + intros Hs%NormalizeConversationStatus_ok. split; [done|].
      by apply NormalizeConversationStatus_known.
    + unfold NormalizeConversationStatus. case_decide; by intros [= <-].
Qed.

Lemma upsertMessages_fixed (status : string) (msgs : list Message) :
  Forall normalizedMessage msgs ->
  (status ≠ ConversationStatusDraft -> Forall (fun m => Content m ≠ "") msgs) ->
  upsertMessages status msgs = inr msgs.
Proof.
  induction msgs as [|m msgs IH]; intros Hn Hne; [done|].
  apply Forall_cons_1 in Hn as [(Hr & Hc & Hname & Hmeta) Hn].
  cbn [upsertMessages]. rewrite Hc, Hname.
  rewrite decide_False.
  2:{ intros [Hempty Hd]. specialize (Hne Hd).
      by apply Forall_cons_1 in Hne as [? _]. }
  rewrite decide_True by done.
  rewrite IH; [|done|].
  2:{ intros Hd. specialize (Hne Hd). by apply Forall_cons_1 in Hne as [_ ?]. }
  destruct m as [r c n [meta|]]; done.
Qed.

(** X17.  Normalisation is idempotent: a conversation that
    [normalizeConversationUpsert] accepted, submitted again as it is, is
    accepted and returned unchanged. *)
Theorem upsert_idempotent (req : upsertConversationRequest.t)
  (c : Conversation) :
  normalizeConversationUpsert ToLower req = inr c ->
  normalizeConversationUpsert ToLower (upsertRequestOf c) = inr c.
Proof.
  intros Hacc.
  destruct (normalizeConversationUpsert_inr req c Hacc)
    as (Hid & Hsplit & Hstatus & Hne & Hn & _ & Hcontent).
  assert (ConvID c = 0 /\ TrimSpace (Source c) = Source c
          /\ TrimSpace (Notes c) = Notes c) as (Hzero & Hsrc & Hnotes).
  { revert Hacc. unfold normalizeConversationUpsert.
    destruct (NormalizeSplit ToLower _) as [? [|]]; [|done].
    destruct (NormalizeConversationStatus ToLower _) as [? [|]]; [|done].
    cbn [negb]. repeat case_match; try done.
    intros [= <-]. cbn [ConvID Source Notes]. by rewrite !TrimSpace_idem. }
  unfold normalizeConversationUpsert, upsertRequestOf.
  cbn [upsertConversationRequest.Split upsertConversationRequest.Status
       upsertConversationRequest.DatasetID upsertConversationRequest.Tags
       upsertConversationRequest.Source upsertConversationRequest.Notes
       upsertConversationRequest.Messages].
  destruct (TrimSpace_known (ConvSplit c)) as [-> Hs]; [by left|].
  destruct (TrimSpace_known (ConvStatus c)) as [-> Hst]; [by right|].
  rewrite !(decide_False (P := _ = "")) by done.
  rewrite NormalizeSplit_known, NormalizeConversationStatus_known by done.
  cbn [negb]. rewrite decide_False by lia.
  rewrite decide_False by (by destruct (Messages c)).
  rewrite upsertMessages_fixed, Hsrc, Hnotes by done.
  destruct c; cbn in *. by subst.
Qed.

End NormalizeFacts.

Lemma lowerASCII_known (w : string) :
  knownSplit w \/ knownStatus w -> lowerASCII w = w.
Proof.
  unfold knownSplit, knownStatus.
  intros [[-> | [-> | ->]] | [-> | [-> | [-> | [-> | ->]]]]]; reflexivity.
Qed.

Lemma upsert_accepts_well_formed_witness :
  normalizeConversationUpsert lowerASCII sampleUpsert = inr sampleAccepted
  /\ 0 < ConvDatasetID sampleAccepted /\ knownSplit (ConvSplit sampleAccepted)
  /\ knownStatus (ConvStatus sampleAccepted)
  /\ Messages sampleAccepted ≠ []
  /\ Forall normalizedMessage (Messages sampleAccepted)
  /\ Role_ <$> Messages sampleAccepted
     = Role_ <$> upsertConversationRequest.Messages sampleUpsert
  /\ (ConvStatus sampleAccepted ≠ ConversationStatusDraft ->
      Forall (fun m => Content m ≠ "") (Messages sampleAccepted)).
Proof.
  split; [reflexivity|].
  exact (upsert_accepts_well_formed lowerASCII sampleUpsert sampleAccepted
           eq_refl).
Defined.

Lemma proposal_accepts_well_formed_witness :
  normalizeConversationFromProposal lowerASCII sampleProposal
  = inr sampleProposed
  /\ 0 < ConvDatasetID sampleProposed /\ knownSplit (ConvSplit sampleProposed)
  /\ ConvStatus sampleProposed = ConversationStatusPending
  /\ Messages sampleProposed ≠ []
  /\ Forall normalizedMessage (Messages sampleProposed)
  /\ Forall (fun m => Content m ≠ "") (Messages sampleProposed).
Proof.
  split; [reflexivity|].
  exact (proposal_accepts_well_formed lowerASCII sampleProposal sampleProposed
           eq_refl).
Defined.

Lemma import_accepts_well_formed_witness :
  normalizeImport lowerASCII sampleImport 3 "train" "approved" ["x"] "file" ""
  = inr sampleImported
  /\ ConvDatasetID sampleImported = 3 /\ knownSplit (ConvSplit sampleImported)
  /\ knownStatus (ConvStatus sampleImported)
  /\ Messages sampleImported ≠ []
  /\ Forall normalizedMessage (Messages sampleImported)
  /\ Forall (fun m => Content m ≠ "") (Messages sampleImported).
Proof.
  split; [reflexivity|].
  exact (import_accepts_well_formed lowerASCII sampleImport 3 "train"
           "approved" ["x"] "file" "" sampleImported eq_refl).
Defined.

Lemma accepted_conversation_pairs_witness :
  normalizeConversationFromProposal lowerASCII sampleProposal
  = inr sampleProposed
  /\ Context (optsWith "none" 0) = "none"
  /\ derivePairs (Messages sampleProposed) (optsWith "none" 0)
     = Some (Spec.pairsNone_summary (Messages sampleProposed)).
Proof.
  split; [reflexivity|]. split; [reflexivity|].
  exact (accepted_conversation_pairs lowerASCII sampleProposed
           (optsWith "none" 0)
           (or_intror (ex_intro _ sampleProposal eq_refl)) eq_refl).
Defined.

Lemma single_turn_proposal_exports_witness :
  createProposalRequest.Messages sampleProposal = []
  /\ normalizeConversationFromProposal lowerASCII sampleProposal
     = inr sampleProposed
  /\ Context (optsWith "none" 0) = "none"
  /\ derivePairs (Messages sampleProposed) (optsWith "none" 0)
     = Some [mkExportPair (TrimSpace " Q ") (TrimSpace " R ")].
Proof.
  split; [reflexivity|]. split; [reflexivity|]. split; [reflexivity|].
  exact (single_turn_proposal_exports lowerASCII sampleProposal sampleProposed
           (optsWith "none" 0) eq_refl eq_refl eq_refl).
Defined.

Lemma normalize_split_status_stable_witness :
  NormalizeSplit lowerASCII " TRAIN " = ("train", true)
  /\ knownSplit "train"
  /\ NormalizeSplit lowerASCII "train" = ("train", true).
Proof.
  split; [reflexivity|].
  exact (proj1 (normalize_split_status_stable lowerASCII lowerASCII_known
                  " TRAIN " "train" true) eq_refl).
Defined.

Lemma upsert_idempotent_witness :
  normalizeConversationUpsert lowerASCII sampleUpsert = inr sampleAccepted
  /\ normalizeConversationUpsert lowerASCII (upsertRequestOf sampleAccepted)
     = inr sampleAccepted.
Proof.
  split; [reflexivity|].
  exact (upsert_idempotent lowerASCII lowerASCII_known sampleUpsert
           sampleAccepted eq_refl).
Defined.

(* ===================================================================== *)
(** ** The export handler *)
(* ===================================================================== *)

Lemma parseIntDefault_clamped (s : string) (fallback : Z) :
  0 <= (if decide (parseIntDefault s fallback < 0) then 0
        else parseIntDefault s fallback).
Proof. case_decide; lia. Qed.

Lemma handlerOptions_spec (q : gmap string (list string)) :
  let opts := handlerOptions q in
  Type_ opts ≠ "" /\ Split opts ≠ "" /\ Status opts ≠ ""
  /\ Context opts ≠ "" /\ RoleStyle opts ≠ ""
  /\ 0 <= ContextTurns opts /\ 0 <= MaxExamples opts
  /\ exportDefaults opts = opts.
Proof.
  cbn zeta. unfold handlerOptions.
  cbn [Type_ Split Status Context RoleStyle ContextTurns MaxExamples].
  assert (forall (s d : string), d ≠ "" ->
            (if decide (s = "") then d else s) ≠ "") as Hd
    by (intros s d ?; by case_decide).
  repeat split; try (by apply Hd); try apply parseIntDefault_clamped.
  unfold exportDefaults.
  cbn [Type_ DatasetID Split Status IncludeSystem Context ContextTurns
       RoleStyle MaxExamples].
  rewrite !(decide_False (P := (if decide (_ = "") then _ else _) = ""))
    by (by apply Hd).
  done.
Qed.

(** X18.  The options the handler builds are complete and within range: no
    text field is empty, [context_turns] and [max_examples] are not
    negative, and the defaults of [StreamExport] have nothing left to do. *)
Theorem handler_options_complete (q : gmap string (list string)) :
  let opts := handlerOptions q in
  Type_ opts ≠ "" /\ Split opts ≠ "" /\ Status opts ≠ ""
  /\ Context opts ≠ "" /\ RoleStyle opts ≠ ""
  /\ 0 <= ContextTurns opts /\ 0 <= MaxExamples opts
  /\ exportDefaults opts = opts.
Proof. apply handlerOptions_spec. Qed.

Lemma handler_StreamExport db q :
  StreamExport db (handlerOptions q) = dispatch db (handlerOptions q).
Proof.
  unfold StreamExport.
  by destruct (handlerOptions_spec q) as (_ & _ & _ & _ & _ & _ & _ & ->).
Qed.




(** X20.  A type outside the four is not refused up front: when the dataset
    resolves (or none is asked for) the handler starts the stream, and
    [StreamExport] fails with nothing written. *)
Theorem handler_unknown_type_fails_late (db : DB)
  (q : gmap string (list string)) :
  ¬ knownType (Type_ (handlerOptions q)) ->
  DatasetID (handlerOptions q) <= 0
  \/ (exists ds, GetDataset db (DatasetID (handlerOptions q)) = inr ds) ->
  exists err : error, handleExportJSONL db q = Streamed [] (Some err).
Proof.
  intros Hunknown Hds. unfold handleExportJSONL. rewrite handler_StreamExport.
  set (opts := handlerOptions q) in *. unfold dispatch, knownType in *.
  assert (streamByType db opts
          = ([], Some (ErrUnknownExportType (Type_ opts)))) as Hby.
  { unfold streamByType. rewrite !decide_False; [done|..]; intros ?; auto. }
  assert (streamDatasetItems db opts
          = ([], Some (ErrUnknownItemsExportType (Type_ opts)))) as Hit.
  { unfold streamDatasetItems. rewrite !decide_False; [done|..];
      intros ?; auto. }
  rewrite decide_False by (intros [[?|?] _]; auto).
  destruct Hds as [Hid|[ds Hds]].
  - rewrite !(decide_False (P := DatasetID opts > 0)) by lia.
    rewrite Hby. eexists; reflexivity.
  - destruct (decide (DatasetID opts > 0));
      [|rewrite Hby; eexists; reflexivity].
    rewrite Hds. destruct (EqualFold_items (Kind ds)).
    + rewrite decide_False by auto. rewrite Hit. eexists; reflexivity.
    + rewrite decide_False by (intros [?|?]; auto). rewrite Hby.
      eexists; reflexivity.
Qed.

Lemma handler_unknown_type_fails_late_witness :
  ¬ knownType (Type_ (handlerOptions csvQuery))
  /\ DatasetID (handlerOptions csvQuery) <= 0
  /\ exists err : error,
       handleExportJSONL store csvQuery = Streamed [] (Some err).
Proof.
  assert (¬ knownType (Type_ (handlerOptions csvQuery))) as Hunknown.
  { intros H. vm_compute in H. destruct H as [H|[H|[H|H]]]; discriminate H. }
  assert (DatasetID (handlerOptions csvQuery) <= 0) as Hid
    by (vm_compute; discriminate).
  split; [exact Hunknown|]. split; [exact Hid|].
  exact (handler_unknown_type_fails_late store csvQuery Hunknown
           (or_introl Hid)).
Defined.

(* ===================================================================== *)
(** ** The importer's helpers *)
(* ===================================================================== *)

Section ParseTagsFacts.
Variable ToLower : string -> string.

Lemma parseTags_loop_spec (parts : list string) (seen : gmap string bool)
  (out : list string) :
  (forall k, default false (seen !! k) = true <-> k ∈ ToLower <$> out) ->
  NoDup (ToLower <$> out) ->
  Forall (fun t => t ≠ "" /\ TrimSpace t = t) out ->
  let tags := parseTags_loop ToLower parts seen out in
  NoDup (ToLower <$> tags)
  /\ Forall (fun t => t ≠ "" /\ TrimSpace t = t) tags
  /\ (exists new, tags = out ++ new
                  /\ new `sublist_of` (TrimSpace <$> parts))
  /\ Forall (fun p => TrimSpace p ≠ "" ->
                      ToLower (TrimSpace p) ∈ ToLower <$> tags) parts.
Proof.
  revert seen out.
  induction parts as [|p parts IH]; intros seen out Hseen Hnd Hout; cbn zeta.
  - cbn [parseTags_loop]. split; [done|]. split; [done|]. split; [|done].
    exists []. by rewrite app_nil_r.
  - cbn [parseTags_loop].
    assert (forall tags new,
              tags = out ++ new -> ToLower (TrimSpace p) ∈ ToLower <$> out ->
              ToLower (TrimSpace p) ∈ ToLower <$> tags) as Hkeep.
    { intros tags new -> Hin. rewrite fmap_app. apply elem_of_app. by left. }
    destruct (decide (TrimSpace p = "")) as [Hblank|Hblank].
    { destruct (IH seen out Hseen Hnd Hout) as (H1 & H2 & (new & Hnew & Hsub) & H4).
      split; [done|]. split; [done|]. split.
      - exists new. split; [done|]. cbn [fmap list_fmap]. by apply sublist_cons.
      - constructor; [done|done]. }
    destruct (default false (seen !! ToLower (TrimSpace p))) eqn:Hk.
    { destruct (IH seen out Hseen Hnd Hout) as (H1 & H2 & (new & Hnew & Hsub) & H4).
      split; [done|]. split; [done|]. split.
      - exists new. split; [done|]. cbn [fmap list_fmap]. by apply sublist_cons.
      - constructor; [|done]. intros _. eapply Hkeep; [done|]. by apply Hseen. }
    destruct (IH (<[ToLower (TrimSpace p) := true]> seen)
                (out ++ [TrimSpace p]))
      as (H1 & H2 & (new & Hnew & Hsub) & H4).
    { intros k. rewrite fmap_app, elem_of_app. cbn [fmap list_fmap].
      rewrite list_elem_of_singleton.
      destruct (decide (k = ToLower (TrimSpace p))) as [->|Hne].
      - rewrite lookup_insert_eq. cbn. split; auto.
      - rewrite lookup_insert_ne by done. rewrite Hseen. split; [auto|].
        by intros [?|?]. }
    { rewrite fmap_app. apply NoDup_app. split; [done|]. split.
      - intros k Hin ->%list_elem_of_singleton.
        apply Hseen in Hin. congruence.
      - apply NoDup_singleton. }
    { apply Forall_app. split; [done|]. constructor; [|done].
      split; [done|apply TrimSpace_idem]. }
    split; [done|]. split; [done|]. split.
    + exists (TrimSpace p :: new). split.
      * by rewrite Hnew, <- app_assoc.
      * cbn [fmap list_fmap]. by apply sublist_skip.
    + constructor; [|done]. intros _. rewrite Hnew, !fmap_app.
      apply elem_of_app. left. apply elem_of_app. right. by left.
Qed.

(** X21.  The tags [parseTags] returns are the trimmed parts of the input, in
    their order, without the blank ones and without a second tag of the same
    lower-cased form: no tag is empty or untrimmed, the lower-cased forms
    are distinct, and every non-blank part is represented. *)
Theorem parseTags_normalizes (s : string) :
  let tags := parseTags ToLower s in
  Forall (fun t => t ≠ "" /\ TrimSpace t = t) tags
  /\ NoDup (ToLower <$> tags)
  /\ tags `sublist_of` (TrimSpace <$> SplitByte comma s)
  /\ (TrimSpace s ≠ "" ->
      Forall (fun p => TrimSpace p ≠ "" ->
                       ToLower (TrimSpace p) ∈ ToLower <$> tags)
        (SplitByte comma s)).
Proof.
  cbn zeta. unfold parseTags.
  destruct (decide (TrimSpace s = "")) as [Hblank|Hblank].
  - split; [done|]. split; [apply NoDup_nil_2|]. split; [|done].
    apply sublist_nil_l.
  - destruct (parseTags_loop_spec (SplitByte comma s) ∅ [])
      as (H1 & H2 & (new & Hnew & Hsub) & H4).
    + intros k. rewrite lookup_empty. cbn. split; [done|].
      by intros ?%elem_of_nil.
    + apply NoDup_nil_2.
    + done.
    + split; [done|]. split; [done|]. split; [|done].
      by rewrite Hnew.
Qed.

End ParseTagsFacts.

Lemma parseTags_normalizes_witness :
  TrimSpace "x, Y ,x,,y" ≠ ""
  /\ parseTags lowerASCII "x, Y ,x,,y" = ["x"; "Y"]
  /\ Forall (fun p => TrimSpace p ≠ "" ->
                      lowerASCII (TrimSpace p)
                      ∈ lowerASCII <$> parseTags lowerASCII "x, Y ,x,,y")
       (SplitByte comma "x, Y ,x,,y").
Proof.
  assert (TrimSpace "x, Y ,x,,y" ≠ "") as Hs by (intros [=]).
  split; [exact Hs|]. split; [reflexivity|].
  exact (proj2 (proj2 (proj2 (parseTags_normalizes lowerASCII "x, Y ,x,,y")))
           Hs).
Defined.

Lemma bytes_append (a b : string) : bytes (a +:+ b) = bytes a ++ bytes b.
Proof.
  induction a as [|c a IH]; [done|]. rewrite append_cons. cbn. by rewrite IH.
Qed.

Lemma sliceFrom_append (a b : string) :
  sliceFrom (a +:+ b) (String.length a) = b.
Proof. induction a as [|c a IH]; [by destruct b|]. by rewrite append_cons. Qed.

(** [LastIndexByte] finds the last separator: nothing after it is one. *)
Lemma LastIndexByte_spec (s : string) (sep : ascii) :
  (LastIndexByte s sep = -1 /\ sep ∉ bytes s)
  \/ (exists a b, s = a +:+ String sep b
                  /\ LastIndexByte s sep = Z.of_nat (String.length a)
                  /\ sep ∉ bytes b).
Proof.
  induction s as [|c t IH]; cbn [LastIndexByte bytes].
  - left. split; [done|]. apply not_elem_of_nil.
  - destruct IH as [[-> Hno]|(a & b & -> & -> & Hno)].
    + rewrite decide_False by lia.
      destruct (decide (c = sep)) as [->|Hc].
      * right. by exists "", t.
      * left. split; [done|]. by apply not_elem_of_cons.
    + rewrite decide_True by lia. right.
      exists (String c a), b. rewrite append_cons. split; [done|].
      split; [|done]. cbn [String.length]. lia.
Qed.

Lemma ReplaceAllByte_none (old new : ascii) (s : string) :
  old ≠ new -> old ∉ bytes (ReplaceAllByte old new s).
Proof.
  intros Hne. induction s as [|c t IH]; cbn [ReplaceAllByte bytes].
  - apply not_elem_of_nil.
  - apply not_elem_of_cons. split; [|done]. by case_decide.
Qed.

Lemma ReplaceAllByte_id (old new : ascii) (s : string) :
  old ∉ bytes s -> ReplaceAllByte old new s = s.
Proof.
  induction s as [|c t IH]; [done|]. cbn [ReplaceAllByte bytes].
  intros [Hc Ht]%not_elem_of_cons. rewrite IH by done.
  by rewrite decide_False by done.
Qed.

Lemma ReplaceAllByte_append (old new : ascii) (a b : string) :
  ReplaceAllByte old new (a +:+ b)
  = ReplaceAllByte old new a +:+ ReplaceAllByte old new b.
Proof.
  induction a as [|c a IH]; [done|].
  rewrite append_cons. cbn [ReplaceAllByte]. by rewrite IH, append_cons.
Qed.

Lemma filepathBase_spec (p : string) :
  Forall (fun c => c ≠ slash /\ c ≠ backslash) (bytes (filepathBase p))
  /\ (forall dir name sep,
        sep = slash \/ sep = backslash ->
        Forall (fun c => c ≠ slash /\ c ≠ backslash) (bytes name) ->
        filepathBase (dir +:+ String sep name) = name).
Proof.
  assert (backslash ≠ slash) as Hbs by (intros [=]).
  assert (forall s, Forall (fun c => c ≠ slash /\ c ≠ backslash) (bytes s)
                    <-> (slash ∉ bytes s) /\ (backslash ∉ bytes s)) as Hsplit.
  { intros s. rewrite Forall_forall. split.
    - intros Hall. split; intros Hin; by destruct (Hall _ Hin).
    - intros [H1 H2] c Hin. split; by intros ->. }
  split.
  - unfold filepathBase. apply Hsplit.
    pose proof (ReplaceAllByte_none backslash slash p Hbs) as Hno.
    destruct (LastIndexByte_spec (ReplaceAllByte backslash slash p) slash)
      as [[-> Hnone]|(a & b & Hab & -> & Hnone)].
    + by rewrite decide_False by lia.
    + rewrite decide_True by lia.
      replace (Z.to_nat (Z.of_nat (String.length a) + 1))
        with (String.length (a +:+ String slash "")).
      2:{ rewrite length_append. cbn. lia. }
      rewrite Hab in Hno |- *.
      replace (a +:+ String slash b) with ((a +:+ String slash "") +:+ b)
        by (by rewrite append_assoc).
      rewrite sliceFrom_append. split; [done|].
      rewrite bytes_append in Hno. intros Hin. apply Hno.
      apply elem_of_app. right. by right.
  - intros dir name sep Hsep Hname. apply Hsplit in Hname as [Hs Hb].
    unfold filepathBase.
    rewrite ReplaceAllByte_append. cbn [ReplaceAllByte].
    rewrite (ReplaceAllByte_id _ _ name) by done.
    assert ((if decide (sep = backslash) then slash else sep) = slash) as ->.
    { destruct Hsep as [-> | ->]; by case_decide. }
    set (d := ReplaceAllByte backslash slash dir).
    destruct (LastIndexByte_spec (d +:+ String slash name) slash)
      as [[_ Hnone]|(a & b & Hab & -> & Hnone)].
    { exfalso. apply Hnone. rewrite bytes_append. apply elem_of_app.
      right. by left. }
    rewrite decide_True by lia.
    replace (Z.to_nat (Z.of_nat (String.length a) + 1))
      with (String.length (a +:+ String slash "")).
    2:{ rewrite length_append. cbn. lia. }
    rewrite Hab.
    replace (a +:+ String slash b) with ((a +:+ String slash "") +:+ b)
      by (by rewrite append_assoc).
    rewrite sliceFrom_append.
    (* the last separator of both decompositions is the same one *)
    clear -Hab Hnone Hs. revert a Hab.
    induction d as [|c d IH]; intros a Hab.
    + destruct a as [|c' a].
      * by injection Hab as ->.
      * rewrite append_cons in Hab. injection Hab as <- Hab.
        exfalso. apply Hs. rewrite Hab, bytes_append. apply elem_of_app.
        right. by left.
    + destruct a as [|c' a].
      * change ("" +:+ String slash b) with (String slash b) in Hab.
        rewrite append_cons in Hab. injection Hab as -> Hab.
        exfalso. apply Hnone. rewrite <- Hab, bytes_append.
        apply elem_of_app. right. by left.
      * rewrite !append_cons in Hab. injection Hab as _ Hab.
        exact (IH a Hab).
Qed.

(** X22.  The name [filepathBase] returns holds no separator, slash or
    backslash. *)
Theorem filepathBase_no_separator (p : string) :
  Forall (fun c => c ≠ slash /\ c ≠ backslash) (bytes (filepathBase p)).
Proof. apply filepathBase_spec. Qed.

(** X23.  From a path that ends in a separator and a name without separators
    [filepathBase] returns that name, whether the separator is a slash or a
    backslash. *)
Theorem filepathBase_name (dir name : string) (sep : ascii) :
  sep = slash \/ sep = backslash ->
  Forall (fun c => c ≠ slash /\ c ≠ backslash) (bytes name) ->
  filepathBase (dir +:+ String sep name) = name.
Proof. apply (filepathBase_spec ""). Qed.

Lemma filepathBase_name_witness :
  Forall (fun c => c ≠ slash /\ c ≠ backslash) (bytes "chat.jsonl")
  /\ filepathBase ("C:\data/raw" +:+ String backslash "chat.jsonl")
     = "chat.jsonl".
Proof.
  assert (Forall (fun c => c ≠ slash /\ c ≠ backslash) (bytes "chat.jsonl"))
    as Hname by (repeat constructor; intros [=]).
  split; [exact Hname|].
  exact (filepathBase_name "C:\data/raw" "chat.jsonl" backslash
           (or_intror eq_refl) Hname).
Defined.

(* ===================================================================== *)
(** ** What the deriver reads of a message *)
(* ===================================================================== *)

Section SameTurns.
Variables msgs1 msgs2 : list Message.
Hypothesis Hsame : Forall2 sameTurn msgs1 msgs2.

Lemma sameTurn_lookup (i : nat) :
  option_Forall2 sameTurn (msgs1 !! i) (msgs2 !! i).
Proof. by apply Forall2_lookup. Qed.

Lemma sameTurn_index (i : Z) :
  option_Forall2 sameTurn (index msgs1 i) (index msgs2 i).
Proof.
  unfold index. destruct (decide (0 <= i)); [apply sameTurn_lookup|].
  constructor.
Qed.

Lemma sameTurn_findPrevRole_from role (n : nat) :
  findPrevRole_from msgs1 role n = findPrevRole_from msgs2 role n.
Proof.
  induction n as [|n IH]; [done|]. cbn [findPrevRole_from].
  destruct (sameTurn_lookup n) as [a b [Hr _]|]; [|done].
  cbn [mbind option_bind]. rewrite Hr, IH. done.
Qed.

Lemma sameTurn_windowScan k (n : nat) turns :
  windowScan msgs1 k n turns = windowScan msgs2 k n turns.
Proof.
  revert turns. induction n as [|n IH]; intros turns; [done|].
  cbn [windowScan].
  destruct (sameTurn_lookup n) as [a b [Hr _]|]; [|done].
  cbn [mbind option_bind]. rewrite Hr, !IH. done.
Qed.

Lemma sameTurn_renderStep inc rs a b builder :
  sameTurn a b -> renderStep inc rs a builder = renderStep inc rs b builder.
Proof. intros [Hr Hc]. unfold renderStep. by rewrite Hr, Hc. Qed.

Lemma sameTurn_renderLoop inc rs indices builder :
  renderLoop msgs1 inc rs indices builder
  = renderLoop msgs2 inc rs indices builder.
Proof.
  revert builder. induction indices as [|i indices IH]; intros builder;
    [done|].
  cbn [renderLoop].
  destruct (sameTurn_index i) as [a b Hab|]; [|done].
  cbn [mbind option_bind]. rewrite (sameTurn_renderStep _ _ a b) by done.
  apply IH.
Qed.

Lemma sameTurn_renderContext userIdx inc k rs :
  renderContext msgs1 userIdx inc k rs = renderContext msgs2 userIdx inc k rs.
Proof.
  unfold renderContext, windowStart. rewrite sameTurn_windowScan.
  destruct (decide (k > 0)).
  - destruct (windowScan msgs2 k _ 0); [|done]. apply sameTurn_renderLoop.
  - apply sameTurn_renderLoop.
Qed.

Lemma sameTurn_promptFor opts cm rs userIdx :
  promptFor msgs1 opts cm rs userIdx = promptFor msgs2 opts cm rs userIdx.
Proof.
  unfold promptFor. rewrite !sameTurn_renderContext.
  destruct (sameTurn_index userIdx) as [a b [_ Hc]|]; [|done].
  cbn [mbind option_bind]. by rewrite Hc.
Qed.

Lemma sameTurn_step opts cm rs i pairs :
  derivePairs_step msgs1 opts cm rs i pairs
  = derivePairs_step msgs2 opts cm rs i pairs.
Proof.
  unfold derivePairs_step, findPrevRole.
  rewrite sameTurn_findPrevRole_from.
  destruct (sameTurn_index i) as [a b [Hr Hc]|]; [|done].
  cbn [mbind option_bind]. rewrite Hr, Hc.
  destruct (decide (Role_ b ≠ RoleAssistant)); [done|].
  destruct (decide (TrimSpace (Content b) = "")); [done|].
  destruct (findPrevRole_from msgs2 RoleUser _) as [j|]; [|done].
  cbn [mbind option_bind]. by rewrite sameTurn_promptFor.
Qed.

Lemma sameTurn_loop opts cm rs indices pairs :
  derivePairs_loop msgs1 opts cm rs indices pairs
  = derivePairs_loop msgs2 opts cm rs indices pairs.
Proof.
  revert pairs. induction indices as [|i indices IH]; intros pairs; [done|].
  cbn [derivePairs_loop]. rewrite sameTurn_step.
  destruct (derivePairs_step msgs2 opts cm rs i pairs); [apply IH|done].
Qed.

Lemma sameTurn_derivePairs (opts : ExportOptions) :
  derivePairs msgs1 opts = derivePairs msgs2 opts.
Proof.
  unfold derivePairs. rewrite (Forall2_length _ _ _ Hsame).
  apply sameTurn_loop.
Qed.

End SameTurns.

(** X24.  The deriver reads of a message its role and its trimmed content and
    nothing else: two conversations that agree on these, message by
    message, derive the same pairs under every option. *)
Theorem derivePairs_reads_role_and_trimmed_content
  (msgs1 msgs2 : list Message) (opts : ExportOptions) :
  Forall2 sameTurn msgs1 msgs2 ->
  derivePairs msgs1 opts = derivePairs msgs2 opts.
Proof. intros Hsame. by apply sameTurn_derivePairs. Qed.

Lemma derivePairs_reads_role_and_trimmed_content_witness :
  Forall2 sameTurn annotatedTurns [user "Q"; assistant "R"]
  /\ derivePairs annotatedTurns (optsWith "full" 0)
     = derivePairs [user "Q"; assistant "R"] (optsWith "full" 0).
Proof.
  assert (Forall2 sameTurn annotatedTurns [user "Q"; assistant "R"]) as Hsame
    by (repeat constructor).
  split; [exact Hsame|].
  exact (derivePairs_reads_role_and_trimmed_content annotatedTurns
           [user "Q"; assistant "R"] (optsWith "full" 0) Hsame).
Defined.

Lemma storedMessage_sameTurn (msgs : list Message) :
  Forall2 sameTurn (storedMessage <$> msgs) msgs.
Proof.
  induction msgs as [|m msgs IH]; constructor; [|done].
  split; [done|]. cbn. apply TrimSpace_idem.
Qed.

(** X25.  What [InsertConversationWithMessages] writes of the messages (name
    and content trimmed, an empty meta replaced by an empty object) exports
    as the conversation it was given does. *)
Theorem stored_messages_same_pairs (msgs : list Message)
  (opts : ExportOptions) :
  derivePairs (storedMessage <$> msgs) opts = derivePairs msgs opts.
Proof. apply sameTurn_derivePairs, storedMessage_sameTurn. Qed.

Lemma sameTurn_of_fmap (out msgs : list Message) :
  Role_ <$> out = Role_ <$> msgs ->
  Content <$> out = (fun m => TrimSpace (Content m)) <$> msgs ->
  Forall2 sameTurn out msgs.
Proof.
  revert msgs. induction out as [|a out IH]; intros [|b msgs]; try done.
  cbn [fmap list_fmap]. intros [= Hr Hroles] [= Hc Hcont].
  constructor; [|by apply IH].
  split; [done|]. by rewrite Hc, TrimSpace_idem.
Qed.

(** X26.  Normalising a request changes nothing of what it exports: the pairs
    of the conversation [normalizeConversationUpsert] returns are those of
    the messages of the request, under every option. *)
Theorem upsert_preserves_pairs (ToLower : string -> string)
  (req : upsertConversationRequest.t) (c : Conversation)
  (opts : ExportOptions) :
  normalizeConversationUpsert ToLower req = inr c ->
  derivePairs (Messages c) opts
  = derivePairs (upsertConversationRequest.Messages req) opts.
Proof.
  unfold normalizeConversationUpsert.
  destruct (NormalizeSplit ToLower _) as [split [|]]; [|done].
  destruct (NormalizeConversationStatus ToLower _) as [status [|]]; [|done].
  cbn [negb].
  destruct (decide (upsertConversationRequest.DatasetID req <= 0)); [done|].
  destruct (decide (length _ = 0%nat)); [done|].
  destruct (upsertMessages status _) as [|msgs] eqn:Hmsgs; [done|].
  intros [= <-]. cbn [Messages].
  destruct (upsertMessages_spec _ _ _ Hmsgs) as (_ & Hroles & Hcont & _).
  by apply sameTurn_derivePairs, sameTurn_of_fmap.
Qed.

Lemma upsert_preserves_pairs_witness :
  normalizeConversationUpsert lowerASCII sampleUpsert = inr sampleAccepted
  /\ derivePairs (Messages sampleAccepted) (optsWith "full" 0)
     = derivePairs (upsertConversationRequest.Messages sampleUpsert)
         (optsWith "full" 0).
Proof.
  split; [reflexivity|].
  exact (upsert_preserves_pairs lowerASCII sampleUpsert sampleAccepted
           (optsWith "full" 0) eq_refl).
Defined.

(* ===================================================================== *)
(** ** The deriver looks backward only *)
(* ===================================================================== *)

Lemma findPrevRole_from_range msgs role (n : nat) (j : Z) :
  findPrevRole_from msgs role n = Some j -> -1 <= j < Z.of_nat n.
Proof.
  induction n as [|n IH]; cbn [findPrevRole_from]; [intros [= <-]; lia|].
  destruct (msgs !! n) as [m|]; [|done]. cbn [mbind option_bind].
  destruct (decide (Role_ m = role)); [intros [= <-]; lia|].
  intros Hj%IH. lia.
Qed.

Lemma windowScan_range msgs k (n : nat) turns (j : Z) :
  windowScan msgs k n turns = Some j -> -1 <= j < Z.of_nat n.
Proof.
  revert turns. induction n as [|n IH]; intros turns; cbn [windowScan];
    [intros [= <-]; lia|].
  destruct (msgs !! n) as [m|]; [|done]. cbn [mbind option_bind].
  destruct (decide (Role_ m = RoleUser)).
  - destruct (decide (turns + 1 >= k)); [intros [= <-]; lia|].
    intros Hj%IH. lia.
  - intros Hj%IH. lia.
Qed.

Lemma range_bounds (lo hi : Z) : Forall (fun i => lo <= i <= hi) (range lo hi).
Proof.
  unfold range. apply Forall_fmap, Forall_forall.
  intros k Hk%elem_of_seq. cbn. lia.
Qed.

Section Prefix.
Variables l1 l2 : list Message.

Lemma agree_findPrevRole_from role (n : nat) :
  (forall j, (j < n)%nat -> l1 !! j = l2 !! j) ->
  findPrevRole_from l1 role n = findPrevRole_from l2 role n.
Proof.
  induction n as [|n IH]; intros Hag; [done|]. cbn [findPrevRole_from].
  rewrite (Hag n) by lia. rewrite IH; [done|]. intros j Hj. apply Hag. lia.
Qed.

Lemma agree_windowScan k (n : nat) turns :
  (forall j, (j < n)%nat -> l1 !! j = l2 !! j) ->
  windowScan l1 k n turns = windowScan l2 k n turns.
Proof.
  revert turns. induction n as [|n IH]; intros turns Hag; [done|].
  cbn [windowScan]. rewrite (Hag n) by lia.
  destruct (l2 !! n) as [m|]; [|done]. cbn [mbind option_bind].
  rewrite !IH by (intros j Hj; apply Hag; lia). done.
Qed.

Lemma agree_renderLoop inc rs (n : nat) indices b :
  (forall j, (j < n)%nat -> l1 !! j = l2 !! j) ->
  Forall (fun i => 0 <= i < Z.of_nat n) indices ->
  renderLoop l1 inc rs indices b = renderLoop l2 inc rs indices b.
Proof.
  intros Hag. revert b.
  induction indices as [|i indices IH]; intros b Hin; [done|].
  apply Forall_cons_1 in Hin as [Hi Hin]. cbn [renderLoop].
  unfold index. rewrite !decide_True by lia.
  rewrite (Hag (Z.to_nat i)) by lia.
  destruct (l2 !! Z.to_nat i); [|done]. cbn [mbind option_bind]. by apply IH.
Qed.

Lemma agree_renderContext (u : nat) inc k rs :
  (forall j, (j < S u)%nat -> l1 !! j = l2 !! j) ->
  renderContext l1 (Z.of_nat u) inc k rs
  = renderContext l2 (Z.of_nat u) inc k rs.
Proof.
  intros Hag. unfold renderContext, windowStart.
  replace (Z.to_nat (Z.of_nat u + 1)) with (S u) by lia.
  rewrite (agree_windowScan k (S u) 0 Hag).
  destruct (decide (k > 0)).
  - destruct (windowScan l2 k (S u) 0) as [j|] eqn:Hj; [|done].
    cbn [mbind option_bind].
    apply (agree_renderLoop _ _ (S u)); [done|].
    eapply Forall_impl; [apply range_bounds|].
    cbn. intros i Hi. destruct (decide (j > 0)); lia.
  - cbn [mbind option_bind].
    apply (agree_renderLoop _ _ (S u)); [done|].
    eapply Forall_impl; [apply range_bounds|]. cbn. lia.
Qed.

Lemma agree_promptFor opts cm rs (u : nat) :
  (forall j, (j < S u)%nat -> l1 !! j = l2 !! j) ->
  promptFor l1 opts cm rs (Z.of_nat u) = promptFor l2 opts cm rs (Z.of_nat u).
Proof.
  intros Hag. unfold promptFor.
  rewrite !(agree_renderContext u) by done.
  rewrite !index_of_nat, (Hag u) by lia. done.
Qed.

Lemma agree_step opts cm rs (i : nat) pairs :
  (forall j, (j < S i)%nat -> l1 !! j = l2 !! j) ->
  derivePairs_step l1 opts cm rs (Z.of_nat i) pairs
  = derivePairs_step l2 opts cm rs (Z.of_nat i) pairs.
Proof.
  intros Hag. unfold derivePairs_step, findPrevRole.
  replace (Z.to_nat (Z.of_nat i - 1 + 1)) with i by lia.
  rewrite !index_of_nat, (Hag i) by lia.
  rewrite (agree_findPrevRole_from RoleUser i)
    by (intros j Hj; apply Hag; lia).
  destruct (l2 !! i) as [m|]; [|done]. cbn [mbind option_bind].
  destruct (decide (Role_ m ≠ RoleAssistant)); [done|].
  destruct (decide (TrimSpace (Content m) = "")); [done|].
  destruct (findPrevRole_from l2 RoleUser i) as [j|] eqn:Hj; [|done].
  cbn [mbind option_bind].
  destruct (decide (j < 0)); [done|].
  apply findPrevRole_from_range in Hj.
  replace j with (Z.of_nat (Z.to_nat j)) by lia.
  rewrite (agree_promptFor opts cm rs (Z.to_nat j)); [done|].
  intros j' Hj'. apply Hag. lia.
Qed.

Lemma agree_loop opts cm rs (lo n : nat) pairs :
  (forall j, (j < lo + n)%nat -> l1 !! j = l2 !! j) ->
  derivePairs_loop l1 opts cm rs (Z.of_nat <$> seq lo n) pairs
  = derivePairs_loop l2 opts cm rs (Z.of_nat <$> seq lo n) pairs.
Proof.
  revert lo pairs. induction n as [|n IH]; intros lo pairs Hag; [done|].
  cbn [seq fmap list_fmap derivePairs_loop].
  rewrite agree_step by (intros j Hj; apply Hag; lia).
  destruct (derivePairs_step l2 opts cm rs (Z.of_nat lo) pairs); [|done].
  cbn [mbind option_bind]. apply IH. intros j Hj. apply Hag. lia.
Qed.

End Prefix.

Lemma derivePairs_loop_app msgs opts cm rs (xs ys : list Z) pairs :
  derivePairs_loop msgs opts cm rs (xs ++ ys) pairs
  = (ps ← derivePairs_loop msgs opts cm rs xs pairs;
     derivePairs_loop msgs opts cm rs ys ps).
Proof.
  revert pairs. induction xs as [|x xs IH]; intros pairs; [done|].
  cbn [app derivePairs_loop].
  destruct (derivePairs_step msgs opts cm rs x pairs); [|done].
  cbn [mbind option_bind]. apply IH.
Qed.

(** The pairs of a conversation with one more message are those of the
    conversation, then what the body of the loop adds for that message. *)
Lemma derivePairs_snoc (l : list Message) (m : Message) opts :
  derivePairs (l ++ [m]) opts
  = (ps ← derivePairs l opts;
     derivePairs_step (l ++ [m]) opts
       (if decide (Context opts = "") then "none" else Context opts)
       (if decide (RoleStyle opts = "") then "labels" else RoleStyle opts)
       (Z.of_nat (length l)) ps).
Proof.
  unfold derivePairs. rewrite !derivePairs_indices.
  rewrite length_app. cbn [length]. rewrite seq_app, fmap_app.
  rewrite derivePairs_loop_app.
  rewrite (agree_loop (l ++ [m]) l).
  2:{ intros j Hj. apply lookup_app_l. lia. }
  destruct (derivePairs_loop l _ _ _ _ []) as [ps|]; [|done].
  cbn [mbind option_bind seq fmap list_fmap derivePairs_loop Nat.add].
  by destruct (derivePairs_step _ _ _ _ _ ps).
Qed.

Lemma derivePairs_step_last (l : list Message) (m : Message) opts cm rs ps :
  derivePairs_step (l ++ [m]) opts cm rs (Z.of_nat (length l)) ps
  = if decide (Role_ m ≠ RoleAssistant) then Some ps
    else if decide (TrimSpace (Content m) = "") then Some ps
    else
      match lastPrompt l opts cm rs with
      | None => None
      | Some None => Some ps
      | Some (Some prompt) =>
          if decide (prompt = "") then Some ps
          else Some (ps ++ [mkExportPair prompt (TrimSpace (Content m))])
      end.
Proof.
  unfold derivePairs_step, findPrevRole, lastPrompt.
  replace (Z.to_nat (Z.of_nat (length l) - 1 + 1)) with (length l) by lia.
  rewrite index_of_nat, lookup_app_r by lia. rewrite Nat.sub_diag.
  cbn [lookup list_lookup mbind option_bind].
  destruct (decide (Role_ m ≠ RoleAssistant)); [done|].
  destruct (decide (TrimSpace (Content m) = "")); [done|].
  rewrite (agree_findPrevRole_from (l ++ [m]) l)
    by (intros j Hj; apply lookup_app_l; lia).
  destruct (findPrevRole_from l RoleUser (length l)) as [j|] eqn:Hj; [|done].
  cbn [mbind option_bind].
  destruct (decide (j < 0)); [done|].
  apply findPrevRole_from_range in Hj.
  replace j with (Z.of_nat (Z.to_nat j)) by lia.
  rewrite (agree_promptFor (l ++ [m]) l opts cm rs (Z.to_nat j)).
  2:{ intros j' Hj'. apply lookup_app_l. lia. }
  by destruct (promptFor l opts cm rs _).
Qed.

Lemma lastPrompt_snoc_other (l : list Message) (x : Message) opts cm rs :
  Role_ x ≠ RoleUser -> lastPrompt (l ++ [x]) opts cm rs = lastPrompt l opts cm rs.
Proof.
  intros Hx. unfold lastPrompt. rewrite length_app. cbn [length].
  replace (length l + 1)%nat with (S (length l)) by lia.
  cbn [findPrevRole_from]. rewrite lookup_app_r by lia. rewrite Nat.sub_diag.
  cbn [lookup list_lookup mbind option_bind]. rewrite decide_False by done.
  rewrite (agree_findPrevRole_from (l ++ [x]) l)
    by (intros j Hj; apply lookup_app_l; lia).
  destruct (findPrevRole_from l RoleUser (length l)) as [j|] eqn:Hj; [|done].
  cbn [mbind option_bind].
  destruct (decide (j < 0)); [done|].
  apply findPrevRole_from_range in Hj.
  replace j with (Z.of_nat (Z.to_nat j)) by lia.
  rewrite (agree_promptFor (l ++ [x]) l opts cm rs (Z.to_nat j)); [done|].
  intros j' Hj'. apply lookup_app_l. lia.
Qed.

Lemma lastPrompt_snoc_user (l : list Message) (x : Message) opts cm rs :
  Role_ x = RoleUser ->
  lastPrompt (l ++ [x]) opts cm rs
  = (prompt ← promptFor (l ++ [x]) opts cm rs (Z.of_nat (length l));
     Some (Some prompt)).
Proof.
  intros Hx. unfold lastPrompt. rewrite length_app. cbn [length].
  replace (length l + 1)%nat with (S (length l)) by lia.
  cbn [findPrevRole_from]. rewrite lookup_app_r by lia. rewrite Nat.sub_diag.
  cbn [lookup list_lookup mbind option_bind]. rewrite decide_True by done.
  cbn [mbind option_bind]. by rewrite decide_False by lia.
Qed.

(* ===================================================================== *)
(** ** The window as a list *)
(* ===================================================================== *)

Lemma windowScan_windowRev msgs (k : Z) (n : nat) (turns : Z) :
  (n <= length msgs)%nat ->
  exists j : Z,
    windowScan msgs k n turns = Some j /\ -1 <= j < Z.of_nat n
    /\ drop (Z.to_nat j) (take n msgs)
       = reverse (windowRev k (reverse (take n msgs)) turns).
Proof.
  revert turns. induction n as [|n IH]; intros turns Hn.
  - exists (-1). by rewrite take_0.
  - destruct (lookup_lt_is_Some_2 msgs n) as [m Hm]; [lia|].
    cbn [windowScan]. rewrite Hm. cbn [mbind option_bind].
    rewrite (take_S_r _ _ _ Hm), reverse_snoc. cbn [windowRev].
    assert (length (take n msgs) = n) as Hlen by (rewrite length_take; lia).
    destruct (decide (Role_ m = RoleUser)).
    + destruct (decide (turns + 1 >= k)).
      * exists (Z.of_nat n). split; [done|]. split; [lia|].
        rewrite Nat2Z.id. by rewrite drop_app_length'.
      * destruct (IH (turns + 1)) as (j & Hj & Hr & Hd); [lia|].
        exists j. split; [done|]. split; [lia|].
        rewrite drop_app_le by lia. by rewrite Hd, reverse_cons.
    + destruct (IH turns) as (j & Hj & Hr & Hd); [lia|].
      exists j. split; [done|]. split; [lia|].
      rewrite drop_app_le by lia. by rewrite Hd, reverse_cons.
Qed.

(** The prompt that [renderContext] builds for the last message of a list:
    the window, or everything when [contextTurns] is not positive. *)
Lemma renderContext_last (l : list Message) (x : Message) inc (k : Z) rs :
  renderContext (l ++ [x]) (Z.of_nat (length l)) inc k rs
  = Some (Spec.render inc rs
            (if decide (k > 0)
             then reverse (windowRev k (reverse (l ++ [x])) 0)
             else l ++ [x])).
Proof.
  set (msgs := l ++ [x]).
  assert (length msgs = S (length l)) as Hlen.
  { unfold msgs. rewrite length_app. cbn. lia. }
  assert (forall s : nat, (s <= length l)%nat ->
            Spec.slice msgs s (length l) = drop s msgs) as Hslice.
  { intros s Hs. unfold Spec.slice. apply take_ge. rewrite length_drop. lia. }
  unfold renderContext, windowStart.
  replace (Z.to_nat (Z.of_nat (length l) + 1)) with (length msgs) by lia.
  destruct (decide (k > 0)).
  - destruct (windowScan_windowRev msgs k (length msgs) 0) as (j & -> & Hr & Hd);
      [done|].
    cbn [mbind option_bind]. rewrite take_ge in Hd by done. rewrite <- Hd.
    replace (if decide (j > 0) then j else 0) with (Z.of_nat (Z.to_nat j))
      by (destruct (decide (j > 0)); lia).
    rewrite renderLoop_render by lia. by rewrite Hslice by lia.
  - cbn [mbind option_bind]. rewrite (renderLoop_render msgs inc rs 0) by lia.
    by rewrite Hslice, drop_0 by lia.
Qed.

(* ===================================================================== *)
(** ** System messages when they are not rendered *)
(* ===================================================================== *)

Lemma windowRev_filter (k : Z) (rl : list Message) (turns : Z) :
  filter notSystem (windowRev k rl turns)
  = windowRev k (filter notSystem rl) turns.
Proof.
  revert turns. induction rl as [|m rl IH]; intros turns; [done|].
  cbn [windowRev].
  destruct (decide (notSystem m)) as [Hm|Hm].
  - rewrite (filter_cons_True notSystem m rl Hm). cbn [windowRev].
    destruct (decide (Role_ m = RoleUser)).
    + destruct (decide (turns + 1 >= k)).
      * by rewrite (filter_cons_True notSystem m [] Hm).
      * by rewrite filter_cons_True, IH.
    + by rewrite filter_cons_True, IH.
  - rewrite (filter_cons_False notSystem m rl Hm).
    assert (Role_ m = RoleSystem) as Hsys.
    { unfold notSystem in Hm. by destruct (decide (Role_ m = RoleSystem)). }
    rewrite decide_False by (by rewrite Hsys).
    by rewrite filter_cons_False, IH.
Qed.

Lemma render_filter rs (turns : list Message) :
  Spec.render false rs (filter notSystem turns) = Spec.render false rs turns.
Proof.
  unfold Spec.render. f_equal. f_equal.
  apply list_filter_filter_l. intros m [Hs _] Hsys. by specialize (Hs Hsys).
Qed.

Section SystemMessages.
Variables (opts : ExportOptions) (cm rs : string).
Hypothesis Hquiet : cm = "window" \/ cm = "full" -> IncludeSystem opts = false.

Lemma promptFor_filter (l : list Message) (x : Message) :
  Role_ x = RoleUser ->
  promptFor (filter notSystem l ++ [x]) opts cm rs
    (Z.of_nat (length (filter notSystem l)))
  = promptFor (l ++ [x]) opts cm rs (Z.of_nat (length l)).
Proof.
  intros Hx.
  assert (filter notSystem (l ++ [x]) = filter notSystem l ++ [x]) as Hkeep.
  { rewrite filter_app. f_equal.
    rewrite (filter_cons_True notSystem x []); [done|].
    unfold notSystem. by rewrite Hx. }
  unfold promptFor. rewrite !index_of_nat, !lookup_app_r by lia.
  rewrite !Nat.sub_diag. cbn [lookup list_lookup mbind option_bind].
  rewrite !renderContext_last.
  destruct (decide (cm = "none")); [done|].
  destruct (decide (cm = "window")) as [Hw|Hw].
  - rewrite Hquiet by auto. f_equal.
    rewrite <- Hkeep.
    destruct (decide (ContextTurns opts > 0)).
    + rewrite <- filter_reverse, <- windowRev_filter, <- filter_reverse.
      apply render_filter.
    + apply render_filter.
  - destruct (decide (cm = "full")) as [Hf|Hf]; [|done].
    rewrite Hquiet by auto. f_equal.
    rewrite (decide_False (P := 0 > 0)) by lia.
    rewrite <- Hkeep. apply render_filter.
Qed.

Lemma lastPrompt_filter (l : list Message) :
  lastPrompt (filter notSystem l) opts cm rs = lastPrompt l opts cm rs.
Proof.
  induction l as [|x l IH] using rev_ind; [done|].
  rewrite filter_app.
  destruct (decide (Role_ x = RoleUser)) as [Hu|Hu].
  - rewrite (filter_cons_True notSystem x [])
      by (unfold notSystem; by rewrite Hu).
    rewrite filter_nil, !lastPrompt_snoc_user by done.
    by rewrite promptFor_filter.
  - rewrite (lastPrompt_snoc_other l) by done.
    destruct (decide (notSystem x)) as [Hs|Hs].
    + rewrite (filter_cons_True notSystem x [] Hs), filter_nil.
      by rewrite lastPrompt_snoc_other.
    + rewrite (filter_cons_False notSystem x [] Hs), filter_nil.
      by rewrite app_nil_r.
Qed.

End SystemMessages.

(** X27.  Unless a window or the full history is rendered with
    [include_system] on, system messages have no part in the export: the
    pairs of a conversation are those of the conversation without them. *)
Theorem system_messages_ignored (msgs : list Message) (opts : ExportOptions) :
  IncludeSystem opts = false
  \/ (Context opts ≠ "window" /\ Context opts ≠ "full") ->
  derivePairs (filter notSystem msgs) opts = derivePairs msgs opts.
Proof.
  intros Hopts.
  assert ((if decide (Context opts = "") then "none" else Context opts)
            = "window"
          \/ (if decide (Context opts = "") then "none" else Context opts)
             = "full" -> IncludeSystem opts = false) as Hquiet.
  { destruct Hopts as [|[Hw Hf]]; [done|].
    destruct (decide (Context opts = "")); intros [|]; done. }
  induction msgs as [|m msgs IH] using rev_ind; [done|].
  rewrite filter_app, (derivePairs_snoc msgs).
  destruct (decide (notSystem m)) as [Hs|Hs].
  - rewrite (filter_cons_True notSystem m [] Hs), filter_nil.
    rewrite derivePairs_snoc, IH.
    destruct (derivePairs msgs opts) as [ps|]; [|done].
    cbn [mbind option_bind]. rewrite !derivePairs_step_last.
    by rewrite (lastPrompt_filter opts _ _ Hquiet).
  - rewrite (filter_cons_False notSystem m [] Hs), filter_nil, app_nil_r, IH.
    destruct (derivePairs msgs opts) as [ps|]; [|done].
    cbn [mbind option_bind]. rewrite derivePairs_step_last.
    rewrite decide_True; [done|].
    unfold notSystem in Hs.
    destruct (decide (Role_ m = RoleSystem)) as [->|]; done.
Qed.

Lemma system_messages_ignored_witness :
  IncludeSystem (optsWith "window" 1) = false
  /\ derivePairs (filter notSystem dialogue) (optsWith "window" 1)
     = derivePairs dialogue (optsWith "window" 1).
Proof.
  split; [reflexivity|].
  exact (system_messages_ignored dialogue (optsWith "window" 1)
           (or_introl eq_refl)).
Defined.

(* ===================================================================== *)
(** ** What reaches the sink *)
(* ===================================================================== *)

Lemma derivePairsFromItemData_sides (data : RawMessage)
  (opts : ExportOptions) :
  exists ps : list ExportPair,
    derivePairsFromItemData data opts = Some ps
    /\ Forall (fun p => User p ≠ "" /\ Assistant p ≠ "") ps.
Proof.
  unfold derivePairsFromItemData.
  destruct (unmarshalObject data) as [obj|]; [|by exists []].
  destruct (singleTurn obj) as [p|] eqn:Hp.
  - exists [p]. split; [done|]. constructor; [|done].
    unfold singleTurn in Hp.
    destruct (obj !! "user"); cbn [mbind option_bind] in Hp; [|done].
    destruct (obj !! "assistant"); cbn [mbind option_bind] in Hp; [|done].
    destruct (unmarshalString _ _); destruct (unmarshalString _ _);
      cbn [mbind option_bind] in Hp; try done.
    destruct (decide (_ ∧ _)) as [Hne|]; [|done]. by injection Hp as <-.
  - destruct (obj !! "messages"); [|by exists []].
    destruct (unmarshalMessages _); [|by exists []].
    destruct (decide (_ = 0%nat)); [by exists []|].
    apply derivePairs_sides.
Qed.

Lemma streamRows_filled {A} (encode : A -> Line) (N : Z) rows (c : Z) :
  (forall row, pairLineFilled (encode row)) ->
  Forall pairLineFilled (streamRows encode N rows c).
Proof.
  intros Henc. revert c.
  induction rows as [|row rows IH]; intros c; cbn [streamRows]; [done|].
  destruct (decide (_ ∧ _)); constructor; auto.
Qed.

Lemma derivable_filled {A} (derive : A -> option (list ExportPair)) rows :
  (forall row, exists ps,
     derive row = Some ps
     /\ Forall (fun p => User p ≠ "" /\ Assistant p ≠ "") ps) ->
  Forall pairLineFilled (PairLine <$> derivable derive rows).
Proof.
  intros Hd. apply Forall_fmap. unfold derivable.
  induction rows as [|row rows IH]; [done|]. cbn [flat_map].
  apply Forall_app. split; [|done].
  destruct (Hd row) as (ps & -> & Hps). done.
Qed.

Lemma streamPairRows_filled {A} (derive : A -> option (list ExportPair))
  (N : Z) rows :
  (forall row, exists ps,
     derive row = Some ps
     /\ Forall (fun p => User p ≠ "" /\ Assistant p ≠ "") ps) ->
  Forall pairLineFilled (streamPairRows derive N rows 0).1.
Proof.
  intros Hd.
  assert (Forall (fun row => is_Some (derive row)) rows) as Hall.
  { apply Forall_forall. intros row _. destruct (Hd row) as (ps & -> & _).
    by eexists. }
  destruct (decide (N <= 0)).
  - rewrite streamPairRows_unlimited by done. by apply derivable_filled.
  - rewrite streamPairRows_cap by (done || lia).
    by apply Forall_take, derivable_filled.
Qed.

(** X28.  Whatever the store and the options, no pair line that
    [StreamExport] writes has an empty prompt or an empty completion. *)
Theorem exported_pairs_filled (db : DB) (opts : ExportOptions) :
  Forall pairLineFilled (StreamExport db opts).1.
Proof.
  unfold StreamExport. generalize (exportDefaults opts). clear opts.
  intros opts.
  assert (Forall pairLineFilled (streamByType db opts).1) as Hby.
  { unfold streamByType, streamPairs, streamConversations.
    destruct (decide (Type_ opts = "pairs")).
    - apply streamPairRows_filled. intros c. apply derivePairs_sides.
    - destruct (decide (Type_ opts = "conversations")); [|done].
      by apply streamRows_filled. }
  assert (Forall pairLineFilled (streamDatasetItems db opts).1) as Hit.
  { unfold streamDatasetItems, streamPairsFromDatasetItems,
      streamDatasetItemsRaw, streamDatasetItemsWithMeta.
    destruct (decide (Type_ opts = "pairs")).
    - destruct (decide (DatasetID opts <= 0)); [done|].
      apply streamPairRows_filled. intros it.
      apply derivePairsFromItemData_sides.
    - destruct (decide (Type_ opts = "items")).
      + destruct (decide (DatasetID opts <= 0)); [done|].
        by apply streamRows_filled.
      + destruct (decide (Type_ opts = "items_with_meta")); [|done].
        destruct (decide (DatasetID opts <= 0)); [done|].
        by apply streamRows_filled. }
  unfold dispatch. destruct (decide (DatasetID opts > 0)); [|done].
  destruct (GetDataset db (DatasetID opts)); [done|].
  by destruct (EqualFold_items _).
Qed.

(* ===================================================================== *)
(** ** Reading one conversation *)
(* ===================================================================== *)

Lemma firstContent_cons (role : Role) (m : Message) (msgs : list Message) :
  firstContent role (m :: msgs)
  = if decide (Role_ m = role ∧ TrimSpace (Content m) ≠ "")
    then TrimSpace (Content m) else firstContent role msgs.
Proof.
  unfold firstContent. cbn [list_find].
  destruct (decide (Role_ m = role ∧ TrimSpace (Content m) ≠ "")); [done|].
  by destruct (list_find _ msgs) as [[i x]|].
Qed.

(** The loop keeps a preview once it is not empty, and otherwise takes the
    first content of the role that is not blank. *)
Lemma previewLoop_spec (msgs : list Message) (pu pa : string) :
  foldl previewStep (pu, pa) msgs
  = (if decide (pu = "") then firstContent RoleUser msgs else pu,
     if decide (pa = "") then firstContent RoleAssistant msgs else pa).
Proof.
  revert pu pa. induction msgs as [|m msgs IH]; intros pu pa.
  - cbn [foldl]. unfold firstContent. cbn [list_find].
    f_equal; by case_decide.
  - cbn [foldl]. unfold previewStep at 2. cbn [fst snd]. rewrite IH.
    rewrite !firstContent_cons. f_equal.
    + destruct (decide (pu = "")) as [->|Hpu].
      * destruct (decide (Role_ m = RoleUser)) as [Hr|Hr].
        -- rewrite (decide_True (P := "" = "" ∧ _)) by done.
           destruct (decide (TrimSpace (Content m) = "")) as [Hc|Hc].
           ++ rewrite (decide_False (P := _ ∧ _ ≠ "")) by (by intros [_ ?]).
              done.
           ++ by rewrite (decide_True (P := _ ∧ _ ≠ "")).
        -- rewrite (decide_False (P := "" = "" ∧ _)) by (by intros [_ ?]).
           rewrite (decide_True (P := "" = "")) by done.
           by rewrite (decide_False (P := _ ∧ _ ≠ "")) by (by intros [? _]).
      * rewrite (decide_False (P := pu = "" ∧ _)) by (by intros [? _]).
        by rewrite decide_False.
    + destruct (decide (pa = "")) as [->|Hpa].
      * destruct (decide (Role_ m = RoleAssistant)) as [Hr|Hr].
        -- rewrite (decide_True (P := "" = "" ∧ _)) by done.
           destruct (decide (TrimSpace (Content m) = "")) as [Hc|Hc].
           ++ rewrite (decide_False (P := _ ∧ _ ≠ "")) by (by intros [_ ?]).
              done.
           ++ by rewrite (decide_True (P := _ ∧ _ ≠ "")).
        -- rewrite (decide_False (P := "" = "" ∧ _)) by (by intros [_ ?]).
           rewrite (decide_True (P := "" = "")) by done.
           by rewrite (decide_False (P := _ ∧ _ ≠ "")) by (by intros [? _]).
      * rewrite (decide_False (P := pa = "" ∧ _)) by (by intros [? _]).
        by rewrite decide_False.
Qed.

Lemma sliceTo_all (s : string) (n : nat) :
  (String.length s <= n)%nat -> sliceTo s n = s.
Proof.
  revert n. induction s as [|c s IH]; intros [|n] Hn; cbn in *;
    try done; try lia.
  rewrite IH; [done|lia].
Qed.

Lemma sliceTo_length (s : string) (n : nat) :
  (String.length (sliceTo s n) <= n)%nat.
Proof.
  revert s. induction n as [|n IH]; intros [|c s]; cbn; try lia.
  specialize (IH s). lia.
Qed.

Lemma clip160_spec (s : string) : clip160 s = sliceTo s 160.
Proof.
  unfold clip160, len. destruct (decide (_ > 160)); [done|].
  symmetry. apply sliceTo_all. lia.
Qed.

(** X29.  The conversation [GetConversation] returns is one of the store with
    the id asked for; its message count is the number of its messages, and
    each preview is the first 160 bytes of the trimmed content of the first
    message of the role whose content is not blank (empty when there is
    none). *)
Theorem GetConversation_previews (db : DB) (id : Z) (d : ConversationDetail) :
  GetConversation db id = inr d ->
  Conv d ∈ conversations db /\ ConvID (Conv d) = id
  /\ MessageCount d = Z.of_nat (length (Messages (Conv d)))
  /\ PreviewUser d = sliceTo (firstContent RoleUser (Messages (Conv d))) 160
  /\ PreviewAssistant d
     = sliceTo (firstContent RoleAssistant (Messages (Conv d))) 160
  /\ len (PreviewUser d) <= 160 /\ len (PreviewAssistant d) <= 160.
Proof.
  unfold GetConversation.
  destruct (List.find _ (conversations db)) as [c|] eqn:Hfind; [|done].
  intros [= <-]. cbn [Conv MessageCount PreviewUser PreviewAssistant].
  apply find_some in Hfind as [Hin Hid].
  apply bool_decide_eq_true in Hid. apply list_elem_of_In in Hin.
  rewrite previewLoop_spec, !clip160_spec. cbn [fst snd].
  rewrite !(decide_True (P := "" = "")) by done.
  repeat split; try done; unfold len.
  - pose proof (sliceTo_length (firstContent RoleUser (Messages c)) 160). lia.
  - pose proof (sliceTo_length (firstContent RoleAssistant (Messages c)) 160).
    lia.
Qed.

Lemma GetConversation_previews_witness :
  GetConversation blankFirst 5
  = inr (mkConversationDetail
           (conv 5 [user "  "; assistant "A"; user " q "; assistant "B"])
           4 "q" "A")
  /\ PreviewUser
       (mkConversationDetail
          (conv 5 [user "  "; assistant "A"; user " q "; assistant "B"])
          4 "q" "A")
     = sliceTo
         (firstContent RoleUser
            [user "  "; assistant "A"; user " q "; assistant "B"]) 160.
Proof.
  split; [reflexivity|].
  exact (proj1 (proj2 (proj2 (proj2
           (GetConversation_previews blankFirst 5 _ eq_refl))))).
Defined.
